(** * Machine lowering of simplified operations (Turboshaft)

    A model of [src/compiler/turboshaft/machine-lowering-reducer.h]: the
    reducer that rewrites ChangeOrDeopt, ObjectIs, ConvertToObject,
    ConvertObjectToPrimitive(OrDeopt), NewConsString, NewArray,
    DoubleArrayMinMax and LoadFieldByIndex into machine operations.

    The reducer emits a subgraph through the assembler.  Here every assembler
    operation is given its run-time meaning, so that a reducer function
    becomes the function computed by the subgraph it emits: a state
    transformer over a byte-addressed heap that either produces a value or
    leaves optimized code through a deoptimization exit.  The assertions of
    the reducer on the compile-time part of a request are met while it emits;
    [Reduce] checks them ahead of the subgraph. *)

From Stdlib Require Import ZArith Lia List Bool SpecFloat.
From Equations Require Import Equations.
Import ListNotations.
Local Open Scope Z_scope.

(** ** Fixed-width machine words

    A [Word32], [Word64], [WordPtr], [Float64] or [Tagged] value is the
    integer of its bit pattern.  An operation of width [w] reads its operands
    modulo [2^w], which is also what the implicit truncation of a [Word64] to
    a [Word32] does. *)

Module Word.

Definition wrap (w x : Z) : Z := x mod 2 ^ w.

Definition signed (w x : Z) : Z :=
  let u := wrap w x in
  if u <? 2 ^ (w - 1) then u else u - 2 ^ w.

(** The [Word32] a comparison produces. *)
Definition bit (b : bool) : Z := if b then 1 else 0.

Definition truth (c : Z) : bool := negb (wrap 32 c =? 0).

Definition Equal (w a b : Z) : Z := bit (wrap w a =? wrap w b).
Definition IntLessThan (w a b : Z) : Z := bit (signed w a <? signed w b).
Definition UintLessThan (w a b : Z) : Z := bit (wrap w a <? wrap w b).
Definition UintLessThanOrEqual (w a b : Z) : Z := bit (wrap w a <=? wrap w b).
Definition Add (w a b : Z) : Z := wrap w (wrap w a + wrap w b).
Definition Sub (w a b : Z) : Z := wrap w (wrap w a - wrap w b).
Definition BitwiseAnd (w a b : Z) : Z := Z.land (wrap w a) (wrap w b).
Definition BitwiseOr (w a b : Z) : Z := Z.lor (wrap w a) (wrap w b).
Definition BitwiseXor (w a b : Z) : Z := Z.lxor (wrap w a) (wrap w b).
Definition ShiftLeft (w a n : Z) : Z := wrap w (Z.shiftl (wrap w a) (wrap 32 n mod w)).
Definition ShiftRightLogical (w a n : Z) : Z := Z.shiftr (wrap w a) (wrap 32 n mod w).
Definition ShiftRightArithmetic (w a n : Z) : Z :=
  wrap w (Z.shiftr (signed w a) (wrap 32 n mod w)).

Lemma wrap_range w x : 0 <= w -> 0 <= wrap w x < 2 ^ w.
Proof. intros Hw. apply Z.mod_pos_bound. apply Z.pow_pos_nonneg; lia. Qed.

Lemma wrap_small w x : 0 <= x < 2 ^ w -> wrap w x = x.
Proof. intros H. apply Z.mod_small; exact H. Qed.

Lemma wrap_wrap w x : 0 <= w -> wrap w (wrap w x) = wrap w x.
Proof. intros Hw. apply wrap_small, wrap_range, Hw. Qed.

Lemma bit_truth b : truth (bit b) = b.
Proof. destruct b; reflexivity. Qed.

End Word.

Import Word.

(** The 32-bit and 64-bit operations of the assembler. *)
Definition Word32Equal := Equal 32.
Definition Word64Equal := Equal 64.
Definition Int32LessThan := IntLessThan 32.
Definition Uint32LessThan := UintLessThan 32.
Definition Uint32LessThanOrEqual := UintLessThanOrEqual 32.
Definition Uint64LessThanOrEqual := UintLessThanOrEqual 64.
Definition Word32Add := Add 32.
Definition Word32Sub := Sub 32.
Definition Word64Sub := Sub 64.
Definition Word32BitwiseAnd := BitwiseAnd 32.
Definition Word32BitwiseOr := BitwiseOr 32.
Definition Word64BitwiseXor := BitwiseXor 64.
Definition Word32ShiftLeft := ShiftLeft 32.
Definition Word32ShiftRightLogical := ShiftRightLogical 32.
Definition Word64ShiftRightLogical := ShiftRightLogical 64.
Definition Word64ShiftRightArithmetic := ShiftRightArithmetic 64.
Definition ChangeInt32ToInt64 (x : Z) : Z := wrap 64 (signed 32 x).

(** [Int32AddCheckOverflow] yields the sum and, as projection 1, the signed
    overflow flag. *)
Definition Int32AddCheckOverflow (a b : Z) : Z * Z :=
  let s := signed 32 a + signed 32 b in
  (wrap 32 s, bit (negb ((- 2 ^ 31 <=? s) && (s <? 2 ^ 31)))).

Definition Projection (add : Z * Z) (i : nat) : Z :=
  match i with O => fst add | _ => snd add end.

(** C++ limits used as constants by the reducer. *)
Definition kMaxInt : Z := 2 ^ 31 - 1.
Definition int64_max : Z := 2 ^ 63 - 1.
Definition int64_min : Z := - 2 ^ 63.

(** ** Float64 values

    A [Float64] is carried as its 64-bit IEEE-754 pattern (this is what
    [Float64ExtractHighWord32] and a [Float64] store see).  Arithmetic and
    comparison go through the binary64 instance of [spec_float]. *)

Module Float64.

Definition prec : Z := 53.
Definition emax : Z := 1024.

Definition sign_bit (s : bool) : Z := if s then 2 ^ 63 else 0.

Definition of_bits (b : Z) : spec_float :=
  let b := wrap 64 b in
  let s := 2 ^ 63 <=? b in
  let e := (b / 2 ^ 52) mod 2 ^ 11 in
  let m := b mod 2 ^ 52 in
  if e =? 0 then
    if m =? 0 then S754_zero s else S754_finite s (Z.to_pos m) (-1074)
  else if e =? 2047 then
    if m =? 0 then S754_infinity s else S754_nan
  else S754_finite s (Z.to_pos (m + 2 ^ 52)) (e - 1075).

Definition quiet_nan : Z := 0x7FF8000000000000.

Definition to_bits (f : spec_float) : Z :=
  match f with
  | S754_zero s => sign_bit s
  | S754_infinity s => sign_bit s + 2047 * 2 ^ 52
  | S754_nan => quiet_nan
  | S754_finite s m e =>
      if Zpos m <? 2 ^ 52 then sign_bit s + Zpos m
      else sign_bit s + (e + 1075) * 2 ^ 52 + (Zpos m - 2 ^ 52)
  end.

(** Conversion of an integer, rounding to nearest even. *)
Definition of_Z (x : Z) : Z := to_bits (binary_normalize prec emax x 0 false).

(** The integer a float denotes, when it denotes one. *)
Definition integer_value (f : spec_float) : option Z :=
  match f with
  | S754_zero _ => Some 0
  | S754_finite s m e =>
      let v := if 0 <=? e then Zpos m * 2 ^ e
               else if Zpos m mod 2 ^ (- e) =? 0 then Zpos m / 2 ^ (- e) else -1 in
      if v <? 0 then None else Some (if s then - v else v)
  | _ => None
  end.

(** Rounding toward zero; [None] for NaN and the infinities. *)
Definition truncate (f : spec_float) : option Z :=
  match f with
  | S754_zero _ => Some 0
  | S754_finite s m e =>
      let v := if 0 <=? e then Zpos m * 2 ^ e else Zpos m / 2 ^ (- e) in
      Some (if s then - v else v)
  | _ => None
  end.

Definition is_nan (f : spec_float) : bool :=
  match f with S754_nan => true | _ => false end.

Definition is_negative (f : spec_float) : bool :=
  match f with
  | S754_zero s | S754_infinity s | S754_finite s _ _ => s
  | S754_nan => false
  end.

(** [Float64Max] and [Float64Min] of the machine: NaN if an operand is NaN,
    and [-0 < +0]. *)
Definition max (a b : Z) : Z :=
  let fa := of_bits a in
  let fb := of_bits b in
  match SFcompare fa fb with
  | None => quiet_nan
  | Some Lt => wrap 64 b
  | Some Gt => wrap 64 a
  | Some Eq => if is_negative fa then wrap 64 b else wrap 64 a
  end.

Definition min (a b : Z) : Z :=
  let fa := of_bits a in
  let fb := of_bits b in
  match SFcompare fa fb with
  | None => quiet_nan
  | Some Lt => wrap 64 a
  | Some Gt => wrap 64 b
  | Some Eq => if is_negative fa then wrap 64 a else wrap 64 b
  end.

Definition plus_infinity : Z := 0x7FF0000000000000.
Definition minus_infinity : Z := 0xFFF0000000000000.
Definition plus_zero : Z := 0.
Definition minus_zero : Z := 0x8000000000000000.

End Float64.

Definition V8_INFINITY : Z := Float64.plus_infinity.
Definition Float64Negate (x : Z) : Z := Z.lxor (wrap 64 x) (2 ^ 63).

Definition Float64Equal (a b : Z) : Z :=
  bit (SFeqb (Float64.of_bits a) (Float64.of_bits b)).
Definition Float64ExtractHighWord32 (x : Z) : Z := wrap 64 x / 2 ^ 32.
Definition Float64Max := Float64.max.
Definition Float64Min := Float64.min.
Definition ChangeInt32ToFloat64 (x : Z) : Z := Float64.of_Z (signed 32 x).
Definition ChangeUint32ToFloat64 (x : Z) : Z := Float64.of_Z (wrap 32 x).
Definition ChangeInt64ToFloat64 (x : Z) : Z := Float64.of_Z (signed 64 x).

(** The [...OverflowUndefined] truncations: rounding toward zero when the
    result fits the target width; otherwise the result is whatever the machine
    instruction leaves, given here by [undefined]. *)
Definition TruncateFloat64ToInt (w : Z) (undefined : Z -> Z) (x : Z) : Z :=
  match Float64.truncate (Float64.of_bits x) with
  | Some v => if (- 2 ^ (w - 1) <=? v) && (v <? 2 ^ (w - 1)) then wrap w v
              else wrap w (undefined x)
  | None => wrap w (undefined x)
  end.

Definition TruncateFloat64ToUint (w : Z) (undefined : Z -> Z) (x : Z) : Z :=
  match Float64.truncate (Float64.of_bits x) with
  | Some v => if (0 <=? v) && (v <? 2 ^ w) then v else wrap w (undefined x)
  | None => wrap w (undefined x)
  end.

(** ** The heap

    Memory is an array of bytes.  A load or store of [size] bytes reads or
    writes them in the byte order of the target. *)

Module Memory.

Definition t := Z -> Z.

(** Position, within the [size] bytes of a value, of its [k]-th least
    significant byte. *)
Definition byte_index (big_endian : bool) (size k : Z) : Z :=
  if big_endian then size - 1 - k else k.

Fixpoint load_digits (m : t) (big_endian : bool) (size addr : Z) (n : nat) (k : Z) : Z :=
  match n with
  | O => 0
  | S n' => m (addr + byte_index big_endian size k) mod 256
            + 256 * load_digits m big_endian size addr n' (k + 1)
  end.

Definition load (big_endian : bool) (size addr : Z) (m : t) : Z :=
  load_digits m big_endian size addr (Z.to_nat size) 0.

Definition store (big_endian : bool) (size addr v : Z) (m : t) : t :=
  fun a =>
    if (addr <=? a) && (a <? addr + size)
    then (v / 256 ^ byte_index big_endian size (a - addr)) mod 256
    else m a.

End Memory.

(** Layout of a stored value ([MemoryRepresentation::Enum]). *)
Inductive MemoryRepresentation :=
| kInt8 | kUint8 | kInt16 | kUint16 | kInt32 | kUint32 | kInt64 | kUint64
| kFloat64 | kAnyTagged | kTaggedPointer | kTaggedSigned.

(** Representation of a value in a register ([RegisterRepresentation]). *)
Inductive RegisterRepresentation := Word32 | Word64 | Float64 | Tagged.

Definition RegisterRepresentation_eqb (a b : RegisterRepresentation) : bool :=
  match a, b with
  | Word32, Word32 | Word64, Word64 | Float64, Float64 | Tagged, Tagged => true
  | _, _ => false
  end.

Inductive AllocationType := kYoung | kOld.

(** A field of a heap object: its offset from the start of the object and the
    layout of its value ([FieldAccess]); the elements of an array: the size of
    the header in front of them and their layout ([ElementAccess]). *)
Record FieldAccess := { offset : Z; machine_type : MemoryRepresentation }.
Record ElementAccess := { header_size : Z; element_type : MemoryRepresentation }.

(** [base::BitField<T, shift, size>]. *)
Record BitField := { kShift : Z; kSize : Z }.

Definition kMask (f : BitField) : Z := Z.shiftl (2 ^ kSize f - 1) (kShift f).
Definition encode (f : BitField) (v : Z) : Z := wrap 32 (Z.shiftl v (kShift f)).
Definition update (f : BitField) (previous v : Z) : Z :=
  Z.lor (Z.land (wrap 32 previous) (Z.lxor (kMask f) (2 ^ 32 - 1))) (encode f v).

(** ** What the reducer takes from the rest of the code base

    The build configuration ([src/common/globals.h]) together with the two
    things the machine decides: the result of a truncation that overflows,
    for the width truncated to and the input, and the C function behind
    [string_to_array_index_function]. *)
Record Target := {
  Is64 : bool;
  SmiValuesAre32Bits : bool;
  V8_TARGET_BIG_ENDIAN : bool;
  kTaggedSize : Z;
  kTaggedSizeLog2 : Z;
  kObjectAlignment : Z;
  overflow_undefined : Z -> Z -> Z;
  string_to_array_index_function : Memory.t -> Z -> Z
}.

(** Constants of the object model: bit fields, instance types, object sizes
    and the field accesses of [AccessBuilder]. *)
Record Layout := {
  BigInt_SignBits : BitField;
  BigInt_LengthBits : BitField;
  BigInt_kHeaderSize : Z;
  BigInt_kDigitSize : Z;
  BigInt_HasOptionalPadding : bool;
  Map_Bits1_IsCallableBit : BitField;
  Map_Bits1_IsConstructorBit : BitField;
  Map_Bits1_IsUndetectableBit : BitField;
  FIRST_JS_RECEIVER_TYPE : Z;
  FIRST_NONSTRING_TYPE : Z;
  SYMBOL_TYPE : Z;
  ODDBALL_TYPE : Z;
  FIRST_JS_ARRAY_BUFFER_VIEW_TYPE : Z;
  LAST_JS_ARRAY_BUFFER_VIEW_TYPE : Z;
  kStringEncodingMask : Z;
  kTwoByteStringTag : Z;
  String_kMaxOneByteCharCode : Z;
  Name_kEmptyHashField : Z;
  SeqTwoByteString_kHeaderSize : Z;
  HeapNumber_kSize : Z;
  ConsString_kSize : Z;
  FixedArray_kHeaderSize : Z;
  FixedDoubleArray_kHeaderSize : Z;
  JSObject_kHeaderSize : Z;
  kMaxSafeIntegerUint64 : Z;
  ForMap : FieldAccess;
  ForMapBitField : FieldAccess;
  ForMapInstanceType : FieldAccess;
  ForBigIntBitfield : FieldAccess;
  ForBigIntOptionalPadding : FieldAccess;
  ForBigIntLeastSignificantDigit64 : FieldAccess;
  ForHeapNumberValue : FieldAccess;
  ForNameRawHashField : FieldAccess;
  ForStringLength : FieldAccess;
  ForConsStringFirst : FieldAccess;
  ForConsStringSecond : FieldAccess;
  ForFixedArrayLength : FieldAccess;
  ForJSArrayLength : FieldAccess;
  ForJSObjectElements : FieldAccess;
  ForJSObjectPropertiesOrHashKnownPointer : FieldAccess;
  ForFixedArrayElement : ElementAccess;
  ForFixedDoubleArrayElement : ElementAccess
}.

(** The canonical objects of the [Factory] the reducer refers to. *)
Record Factory := {
  bigint_map : Z;
  heap_number_map : Z;
  boolean_map : Z;
  string_map : Z;
  cons_string_map : Z;
  cons_one_byte_string_map : Z;
  fixed_array_map : Z;
  fixed_double_array_map : Z;
  true_value : Z;
  false_value : Z;
  the_hole_value : Z;
  empty_fixed_array : Z;
  single_character_string_table : Z
}.

(** [DeoptimizeReason]: the reasons this reducer names, among others of the
    list in [src/deoptimizer/deoptimize-reason.h]. *)
Module DeoptimizeReason.
Inductive t :=
| kArrayBufferWasDetached | kBigIntTooBig | kDivisionByZero | kHole
| kLostPrecision | kLostPrecisionOrNaN | kMinusZero | kNaN
| kNotABigInt | kNotABigInt64 | kNotAHeapNumber | kNotAJavaScriptObject
| kNotANumberOrBoolean | kNotANumberOrOddball | kNotAnArrayIndex | kNotASmi
| kNotAString | kNotASymbol | kNotInt32 | kOutOfBounds | kOverflow | kSmi
| kUnknown | kWrongInstanceType | kWrongMap.
End DeoptimizeReason.

(** The enumerations of the operations being lowered
    ([src/compiler/turboshaft/operations.h]). *)
Inductive CheckForMinusZeroMode := kCheckForMinusZero | kDontCheckForMinusZero.

Module ChangeOrDeoptOp.
Inductive Kind :=
| kUint32ToInt32 | kInt64ToInt32 | kUint64ToInt32 | kUint64ToInt64
| kFloat64ToInt32 | kFloat64ToInt64.
End ChangeOrDeoptOp.

Module ObjectIsOp.
Module Kind.
Inductive t :=
| kArrayBufferView | kBigInt | kBigInt64 | kCallable | kConstructor
| kDetectableCallable | kNonCallable | kNumber | kReceiver | kSmi | kString
| kSymbol | kUndetectable.
End Kind.
Module InputAssumptions.
Inductive t := kNone | kHeapObject | kBigInt.
End InputAssumptions.
End ObjectIsOp.

Module ConvertToObjectOp.
Module Kind.
Inductive t := kBigInt | kBoolean | kHeapNumber | kNumber | kSmi | kString.
End Kind.
Module InputInterpretation.
Inductive t := kSigned | kUnsigned | kCharCode | kCodePoint.
End InputInterpretation.
End ConvertToObjectOp.

Module ConvertObjectToPrimitiveOp.
Module Kind.
Inductive t := kInt32 | kInt64 | kUint32 | kBit.
End Kind.
Module InputAssumptions.
Inductive t := kObject | kSmi | kNumberOrOddball.
End InputAssumptions.
End ConvertObjectToPrimitiveOp.

Module ConvertObjectToPrimitiveOrDeoptOp.
Module ObjectKind.
Inductive t := kNumber | kNumberOrBoolean | kNumberOrOddball | kNumberOrString | kSmi.
End ObjectKind.
Module PrimitiveKind.
Inductive t := kInt32 | kInt64 | kFloat64 | kArrayIndex.
End PrimitiveKind.
End ConvertObjectToPrimitiveOrDeoptOp.

Module NewArrayOp.
Inductive Kind := kDouble | kObject.
End NewArrayOp.

Module DoubleArrayMinMaxOp.
Inductive Kind := kMin | kMax.
End DoubleArrayMinMaxOp.

(** ** The assembler

    Run-time state: the heap, the allocation pointer, and the log of the
    allocations made so far (address and size, latest first). *)
Record State := {
  memory : Memory.t;
  allocation_top : Z;
  allocations : list (Z * Z)
}.

(** What reducing a request and running the emitted subgraph comes to: a value
    and the state after it; a deoptimization exit with its reason, frame state
    and feedback; or, for a request the reducer is not meant to receive, the
    failed assertion ([DCHECK], [UNREACHABLE]) that stops the compilation. *)
Inductive Outcome (A : Type) :=
| Returned (a : A) (s : State)
| Deoptimized (reason : DeoptimizeReason.t) (frame_state feedback : Z)
| Fatal.

Arguments Returned {A} a s.
Arguments Deoptimized {A} reason frame_state feedback.
Arguments Fatal {A}.

Definition Asm (A : Type) : Type := State -> Outcome A.

Definition ret {A} (a : A) : Asm A := fun s => Returned a s.

Definition bind {A B} (c : Asm A) (k : A -> Asm B) : Asm B :=
  fun s =>
    match c s with
    | Returned a s' => k a s'
    | Deoptimized r fs fb => Deoptimized r fs fb
    | Fatal => Fatal
    end.

Declare Scope asm_scope.
Delimit Scope asm_scope with asm.
Bind Scope asm_scope with Asm.
Notation "x <- c ;; k" := (bind c (fun x => k))
  (at level 61, c at next level, right associativity) : asm_scope.
Notation "c ;; k" := (bind c (fun _ => k))
  (at level 61, right associativity) : asm_scope.
Local Open Scope asm_scope.

(** The assertions.  They test compile-time data, and the reducer meets them
    while it emits a subgraph, on every path of it, whichever path the
    run-time data takes later.  In the body of a handler an assertion stands
    where the source has it and fails when control comes to it; a request
    enters through [Reduce], which checks the assertions of its handler,
    collected in [contract], ahead of running any of the subgraph. *)
Definition UNREACHABLE {A} : Asm A := fun _ => Fatal.
Definition DCHECK (b : bool) : Asm unit := fun s => if b then Returned tt s else Fatal.

(** Control flow.  A label is the code bound at it, taking the values the
    jumps carry; [GOTO (l, v)] is [l v], and the conditional jumps and blocks
    choose on a [Word32] condition.  The [LIKELY] and [UNLIKELY] variants of
    the macros differ in a branch hint only and are not told apart.  The
    values a jump carries are operands of the macro call, so an operation
    written as such an operand is emitted, and runs, in front of the branch:
    it is bound before the jump here too. *)
Definition GOTO_IF {A} (c : Z) (label next : Asm A) : Asm A :=
  fun s => if truth c then label s else next s.
Definition GOTO_IF_NOT {A} (c : Z) (label next : Asm A) : Asm A :=
  fun s => if truth c then next s else label s.
Definition IF {A} (c : Z) (then_ else_ : Asm A) : Asm A :=
  fun s => if truth c then then_ s else else_ s.
Definition IF_NOT {A} (c : Z) (then_ else_ : Asm A) : Asm A :=
  fun s => if truth c then else_ s else then_ s.

(** A guard is a step that may jump away instead of going on to what follows
    it; [when b g] is the guard emitted under the compile-time condition
    [b]. *)
Notation "g ;;; k" := (g k) (at level 61, right associativity, only parsing) : asm_scope.
Definition when {A} (b : bool) (g : Asm A -> Asm A) (next : Asm A) : Asm A :=
  if b then g next else next.

Definition DeoptimizeIf (c frame_state : Z) (reason : DeoptimizeReason.t) (feedback : Z)
  : Asm unit :=
  fun s => if truth c then Deoptimized reason frame_state feedback else Returned tt s.
Definition DeoptimizeIfNot (c frame_state : Z) (reason : DeoptimizeReason.t) (feedback : Z)
  : Asm unit :=
  fun s => if truth c then Returned tt s else Deoptimized reason frame_state feedback.

(** ** The reducer *)

Section MachineLoweringReducer.

Variable T : Target.
Variable L : Layout.
Variable factory_ : Factory.

(** Tagging constants of [include/v8-internal.h]. *)
Definition kHeapObjectTag : Z := 1.
Definition kSmiTag : Z := 0.
Definition kSmiTagSize : Z := 1.
Definition kSmiTagMask : Z := 2 ^ kSmiTagSize - 1.
Definition kSmiShiftSize : Z := if SmiValuesAre32Bits T then 31 else 0.
Definition kSmiValueSize : Z := if SmiValuesAre32Bits T then 32 else 31.
Definition Smi_kMaxValue : Z := 2 ^ (kSmiValueSize - 1) - 1.
Definition SmiValuesAre31Bits : bool := negb (SmiValuesAre32Bits T).
Definition kDoubleSizeLog2 : Z := 3.

Definition WordPtrBits : Z := if Is64 T then 64 else 32.
Definition TaggedBits : Z := 8 * kTaggedSize T.

(** Pointer-width and tagged operations. *)
Definition WordPtrEqual := Equal WordPtrBits.
Definition IntPtrLessThan := IntLessThan WordPtrBits.
Definition UintPtrLessThan := UintLessThan WordPtrBits.
Definition WordPtrAdd := Add WordPtrBits.
Definition WordPtrSub := Sub WordPtrBits.
Definition WordPtrBitwiseAnd := BitwiseAnd WordPtrBits.
Definition WordPtrShiftLeft := ShiftLeft WordPtrBits.
Definition WordPtrShiftRightArithmetic := ShiftRightArithmetic WordPtrBits.
Definition ChangeInt32ToIntPtr (x : Z) : Z := wrap WordPtrBits (signed 32 x).
Definition ChangeUint32ToUintPtr (x : Z) : Z := wrap 32 x.
Definition TaggedEqual := Equal TaggedBits.

Definition SmiTag (x : Z) : Z :=
  wrap TaggedBits (Z.shiftl (signed 32 x) (kSmiShiftSize + kSmiTagSize)).
Definition SmiUntag (x : Z) : Z :=
  wrap 32 (Z.shiftr (signed TaggedBits x) (kSmiShiftSize + kSmiTagSize)).

Definition TruncateFloat64ToInt32OverflowUndefined :=
  TruncateFloat64ToInt 32 (overflow_undefined T 32).
Definition TruncateFloat64ToInt64OverflowUndefined :=
  TruncateFloat64ToInt 64 (overflow_undefined T 64).
Definition ReversibleFloat64ToInt32 := TruncateFloat64ToInt 32 (overflow_undefined T 32).
Definition ReversibleFloat64ToInt64 := TruncateFloat64ToInt 64 (overflow_undefined T 64).
Definition ReversibleFloat64ToUint32 := TruncateFloat64ToUint 32 (overflow_undefined T 32).

(** Memory operations.  The base of a load or store is a tagged pointer
    ([BaseTaggedness::kTaggedBase]); every store of the reducer is made with
    [kNoWriteBarrier] or into a fresh object, and write barriers are left
    out.  A tagged value is read as stored, in [kTaggedSize] bytes. *)
Definition SizeInBytes (rep : MemoryRepresentation) : Z :=
  match rep with
  | kInt8 | kUint8 => 1
  | kInt16 | kUint16 => 2
  | kInt32 | kUint32 => 4
  | kInt64 | kUint64 | kFloat64 => 8
  | kAnyTagged | kTaggedPointer | kTaggedSigned => kTaggedSize T
  end.

Definition SizeInBytesLog2 (rep : MemoryRepresentation) : Z :=
  match rep with
  | kInt8 | kUint8 => 0
  | kInt16 | kUint16 => 1
  | kInt32 | kUint32 => 2
  | kInt64 | kUint64 | kFloat64 => 3
  | kAnyTagged | kTaggedPointer | kTaggedSigned => kTaggedSizeLog2 T
  end.

Definition address (base index offset element_size_log2 : Z) : Z :=
  wrap WordPtrBits
    (base - kHeapObjectTag + offset + signed WordPtrBits index * 2 ^ element_size_log2).

Definition load_value (rep : MemoryRepresentation) (addr : Z) (m : Memory.t) : Z :=
  let raw := Memory.load (V8_TARGET_BIG_ENDIAN T) (SizeInBytes rep) addr m in
  match rep with
  | kInt8 => wrap 32 (signed 8 raw)
  | kInt16 => wrap 32 (signed 16 raw)
  | _ => raw
  end.

Definition store_value (rep : MemoryRepresentation) (addr v : Z) (m : Memory.t) : Memory.t :=
  Memory.store (V8_TARGET_BIG_ENDIAN T) (SizeInBytes rep) addr
    (wrap (8 * SizeInBytes rep) v) m.

Definition Load (base index : Z) (rep : MemoryRepresentation)
    (offset element_size_log2 : Z) : Asm Z :=
  fun s => Returned (load_value rep (address base index offset element_size_log2) (memory s)) s.

Definition Store (base value : Z) (rep : MemoryRepresentation) (offset : Z) : Asm unit :=
  fun s =>
    Returned tt
      {| memory := store_value rep (address base 0 offset 0) value (memory s);
         allocation_top := allocation_top s;
         allocations := allocations s |}.

Definition LoadField (object : Z) (access : FieldAccess) : Asm Z :=
  Load object 0 (machine_type access) (offset access) 0.
Definition StoreField (object : Z) (access : FieldAccess) (value : Z) : Asm unit :=
  Store object value (machine_type access) (offset access).
Definition LoadMapField (object : Z) : Asm Z := LoadField object (ForMap L).
Definition LoadElement (array : Z) (access : ElementAccess) (index : Z) : Asm Z :=
  Load array index (element_type access) (header_size access)
    (SizeInBytesLog2 (element_type access)).
Definition StoreElement (array : Z) (access : ElementAccess) (index value : Z) : Asm unit :=
  fun s =>
    Returned tt
      {| memory := store_value (element_type access)
                     (address array index (header_size access)
                        (SizeInBytesLog2 (element_type access)))
                     value (memory s);
         allocation_top := allocation_top s;
         allocations := allocations s |}.

(** [Allocate] hands out the next [size] bytes at the allocation pointer. *)
Definition Allocate (size : Z) (type : AllocationType) : Asm Z :=
  fun s =>
    Returned (wrap WordPtrBits (allocation_top s + kHeapObjectTag))
      {| memory := memory s;
         allocation_top := allocation_top s + wrap WordPtrBits size;
         allocations := (allocation_top s, wrap WordPtrBits size) :: allocations s |}.

(** The call of [ExternalReference::string_to_array_index_function()], which
    returns an [int32_t]. *)
Definition CallStringToArrayIndex (object : Z) : Asm Z :=
  fun s => Returned (wrap 32 (string_to_array_index_function T (memory s) object)) s.

Definition NeedsHeapObjectCheck (input_assumptions : ObjectIsOp.InputAssumptions.t) : bool :=
  match input_assumptions with
  | ObjectIsOp.InputAssumptions.kNone => true
  | ObjectIsOp.InputAssumptions.kHeapObject
  | ObjectIsOp.InputAssumptions.kBigInt => false
  end.

Definition ReduceChangeOrDeopt (input frame_state : Z) (kind : ChangeOrDeoptOp.Kind)
    (minus_zero_mode : CheckForMinusZeroMode) (feedback : Z) : Asm Z :=
  match kind with
  | ChangeOrDeoptOp.kUint32ToInt32 =>
      DeoptimizeIf (Int32LessThan input 0) frame_state
        DeoptimizeReason.kLostPrecision feedback ;;
      ret input
  | ChangeOrDeoptOp.kInt64ToInt32 =>
      (* Int64 is truncated to Int32 implicitly. *)
      let i32 := wrap 32 input in
      DeoptimizeIfNot (Word64Equal (ChangeInt32ToInt64 i32) input) frame_state
        DeoptimizeReason.kLostPrecision feedback ;;
      ret i32
  | ChangeOrDeoptOp.kUint64ToInt32 =>
      DeoptimizeIfNot (Uint64LessThanOrEqual input kMaxInt) frame_state
        DeoptimizeReason.kLostPrecision feedback ;;
      (* Uint64 is truncated to Int32 implicitly *)
      ret input
  | ChangeOrDeoptOp.kUint64ToInt64 =>
      DeoptimizeIfNot (Uint64LessThanOrEqual input int64_max) frame_state
        DeoptimizeReason.kLostPrecision feedback ;;
      ret input
  | ChangeOrDeoptOp.kFloat64ToInt32 =>
      let i32 := TruncateFloat64ToInt32OverflowUndefined input in
      DeoptimizeIfNot (Float64Equal (ChangeInt32ToFloat64 i32) input) frame_state
        DeoptimizeReason.kLostPrecisionOrNaN feedback ;;
      match minus_zero_mode with
      | kCheckForMinusZero =>
          (* Check if {value} is -0. *)
          IF (Word32Equal i32 0)
            ((* In case of 0, we need to check the high bits for the IEEE -0
                pattern. *)
             let check_negative := Int32LessThan (Float64ExtractHighWord32 input) 0 in
             DeoptimizeIf check_negative frame_state DeoptimizeReason.kMinusZero feedback)
            (ret tt)
      | kDontCheckForMinusZero => ret tt
      end ;;
      ret i32
  | ChangeOrDeoptOp.kFloat64ToInt64 =>
      let i64 := TruncateFloat64ToInt64OverflowUndefined input in
      DeoptimizeIfNot (Float64Equal (ChangeInt64ToFloat64 i64) input) frame_state
        DeoptimizeReason.kLostPrecisionOrNaN feedback ;;
      match minus_zero_mode with
      | kCheckForMinusZero =>
          (* Check if {value} is -0. *)
          IF (Word64Equal i64 0)
            (let check_negative := Int32LessThan (Float64ExtractHighWord32 input) 0 in
             DeoptimizeIf check_negative frame_state DeoptimizeReason.kMinusZero feedback)
            (ret tt)
      | kDontCheckForMinusZero => ret tt
      end ;;
      ret i64
  end.


Definition IsSmi (input : Z) : Z :=
  Word32Equal (Word32BitwiseAnd (wrap 32 input) kSmiTagMask) kSmiTag.

Definition ObjectIsOp_Kind_is_BigInt64 (kind : ObjectIsOp.Kind.t) : bool :=
  match kind with ObjectIsOp.Kind.kBigInt64 => true | _ => false end.

Definition ObjectIsOp_InputAssumptions_is_BigInt
    (input_assumptions : ObjectIsOp.InputAssumptions.t) : bool :=
  match input_assumptions with ObjectIsOp.InputAssumptions.kBigInt => true | _ => false end.

Definition ReduceObjectIs (input : Z) (kind : ObjectIsOp.Kind.t)
    (input_assumptions : ObjectIsOp.InputAssumptions.t) : Asm Z :=
  match kind with
  | ObjectIsOp.Kind.kBigInt | ObjectIsOp.Kind.kBigInt64 =>
      DCHECK (implb (ObjectIsOp_Kind_is_BigInt64 kind) (Is64 T)) ;;
      let done (result : Z) : Asm Z := ret result in
      when (negb (ObjectIsOp_InputAssumptions_is_BigInt input_assumptions))
        (fun next =>
           (* Check for Smi. *)
           when (NeedsHeapObjectCheck input_assumptions)
             (GOTO_IF (IsSmi input) (done 0)) ;;;
           (* Check for BigInt. *)
           map <- LoadMapField input ;;
           let is_bigint_map := TaggedEqual map (bigint_map factory_) in
           GOTO_IF_NOT is_bigint_map (done 0) ;;;
           next) ;;;
      if negb (ObjectIsOp_Kind_is_BigInt64 kind) then done 1
      else
        (* We have to perform check for BigInt64 range. *)
        bitfield <- LoadField input (ForBigIntBitfield L) ;;
        GOTO_IF (Word32Equal bitfield 0) (done 1) ;;;
        (* Length must be 1. *)
        let length_field := Word32BitwiseAnd bitfield (kMask (BigInt_LengthBits L)) in
        GOTO_IF_NOT
          (Word32Equal length_field (Z.shiftl 1 (kShift (BigInt_LengthBits L))))
          (done 0) ;;;
        (* Check if it fits in 64 bit signed int. *)
        lsd <- LoadField input (ForBigIntLeastSignificantDigit64 L) ;;
        let magnitude_check := Uint64LessThanOrEqual lsd int64_max in
        GOTO_IF magnitude_check (done 1) ;;;
        (* The BigInt probably doesn't fit into signed int64. The only
           exception is int64_t::min. We check for this. *)
        let sign := Word32BitwiseAnd bitfield (kMask (BigInt_SignBits L)) in
        let sign_check := Word32Equal sign (kMask (BigInt_SignBits L)) in
        GOTO_IF_NOT sign_check (done 0) ;;;
        let min_check := Word64Equal lsd int64_min in
        GOTO_IF min_check (done 1) ;;;
        done 0
  | ObjectIsOp.Kind.kCallable | ObjectIsOp.Kind.kConstructor
  | ObjectIsOp.Kind.kDetectableCallable | ObjectIsOp.Kind.kNonCallable
  | ObjectIsOp.Kind.kReceiver | ObjectIsOp.Kind.kUndetectable =>
      let done (result : Z) : Asm Z := ret result in
      (* Check for Smi if necessary. *)
      when (NeedsHeapObjectCheck input_assumptions)
        (GOTO_IF (IsSmi input) (done 0)) ;;;
      (* Load bitfield from map. *)
      map <- LoadMapField input ;;
      bitfield <- LoadField map (ForMapBitField L) ;;
      let receiver : Asm Z :=
        instance_type <- LoadField map (ForMapInstanceType L) ;;
        let check := Uint32LessThanOrEqual (FIRST_JS_RECEIVER_TYPE L) instance_type in
        done check in
      match kind with
      | ObjectIsOp.Kind.kCallable =>
          let check :=
            Word32Equal (kMask (Map_Bits1_IsCallableBit L))
              (Word32BitwiseAnd bitfield (kMask (Map_Bits1_IsCallableBit L))) in
          done check
      | ObjectIsOp.Kind.kConstructor =>
          let check :=
            Word32Equal (kMask (Map_Bits1_IsConstructorBit L))
              (Word32BitwiseAnd bitfield (kMask (Map_Bits1_IsConstructorBit L))) in
          done check
      | ObjectIsOp.Kind.kDetectableCallable =>
          let check :=
            Word32Equal (kMask (Map_Bits1_IsCallableBit L))
              (Word32BitwiseAnd bitfield
                 (Z.lor (kMask (Map_Bits1_IsCallableBit L))
                        (kMask (Map_Bits1_IsUndetectableBit L)))) in
          done check
      | ObjectIsOp.Kind.kNonCallable =>
          let check :=
            Word32Equal 0
              (Word32BitwiseAnd bitfield (kMask (Map_Bits1_IsCallableBit L))) in
          GOTO_IF_NOT check (done 0) ;;;
          (* Fallthrough into receiver check. *)
          receiver
      | ObjectIsOp.Kind.kReceiver => receiver
      | ObjectIsOp.Kind.kUndetectable =>
          let check :=
            Word32Equal (kMask (Map_Bits1_IsUndetectableBit L))
              (Word32BitwiseAnd bitfield (kMask (Map_Bits1_IsUndetectableBit L))) in
          done check
      | _ => UNREACHABLE
      end
  | ObjectIsOp.Kind.kSmi =>
      (* If we statically know that this is a heap object, it cannot be a Smi. *)
      if negb (NeedsHeapObjectCheck input_assumptions) then ret 0
      else ret (IsSmi input)
  | ObjectIsOp.Kind.kNumber =>
      let done (result : Z) : Asm Z := ret result in
      (* Check for Smi if necessary. *)
      when (NeedsHeapObjectCheck input_assumptions)
        (GOTO_IF (IsSmi input) (done 1)) ;;;
      map <- LoadMapField input ;;
      done (TaggedEqual map (heap_number_map factory_))
  | ObjectIsOp.Kind.kSymbol | ObjectIsOp.Kind.kString
  | ObjectIsOp.Kind.kArrayBufferView =>
      let done (result : Z) : Asm Z := ret result in
      (* Check for Smi if necessary. *)
      when (NeedsHeapObjectCheck input_assumptions)
        (GOTO_IF (IsSmi input) (done 0)) ;;;
      (* Load instance type from map. *)
      map <- LoadMapField input ;;
      instance_type <- LoadField map (ForMapInstanceType L) ;;
      match kind with
      | ObjectIsOp.Kind.kSymbol =>
          done (Word32Equal instance_type (SYMBOL_TYPE L))
      | ObjectIsOp.Kind.kString =>
          done (Uint32LessThan instance_type (FIRST_NONSTRING_TYPE L))
      | ObjectIsOp.Kind.kArrayBufferView =>
          done (Uint32LessThan
                  (Word32Sub instance_type (FIRST_JS_ARRAY_BUFFER_VIEW_TYPE L))
                  (LAST_JS_ARRAY_BUFFER_VIEW_TYPE L
                   - FIRST_JS_ARRAY_BUFFER_VIEW_TYPE L + 1))
      | _ => UNREACHABLE
      end
  end.

(** [__ ObjectIsSmi(x)] emits [ObjectIs(x, kSmi, kNone)], which this reducer
    lowers in turn. *)
Definition ObjectIsSmi (object : Z) : Asm Z :=
  ReduceObjectIs object ObjectIsOp.Kind.kSmi ObjectIsOp.InputAssumptions.kNone.

(** Sizes of the objects allocated ([BigInt::SizeFor],
    [SeqTwoByteString::SizeFor] with its [OBJECT_POINTER_ALIGN]). *)
Definition BigInt_SizeFor (length : Z) : Z :=
  BigInt_kHeaderSize L + length * BigInt_kDigitSize L.

Definition kObjectAlignmentMask : Z := kObjectAlignment T - 1.
Definition OBJECT_POINTER_ALIGN (value : Z) : Z :=
  Z.land (value + kObjectAlignmentMask) (Z.lnot kObjectAlignmentMask).
Definition kUC16Size : Z := 2.
Definition SeqTwoByteString_SizeFor (length : Z) : Z :=
  OBJECT_POINTER_ALIGN (SeqTwoByteString_kHeaderSize L + length * kUC16Size).

Definition valid (index : option Z) : bool :=
  match index with Some _ => true | None => false end.

(** Pass {bitfield} = {digit} = [None] (OpIndex::Invalid()) to construct the
    canonical 0n BigInt. *)
Definition AllocateBigInt (bitfield digit : option Z) : Asm Z :=
  DCHECK (Is64 T) ;;
  DCHECK (Bool.eqb (valid bitfield) (valid digit)) ;;
  let zero_bitfield :=
    update (BigInt_SignBits L) (encode (BigInt_LengthBits L) 0) 0 in
  let map := bigint_map factory_ in
  bigint <- Allocate (BigInt_SizeFor (if valid digit then 1 else 0)) kYoung ;;
  StoreField bigint (ForMap L) map ;;
  StoreField bigint (ForBigIntBitfield L)
    (match bitfield with Some b => b | None => zero_bitfield end) ;;
  (* BigInts have no padding on 64 bit architectures with pointer compression. *)
  (if BigInt_HasOptionalPadding L
   then StoreField bigint (ForBigIntOptionalPadding L) 0
   else ret tt) ;;
  match digit with
  | Some d => StoreField bigint (ForBigIntLeastSignificantDigit64 L) d
  | None => ret tt
  end ;;
  ret bigint.

Definition SmiTagOrOverflow (input : Z) (overflow : Asm Z) (done : Z -> Asm Z) : Asm Z :=
  DCHECK SmiValuesAre31Bits ;;
  (* Check for overflow at the same time that we are smi tagging.
     Since smi tagging shifts left by one, it's the same as adding value
     twice. *)
  let add := Int32AddCheckOverflow input input in
  let check := Projection add 1 in
  GOTO_IF check overflow ;;;
  done (SmiTag input).

Definition AllocateHeapNumberWithValue (value : Z) : Asm Z :=
  result <- Allocate (HeapNumber_kSize L) kYoung ;;
  StoreField result (ForMap L) (heap_number_map factory_) ;;
  StoreField result (ForHeapNumberValue L) value ;;
  ret result.

Definition InputInterpretation_eqb (a b : ConvertToObjectOp.InputInterpretation.t) : bool :=
  match a, b with
  | ConvertToObjectOp.InputInterpretation.kSigned,
    ConvertToObjectOp.InputInterpretation.kSigned
  | ConvertToObjectOp.InputInterpretation.kUnsigned,
    ConvertToObjectOp.InputInterpretation.kUnsigned
  | ConvertToObjectOp.InputInterpretation.kCharCode,
    ConvertToObjectOp.InputInterpretation.kCharCode
  | ConvertToObjectOp.InputInterpretation.kCodePoint,
    ConvertToObjectOp.InputInterpretation.kCodePoint => true
  | _, _ => false
  end.

Definition ReduceConvertToObject (input : Z) (kind : ConvertToObjectOp.Kind.t)
    (input_rep : RegisterRepresentation)
    (input_interpretation : ConvertToObjectOp.InputInterpretation.t)
    (minus_zero_mode : CheckForMinusZeroMode) : Asm Z :=
  match kind with
  | ConvertToObjectOp.Kind.kBigInt =>
      DCHECK (Is64 T) ;;
      DCHECK (RegisterRepresentation_eqb input_rep Word64) ;;
      let done (result : Z) : Asm Z := ret result in
      (* BigInts with value 0 must be of size 0 (canonical form). *)
      zero <- AllocateBigInt None None ;;
      GOTO_IF (Word64Equal input 0) (done zero) ;;;
      if InputInterpretation_eqb input_interpretation
           ConvertToObjectOp.InputInterpretation.kSigned
      then
        (* Shift sign bit into BigInt's sign bit position. *)
        let bitfield :=
          Word32BitwiseOr (encode (BigInt_LengthBits L) 1)
            (Word64ShiftRightLogical input (63 - kShift (BigInt_SignBits L))) in
        (* We use (value XOR (value >> 63)) - (value >> 63) to compute the
           absolute value, in a branchless fashion. *)
        let sign_mask := Word64ShiftRightArithmetic input 63 in
        let absolute_value := Word64Sub (Word64BitwiseXor input sign_mask) sign_mask in
        bigint <- AllocateBigInt (Some bitfield) (Some absolute_value) ;;
        done bigint
      else
        DCHECK (InputInterpretation_eqb input_interpretation
                  ConvertToObjectOp.InputInterpretation.kUnsigned) ;;
        let bitfield := encode (BigInt_LengthBits L) 1 in
        bigint <- AllocateBigInt (Some bitfield) (Some input) ;;
        done bigint
  | ConvertToObjectOp.Kind.kNumber =>
      match input_rep with
      | Word32 =>
          match input_interpretation with
          | ConvertToObjectOp.InputInterpretation.kSigned =>
              if SmiValuesAre32Bits T then ret (SmiTag input)
              else
                DCHECK SmiValuesAre31Bits ;;
                let done (result : Z) : Asm Z := ret result in
                let overflow : Asm Z :=
                  number <- AllocateHeapNumberWithValue (ChangeInt32ToFloat64 input) ;;
                  done number in
                SmiTagOrOverflow input overflow done
          | ConvertToObjectOp.InputInterpretation.kUnsigned =>
              let done (result : Z) : Asm Z := ret result in
              GOTO_IF (Uint32LessThanOrEqual input Smi_kMaxValue) (done (SmiTag input)) ;;;
              number <- AllocateHeapNumberWithValue (ChangeUint32ToFloat64 input) ;;
              done number
          | ConvertToObjectOp.InputInterpretation.kCharCode
          | ConvertToObjectOp.InputInterpretation.kCodePoint => UNREACHABLE
          end
      | Word64 =>
          match input_interpretation with
          | ConvertToObjectOp.InputInterpretation.kSigned =>
              let done (result : Z) : Asm Z := ret result in
              let outside_smi_range : Asm Z :=
                number <- AllocateHeapNumberWithValue (ChangeInt64ToFloat64 input) ;;
                done number in
              let v32 := wrap 32 input in
              let v64 := ChangeInt32ToInt64 v32 in
              GOTO_IF_NOT (Word64Equal v64 input) outside_smi_range ;;;
              if SmiValuesAre32Bits T then done (SmiTag input)
              else SmiTagOrOverflow v32 outside_smi_range done
          | ConvertToObjectOp.InputInterpretation.kUnsigned =>
              let done (result : Z) : Asm Z := ret result in
              GOTO_IF (Uint64LessThanOrEqual input Smi_kMaxValue) (done (SmiTag input)) ;;;
              number <- AllocateHeapNumberWithValue (ChangeInt64ToFloat64 input) ;;
              done number
          | ConvertToObjectOp.InputInterpretation.kCharCode
          | ConvertToObjectOp.InputInterpretation.kCodePoint => UNREACHABLE
          end
      | _ =>
          DCHECK (RegisterRepresentation_eqb input_rep Float64) ;;
          let done (result : Z) : Asm Z := ret result in
          let outside_smi_range : Asm Z :=
            number <- AllocateHeapNumberWithValue input ;;
            done number in
          let v32 := TruncateFloat64ToInt32OverflowUndefined input in
          GOTO_IF_NOT (Float64Equal input (ChangeInt32ToFloat64 v32)) outside_smi_range ;;;
          when (match minus_zero_mode with kCheckForMinusZero => true | _ => false end)
            (fun next =>
               (* In case of 0, we need to check the high bits for the IEEE -0
                  pattern. *)
               IF (Word32Equal v32 0)
                 (GOTO_IF (Int32LessThan (Float64ExtractHighWord32 input) 0)
                    outside_smi_range ;;;
                  next)
                 next) ;;;
          if SmiValuesAre32Bits T then done (SmiTag v32)
          else SmiTagOrOverflow v32 outside_smi_range done
      end
  | ConvertToObjectOp.Kind.kHeapNumber =>
      DCHECK (RegisterRepresentation_eqb input_rep Float64) ;;
      DCHECK (InputInterpretation_eqb input_interpretation
                ConvertToObjectOp.InputInterpretation.kSigned) ;;
      AllocateHeapNumberWithValue input
  | ConvertToObjectOp.Kind.kSmi =>
      DCHECK (RegisterRepresentation_eqb input_rep Word32) ;;
      DCHECK (InputInterpretation_eqb input_interpretation
                ConvertToObjectOp.InputInterpretation.kSigned) ;;
      ret (SmiTag input)
  | ConvertToObjectOp.Kind.kBoolean =>
      DCHECK (RegisterRepresentation_eqb input_rep Word32) ;;
      DCHECK (InputInterpretation_eqb input_interpretation
                ConvertToObjectOp.InputInterpretation.kSigned) ;;
      let done (result : Z) : Asm Z := ret result in
      IF input (done (true_value factory_)) (done (false_value factory_))
  | ConvertToObjectOp.Kind.kString =>
      let done (result : Z) : Asm Z := ret result in
      let single_code (code : Z) : Asm Z :=
        (* Check if the {code} is a one byte character. *)
        IF (Uint32LessThanOrEqual code (String_kMaxOneByteCharCode L))
          ((* Load the isolate wide single character string table. *)
           let table := single_character_string_table factory_ in
           (* Compute the {table} index for {code}. *)
           let index := ChangeUint32ToUintPtr code in
           (* Load the string for the {code} from the single character string
              table. *)
           entry <- LoadElement table (ForFixedArrayElement L) index ;;
           (* Use the {entry} from the {table}. *)
           done entry)
          ((* Allocate a new SeqTwoBytesString for {code}. *)
           string <- Allocate (SeqTwoByteString_SizeFor 1) kYoung ;;
           (* Set padding to 0. *)
           Store string 0 kTaggedSigned
             (SeqTwoByteString_SizeFor 1 - kObjectAlignment T) ;;
           StoreField string (ForMap L) (string_map factory_) ;;
           StoreField string (ForNameRawHashField L) (Name_kEmptyHashField L) ;;
           StoreField string (ForStringLength L) 1 ;;
           Store string code kUint16 (SeqTwoByteString_kHeaderSize L) ;;
           done string) in
      if InputInterpretation_eqb input_interpretation
           ConvertToObjectOp.InputInterpretation.kCharCode
      then single_code (Word32BitwiseAnd input 0xFFFF)
      else
        DCHECK (InputInterpretation_eqb input_interpretation
                  ConvertToObjectOp.InputInterpretation.kCodePoint) ;;
        (* Check if the input is a single code unit. *)
        GOTO_IF (Uint32LessThanOrEqual input 0xFFFF) (single_code input) ;;;
        (* Generate surrogate pair string. *)
        (* Convert UTF32 to UTF16 code units and store as a 32 bit word. *)
        let lead_offset := 0xD800 - Z.shiftr 0x10000 10 in
        (* lead = (codepoint >> 10) + LEAD_OFFSET *)
        let lead := Word32Add (Word32ShiftRightLogical input 10) lead_offset in
        (* trail = (codepoint & 0x3FF) + 0xDC00 *)
        let trail := Word32Add (Word32BitwiseAnd input 0x3FF) 0xDC00 in
        (* codepoint = (trail << 16) | lead *)
        let code :=
          if V8_TARGET_BIG_ENDIAN T
          then Word32BitwiseOr (Word32ShiftLeft lead 16) trail
          else Word32BitwiseOr (Word32ShiftLeft trail 16) lead in
        (* Allocate a new SeqTwoByteString for {code}. *)
        string <- Allocate (SeqTwoByteString_SizeFor 2) kYoung ;;
        (* Set padding to 0. *)
        Store string 0 kTaggedSigned
          (SeqTwoByteString_SizeFor 2 - kObjectAlignment T) ;;
        StoreField string (ForMap L) (string_map factory_) ;;
        StoreField string (ForNameRawHashField L) (Name_kEmptyHashField L) ;;
        StoreField string (ForStringLength L) 2 ;;
        Store string code kUint32 (SeqTwoByteString_kHeaderSize L) ;;
        done string
  end.

Definition ReduceConvertObjectToPrimitive (object : Z)
    (kind : ConvertObjectToPrimitiveOp.Kind.t)
    (input_assumptions : ConvertObjectToPrimitiveOp.InputAssumptions.t) : Asm Z :=
  match kind with
  | ConvertObjectToPrimitiveOp.Kind.kInt32 =>
      match input_assumptions with
      | ConvertObjectToPrimitiveOp.InputAssumptions.kSmi => ret (SmiUntag object)
      | _ =>
          DCHECK (match input_assumptions with
                  | ConvertObjectToPrimitiveOp.InputAssumptions.kNumberOrOddball => true
                  | _ => false
                  end) ;;
          let done (result : Z) : Asm Z := ret result in
          is_smi <- ObjectIsSmi object ;;
          IF is_smi
            (done (SmiUntag object))
            (value <- LoadField object (ForHeapNumberValue L) ;;
             done (ReversibleFloat64ToInt32 value))
      end
  | ConvertObjectToPrimitiveOp.Kind.kInt64 =>
      match input_assumptions with
      | ConvertObjectToPrimitiveOp.InputAssumptions.kSmi =>
          ret (ChangeInt32ToInt64 (SmiUntag object))
      | _ =>
          DCHECK (match input_assumptions with
                  | ConvertObjectToPrimitiveOp.InputAssumptions.kNumberOrOddball => true
                  | _ => false
                  end) ;;
          let done (result : Z) : Asm Z := ret result in
          is_smi <- ObjectIsSmi object ;;
          IF is_smi
            (done (ChangeInt32ToInt64 (SmiUntag object)))
            (value <- LoadField object (ForHeapNumberValue L) ;;
             done (ReversibleFloat64ToInt64 value))
      end
  | ConvertObjectToPrimitiveOp.Kind.kUint32 =>
      DCHECK (match input_assumptions with
              | ConvertObjectToPrimitiveOp.InputAssumptions.kNumberOrOddball => true
              | _ => false
              end) ;;
      let done (result : Z) : Asm Z := ret result in
      is_smi <- ObjectIsSmi object ;;
      IF is_smi
        (done (SmiUntag object))
        (value <- LoadField object (ForHeapNumberValue L) ;;
         done (ReversibleFloat64ToUint32 value))
  | ConvertObjectToPrimitiveOp.Kind.kBit =>
      DCHECK (match input_assumptions with
              | ConvertObjectToPrimitiveOp.InputAssumptions.kObject => true
              | _ => false
              end) ;;
      ret (TaggedEqual object (true_value factory_))
  end.

Definition ConvertHeapObjectToFloat64OrDeopt (heap_object frame_state : Z)
    (input_kind : ConvertObjectToPrimitiveOrDeoptOp.ObjectKind.t) (feedback : Z) : Asm Z :=
  map <- LoadMapField heap_object ;;
  let check_number := TaggedEqual map (heap_number_map factory_) in
  match input_kind with
  | ConvertObjectToPrimitiveOrDeoptOp.ObjectKind.kSmi
  | ConvertObjectToPrimitiveOrDeoptOp.ObjectKind.kNumberOrString => UNREACHABLE
  | ConvertObjectToPrimitiveOrDeoptOp.ObjectKind.kNumber =>
      DeoptimizeIfNot check_number frame_state DeoptimizeReason.kNotAHeapNumber feedback
  | ConvertObjectToPrimitiveOrDeoptOp.ObjectKind.kNumberOrBoolean =>
      IF_NOT check_number
        (DeoptimizeIfNot (TaggedEqual map (boolean_map factory_)) frame_state
           DeoptimizeReason.kNotANumberOrBoolean feedback)
        (ret tt)
  | ConvertObjectToPrimitiveOrDeoptOp.ObjectKind.kNumberOrOddball =>
      IF_NOT check_number
        ((* For oddballs also contain the numeric value, let us just check that
            we have an oddball here. *)
         instance_type <- LoadField map (ForMapInstanceType L) ;;
         DeoptimizeIfNot (Word32Equal instance_type (ODDBALL_TYPE L)) frame_state
           DeoptimizeReason.kNotANumberOrOddball feedback)
        (ret tt)
  end ;;
  LoadField heap_object (ForHeapNumberValue L).

(** [__ ChangeFloat64ToInt32OrDeopt] and [__ ChangeFloat64ToInt64OrDeopt] emit
    ChangeOrDeopt operations, lowered by [ReduceChangeOrDeopt]. *)
Definition ChangeFloat64ToInt32OrDeopt (input frame_state : Z)
    (minus_zero_mode : CheckForMinusZeroMode) (feedback : Z) : Asm Z :=
  ReduceChangeOrDeopt input frame_state ChangeOrDeoptOp.kFloat64ToInt32
    minus_zero_mode feedback.
Definition ChangeFloat64ToInt64OrDeopt (input frame_state : Z)
    (minus_zero_mode : CheckForMinusZeroMode) (feedback : Z) : Asm Z :=
  ReduceChangeOrDeopt input frame_state ChangeOrDeoptOp.kFloat64ToInt64
    minus_zero_mode feedback.

Definition ObjectKind_is_Number
    (from_kind : ConvertObjectToPrimitiveOrDeoptOp.ObjectKind.t) : bool :=
  match from_kind with
  | ConvertObjectToPrimitiveOrDeoptOp.ObjectKind.kNumber => true
  | _ => false
  end.

Definition ReduceConvertObjectToPrimitiveOrDeopt (object frame_state : Z)
    (from_kind : ConvertObjectToPrimitiveOrDeoptOp.ObjectKind.t)
    (to_kind : ConvertObjectToPrimitiveOrDeoptOp.PrimitiveKind.t)
    (minus_zero_mode : CheckForMinusZeroMode) (feedback : Z) : Asm Z :=
  match to_kind with
  | ConvertObjectToPrimitiveOrDeoptOp.PrimitiveKind.kInt32 =>
      match from_kind with
      | ConvertObjectToPrimitiveOrDeoptOp.ObjectKind.kSmi =>
          is_smi <- ObjectIsSmi object ;;
          DeoptimizeIfNot is_smi frame_state DeoptimizeReason.kNotASmi feedback ;;
          ret (SmiUntag object)
      | _ =>
          DCHECK (ObjectKind_is_Number from_kind) ;;
          let done (result : Z) : Asm Z := ret result in
          is_smi <- ObjectIsSmi object ;;
          IF is_smi
            (done (SmiUntag object))
            (map <- LoadMapField object ;;
             DeoptimizeIfNot (TaggedEqual map (heap_number_map factory_)) frame_state
               DeoptimizeReason.kNotAHeapNumber feedback ;;
             heap_number_value <- LoadField object (ForHeapNumberValue L) ;;
             i32 <- ChangeFloat64ToInt32OrDeopt heap_number_value frame_state
                      minus_zero_mode feedback ;;
             done i32)
      end
  | ConvertObjectToPrimitiveOrDeoptOp.PrimitiveKind.kInt64 =>
      DCHECK (ObjectKind_is_Number from_kind) ;;
      let done (result : Z) : Asm Z := ret result in
      is_smi <- ObjectIsSmi object ;;
      IF is_smi
        (done (ChangeInt32ToInt64 (SmiUntag object)))
        (map <- LoadMapField object ;;
         DeoptimizeIfNot (TaggedEqual map (heap_number_map factory_)) frame_state
           DeoptimizeReason.kNotAHeapNumber feedback ;;
         heap_number_value <- LoadField object (ForHeapNumberValue L) ;;
         i64 <- ChangeFloat64ToInt64OrDeopt heap_number_value frame_state
                  minus_zero_mode feedback ;;
         done i64)
  | ConvertObjectToPrimitiveOrDeoptOp.PrimitiveKind.kFloat64 =>
      let done (result : Z) : Asm Z := ret result in
      (* In the Smi case, just convert to int32 and then float64.
         Otherwise, check heap numberness and load the number. *)
      is_smi <- ObjectIsSmi object ;;
      IF is_smi
        (done (ChangeInt32ToFloat64 (SmiUntag object)))
        (value <- ConvertHeapObjectToFloat64OrDeopt object frame_state from_kind
                    feedback ;;
         done value)
  | ConvertObjectToPrimitiveOrDeoptOp.PrimitiveKind.kArrayIndex =>
      DCHECK (match from_kind with
              | ConvertObjectToPrimitiveOrDeoptOp.ObjectKind.kNumberOrString => true
              | _ => false
              end) ;;
      let done (result : Z) : Asm Z := ret result in
      is_smi <- ObjectIsSmi object ;;
      IF is_smi
        ((* In the Smi case, just convert to intptr_t. *)
         done (ChangeInt32ToIntPtr (SmiUntag object)))
        (map <- LoadMapField object ;;
         IF (TaggedEqual map (heap_number_map factory_))
           (heap_number_value <- LoadField object (ForHeapNumberValue L) ;;
            (* Perform Turbofan's "CheckedFloat64ToIndex" *)
            if Is64 T then
              let i64 := TruncateFloat64ToInt64OverflowUndefined heap_number_value in
              (* The TruncateKind above means there will be a precision loss
                 in case INT64_MAX input is passed, but that precision loss
                 would not be detected and would not lead to a deoptimization
                 from the first check. But in this case, we'll deopt anyway
                 because of the following checks. *)
              DeoptimizeIfNot (Float64Equal (ChangeInt64ToFloat64 i64) heap_number_value)
                frame_state DeoptimizeReason.kLostPrecisionOrNaN feedback ;;
              DeoptimizeIfNot (IntPtrLessThan i64 (kMaxSafeIntegerUint64 L))
                frame_state DeoptimizeReason.kNotAnArrayIndex feedback ;;
              DeoptimizeIfNot (IntPtrLessThan (- kMaxSafeIntegerUint64 L) i64)
                frame_state DeoptimizeReason.kNotAnArrayIndex feedback ;;
              done i64
            else
              let i32 := TruncateFloat64ToInt32OverflowUndefined heap_number_value in
              DeoptimizeIfNot (Float64Equal (ChangeInt32ToFloat64 i32) heap_number_value)
                frame_state DeoptimizeReason.kLostPrecisionOrNaN feedback ;;
              done i32)
           (instance_type <- LoadField map (ForMapInstanceType L) ;;
            DeoptimizeIfNot (Uint32LessThan instance_type (FIRST_NONSTRING_TYPE L))
              frame_state DeoptimizeReason.kNotAString feedback ;;
            (* NOTE: String::ToArrayIndex() currently returns int32_t. *)
            call <- CallStringToArrayIndex object ;;
            let index := ChangeInt32ToIntPtr call in
            DeoptimizeIf (WordPtrEqual index (-1)) frame_state
              DeoptimizeReason.kNotAnArrayIndex feedback ;;
            done index))
  end.

Definition ReduceNewConsString (length first second : Z) : Asm Z :=
  (* Determine the instance types of {first} and {second}. *)
  first_map <- LoadMapField first ;;
  first_type <- LoadField first_map (ForMapInstanceType L) ;;
  second_map <- LoadMapField second ;;
  second_type <- LoadField second_map (ForMapInstanceType L) ;;
  (* Allocate the resulting ConsString. *)
  let allocate_string (map : Z) : Asm Z :=
    string <- Allocate (ConsString_kSize L) kYoung ;;
    StoreField string (ForMap L) map ;;
    StoreField string (ForNameRawHashField L) (Name_kEmptyHashField L) ;;
    StoreField string (ForStringLength L) length ;;
    StoreField string (ForConsStringFirst L) first ;;
    StoreField string (ForConsStringSecond L) second ;;
    ret string in
  (* Determine the proper map for the resulting ConsString.
     If both {first} and {second} are one-byte strings, we
     create a new ConsOneByteString, otherwise we create a
     new ConsString instead. *)
  let instance_type := Word32BitwiseAnd first_type second_type in
  let encoding := Word32BitwiseAnd instance_type (kStringEncodingMask L) in
  IF (Word32Equal encoding (kTwoByteStringTag L))
    (allocate_string (cons_string_map factory_))
    (allocate_string (cons_one_byte_string_map factory_)).

(** A loop counting [index] up to [length] makes progress: the distance to
    [length] shrinks with every turn. *)
Definition remaining (length index : Z) : nat :=
  Z.to_nat (wrap WordPtrBits length - wrap WordPtrBits index).

Lemma WordPtrBits_pos : 0 < WordPtrBits.
Proof. unfold WordPtrBits. destruct (Is64 T); lia. Qed.

Lemma remaining_decreases length index :
  truth (UintPtrLessThan index length) = true ->
  (remaining length (WordPtrAdd index 1) < remaining length index)%nat.
Proof.
  unfold UintPtrLessThan, UintLessThan, WordPtrAdd, Add, remaining.
  rewrite bit_truth. intros H. apply Z.ltb_lt in H.
  pose proof WordPtrBits_pos as Hw.
  pose proof (wrap_range WordPtrBits index ltac:(lia)) as Hi.
  pose proof (wrap_range WordPtrBits length ltac:(lia)) as Hl.
  assert (H1 : 1 < 2 ^ WordPtrBits).
  { apply Z.pow_gt_1; lia. }
  rewrite wrap_wrap by lia.
  rewrite (wrap_small WordPtrBits 1) by lia.
  rewrite (wrap_small WordPtrBits (wrap WordPtrBits index + 1)) by lia.
  lia.
Qed.

(** The loop of [ReduceNewArray], bound at [loop] with the induction variable
    [index]. *)
Equations? ReduceNewArray_loop (length array : Z) (access : ElementAccess)
    (the_hole_value : Z) (done : Z -> Asm Z) (index : Z) : Asm Z
  by wf (remaining length index) lt :=
  ReduceNewArray_loop length array access the_hole_value done index
    with Logic.inspect (truth (UintPtrLessThan index length)) := {
    | exist _ false _ => done array
    | exist _ true _ =>
        StoreElement array access index the_hole_value ;;
        (* Advance the {index}. *)
        ReduceNewArray_loop length array access the_hole_value done (WordPtrAdd index 1) }.
Proof. apply remaining_decreases; assumption. Qed.

Definition ReduceNewArray (length : Z) (kind : NewArrayOp.Kind)
    (allocation_type : AllocationType) : Asm Z :=
  let done (result : Z) : Asm Z := ret result in
  GOTO_IF (WordPtrEqual length 0) (done (empty_fixed_array factory_)) ;;;
  (* Compute the effective size of the backing store. *)
  selected <-
    match kind with
    | NewArrayOp.kDouble =>
        hole <- LoadField (the_hole_value factory_) (ForHeapNumberValue L) ;;
        ret (kDoubleSizeLog2, fixed_double_array_map factory_,
             {| header_size := FixedDoubleArray_kHeaderSize L; element_type := kFloat64 |},
             hole)
    | NewArrayOp.kObject =>
        ret (kTaggedSizeLog2 T, fixed_array_map factory_,
             {| header_size := FixedArray_kHeaderSize L; element_type := kAnyTagged |},
             the_hole_value factory_)
    end ;;
  let '(size_log2, array_map, access, the_hole_value) := selected in
  let size := WordPtrAdd (WordPtrShiftLeft length size_log2) (header_size access) in
  (* Allocate the result and initialize the header. *)
  array <- Allocate size allocation_type ;;
  StoreField array (ForMap L) array_map ;;
  StoreField array (ForFixedArrayLength L) (SmiTag length) ;;
  (* Initialize the backing store with holes. *)
  ReduceNewArray_loop length array access the_hole_value done 0.

(** [__ ConvertFloat64ToNumber] emits ConvertToObject(kNumber, Float64,
    kSigned), lowered by [ReduceConvertToObject]. *)
Definition ConvertFloat64ToNumber (input : Z) (minus_zero_mode : CheckForMinusZeroMode)
  : Asm Z :=
  ReduceConvertToObject input ConvertToObjectOp.Kind.kNumber Float64
    ConvertToObjectOp.InputInterpretation.kSigned minus_zero_mode.

(** The loop of [ReduceDoubleArrayMinMax], bound at [loop] with the induction
    variables [index] and [accumulator]. *)
Equations? ReduceDoubleArrayMinMax_loop (is_max : bool) (elements array_length : Z)
    (done : Z -> Asm Z) (index accumulator : Z) : Asm Z
  by wf (remaining array_length index) lt :=
  ReduceDoubleArrayMinMax_loop is_max elements array_length done index accumulator
    with Logic.inspect (truth (UintPtrLessThan index array_length)) := {
    | exist _ false _ => done accumulator
    | exist _ true _ =>
        element <- LoadElement elements (ForFixedDoubleArrayElement L) index ;;
        let new_accumulator :=
          if is_max then Float64Max accumulator element
          else Float64Min accumulator element in
        ReduceDoubleArrayMinMax_loop is_max elements array_length done
          (WordPtrAdd index 1) new_accumulator }.
Proof. apply remaining_decreases; assumption. Qed.

Definition ReduceDoubleArrayMinMax (array : Z) (kind : DoubleArrayMinMaxOp.Kind) : Asm Z :=
  let is_max := match kind with DoubleArrayMinMaxOp.kMax => true | _ => false end in
  (* Iterate the elements and find the result. *)
  let empty_value := if is_max then Float64Negate V8_INFINITY else V8_INFINITY in
  length <- LoadField array (ForJSArrayLength L) ;;
  let array_length := ChangeInt32ToIntPtr (SmiUntag length) in
  elements <- LoadField array (ForJSObjectElements L) ;;
  let done (result : Z) : Asm Z :=
    ConvertFloat64ToNumber result kCheckForMinusZero in
  ReduceDoubleArrayMinMax_loop is_max elements array_length done 0 empty_value.

Definition ReduceLoadFieldByIndex (object field_index : Z) : Asm Z :=
  (* Index encoding (see `src/objects/field-index-inl.h`):
     For efficiency, the LoadByFieldIndex instruction takes an index that is
     optimized for quick access. If the property is inline, the index is
     positive. If it's out-of-line, the encoded index is -raw_index - 1 to
     disambiguate the zero out-of-line index from the zero inobject case.
     The index itself is shifted up by one bit, the lower-most bit
     signifying if the field is a mutable double box (1) or not (0). *)
  let index := ChangeInt32ToIntPtr field_index in
  let done (result : Z) : Asm Z := ret result in
  let double_field : Asm Z :=
    (* If field is a Double field, either unboxed in the object on 64 bit
       architectures, or a mutable HeapNumber. *)
    let double_index := WordPtrShiftRightArithmetic index 1 in
    let loaded_field (field : Z) : Asm Z :=
      (* We may have transitioned in-place away from double, so check that
         this is a HeapNumber -- otherwise the load is fine and we don't need
         to copy anything anyway. *)
      is_smi <- ObjectIsSmi field ;;
      GOTO_IF is_smi (done field) ;;;
      map <- LoadField field (ForMap L) ;;
      GOTO_IF_NOT (TaggedEqual map (heap_number_map factory_)) (done field) ;;;
      value <- LoadField field (ForHeapNumberValue L) ;;
      number <- AllocateHeapNumberWithValue value ;;
      done number in
    (* Check if field is in-object or out-of-object. *)
    IF (IntPtrLessThan double_index 0)
      (properties <- LoadField object (ForJSObjectPropertiesOrHashKnownPointer L) ;;
       let out_of_object_index := WordPtrSub 0 double_index in
       result <- Load properties out_of_object_index kAnyTagged
                   (FixedArray_kHeaderSize L - kTaggedSize T) (kTaggedSizeLog2 T) ;;
       loaded_field result)
      ((* The field is located in the {object} itself. *)
       result <- Load object double_index kAnyTagged (JSObject_kHeaderSize L)
                   (kTaggedSizeLog2 T) ;;
       loaded_field result) in
  (* Check if field is a mutable double field. *)
  GOTO_IF (WordPtrBitwiseAnd index 0x1) double_field ;;;
  (* The field is a proper Tagged field on {object}. The {index} is
     shifted to the left by one in the code below. *)
  (* Check if field is in-object or out-of-object. *)
  IF (IntPtrLessThan index 0)
    ((* The field is located in the properties backing store of {object}.
        The {index} is equal to the negated out of property index plus 1. *)
     properties <- LoadField object (ForJSObjectPropertiesOrHashKnownPointer L) ;;
     let out_of_object_index := WordPtrSub 0 index in
     result <- Load properties out_of_object_index kAnyTagged
                 (FixedArray_kHeaderSize L - kTaggedSize T) (kTaggedSizeLog2 T - 1) ;;
     done result)
    ((* This field is located in the {object} itself. *)
     result <- Load object index kAnyTagged (JSObject_kHeaderSize L)
                 (kTaggedSizeLog2 T - 1) ;;
     done result).

End MachineLoweringReducer.

(** ** The requests of the pass

    One constructor per handler, with the operands and parameters of the
    operation it lowers. *)
Inductive Request :=
| ChangeOrDeopt (input frame_state : Z) (kind : ChangeOrDeoptOp.Kind)
    (minus_zero_mode : CheckForMinusZeroMode) (feedback : Z)
| ObjectIs (input : Z) (kind : ObjectIsOp.Kind.t)
    (input_assumptions : ObjectIsOp.InputAssumptions.t)
| ConvertToObject (input : Z) (kind : ConvertToObjectOp.Kind.t)
    (input_rep : RegisterRepresentation)
    (input_interpretation : ConvertToObjectOp.InputInterpretation.t)
    (minus_zero_mode : CheckForMinusZeroMode)
| ConvertObjectToPrimitive (object : Z) (kind : ConvertObjectToPrimitiveOp.Kind.t)
    (input_assumptions : ConvertObjectToPrimitiveOp.InputAssumptions.t)
| ConvertObjectToPrimitiveOrDeopt (object frame_state : Z)
    (from_kind : ConvertObjectToPrimitiveOrDeoptOp.ObjectKind.t)
    (to_kind : ConvertObjectToPrimitiveOrDeoptOp.PrimitiveKind.t)
    (minus_zero_mode : CheckForMinusZeroMode) (feedback : Z)
| NewConsString (length first second : Z)
| NewArray (length : Z) (kind : NewArrayOp.Kind) (allocation_type : AllocationType)
| DoubleArrayMinMax (array : Z) (kind : DoubleArrayMinMaxOp.Kind)
| LoadFieldByIndex (object field_index : Z).

(** The subgraph the handler of a request emits, as the code that runs. *)
Definition handler (T : Target) (L : Layout) (factory_ : Factory) (request : Request)
  : Asm Z :=
  match request with
  | ChangeOrDeopt input frame_state kind minus_zero_mode feedback =>
      ReduceChangeOrDeopt T input frame_state kind minus_zero_mode feedback
  | ObjectIs input kind input_assumptions =>
      ReduceObjectIs T L factory_ input kind input_assumptions
  | ConvertToObject input kind input_rep input_interpretation minus_zero_mode =>
      ReduceConvertToObject T L factory_ input kind input_rep input_interpretation
        minus_zero_mode
  | ConvertObjectToPrimitive object kind input_assumptions =>
      ReduceConvertObjectToPrimitive T L factory_ object kind input_assumptions
  | ConvertObjectToPrimitiveOrDeopt object frame_state from_kind to_kind
      minus_zero_mode feedback =>
      ReduceConvertObjectToPrimitiveOrDeopt T L factory_ object frame_state from_kind
        to_kind minus_zero_mode feedback
  | NewConsString length first second =>
      ReduceNewConsString T L factory_ length first second
  | NewArray length kind allocation_type =>
      ReduceNewArray T L factory_ length kind allocation_type
  | DoubleArrayMinMax array kind => ReduceDoubleArrayMinMax T L factory_ array kind
  | LoadFieldByIndex object field_index =>
      ReduceLoadFieldByIndex T L factory_ object field_index
  end.

(** ** Sample configurations

    A 64-bit little-endian target without pointer compression (32-bit Smis),
    with the object layout of such a build, and its big-endian counterpart.
    An overflowing truncation leaves the "integer indefinite" pattern of its
    width (0x80000000 for 32 bits, 0x8000000000000000 for 64), as on x64; the
    string-to-index function of the sample reports failure. *)
Definition x64 : Target := {|
  Is64 := true;
  SmiValuesAre32Bits := true;
  V8_TARGET_BIG_ENDIAN := false;
  kTaggedSize := 8;
  kTaggedSizeLog2 := 3;
  kObjectAlignment := 8;
  overflow_undefined := fun w _ => 2 ^ (w - 1);
  string_to_array_index_function := fun _ _ => -1
|}.

Definition big_endian64 : Target := {|
  Is64 := true;
  SmiValuesAre32Bits := true;
  V8_TARGET_BIG_ENDIAN := true;
  kTaggedSize := 8;
  kTaggedSizeLog2 := 3;
  kObjectAlignment := 8;
  overflow_undefined := fun w _ => 2 ^ (w - 1);
  string_to_array_index_function := fun _ _ => -1
|}.

(** 64-bit with pointer compression: 4-byte tagged values and 31-bit Smis. *)
Definition x64_compressed : Target := {|
  Is64 := true;
  SmiValuesAre32Bits := false;
  V8_TARGET_BIG_ENDIAN := false;
  kTaggedSize := 4;
  kTaggedSizeLog2 := 2;
  kObjectAlignment := 4;
  overflow_undefined := fun w _ => 2 ^ (w - 1);
  string_to_array_index_function := fun _ _ => -1
|}.

Definition layout64 : Layout := {|
  BigInt_SignBits := {| kShift := 0; kSize := 1 |};
  BigInt_LengthBits := {| kShift := 1; kSize := 30 |};
  BigInt_kHeaderSize := 16;
  BigInt_kDigitSize := 8;
  BigInt_HasOptionalPadding := true;
  Map_Bits1_IsCallableBit := {| kShift := 1; kSize := 1 |};
  Map_Bits1_IsConstructorBit := {| kShift := 6; kSize := 1 |};
  Map_Bits1_IsUndetectableBit := {| kShift := 4; kSize := 1 |};
  FIRST_JS_RECEIVER_TYPE := 0x11D;
  FIRST_NONSTRING_TYPE := 0x80;
  SYMBOL_TYPE := 0x80;
  ODDBALL_TYPE := 0x83;
  FIRST_JS_ARRAY_BUFFER_VIEW_TYPE := 0x850;
  LAST_JS_ARRAY_BUFFER_VIEW_TYPE := 0x852;
  kStringEncodingMask := 8;
  kTwoByteStringTag := 0;
  String_kMaxOneByteCharCode := 0xFF;
  Name_kEmptyHashField := 3;
  SeqTwoByteString_kHeaderSize := 16;
  HeapNumber_kSize := 16;
  ConsString_kSize := 32;
  FixedArray_kHeaderSize := 16;
  FixedDoubleArray_kHeaderSize := 16;
  JSObject_kHeaderSize := 24;
  kMaxSafeIntegerUint64 := 9007199254740991;
  ForMap := {| offset := 0; machine_type := kTaggedPointer |};
  ForMapBitField := {| offset := 14; machine_type := kUint8 |};
  ForMapInstanceType := {| offset := 12; machine_type := kUint16 |};
  ForBigIntBitfield := {| offset := 8; machine_type := kUint32 |};
  ForBigIntOptionalPadding := {| offset := 12; machine_type := kUint32 |};
  ForBigIntLeastSignificantDigit64 := {| offset := 16; machine_type := kUint64 |};
  ForHeapNumberValue := {| offset := 8; machine_type := kFloat64 |};
  ForNameRawHashField := {| offset := 8; machine_type := kUint32 |};
  ForStringLength := {| offset := 12; machine_type := kUint32 |};
  ForConsStringFirst := {| offset := 16; machine_type := kAnyTagged |};
  ForConsStringSecond := {| offset := 24; machine_type := kAnyTagged |};
  ForFixedArrayLength := {| offset := 8; machine_type := kTaggedSigned |};
  ForJSArrayLength := {| offset := 24; machine_type := kTaggedSigned |};
  ForJSObjectElements := {| offset := 16; machine_type := kTaggedPointer |};
  ForJSObjectPropertiesOrHashKnownPointer := {| offset := 8; machine_type := kTaggedPointer |};
  ForFixedArrayElement := {| header_size := 16; element_type := kAnyTagged |};
  ForFixedDoubleArrayElement := {| header_size := 16; element_type := kFloat64 |}
|}.

(** The layout under pointer compression: tagged fields take 4 bytes. *)
Definition layout_compressed : Layout := {|
  BigInt_SignBits := {| kShift := 0; kSize := 1 |};
  BigInt_LengthBits := {| kShift := 1; kSize := 30 |};
  BigInt_kHeaderSize := 8;
  BigInt_kDigitSize := 8;
  BigInt_HasOptionalPadding := false;
  Map_Bits1_IsCallableBit := {| kShift := 1; kSize := 1 |};
  Map_Bits1_IsConstructorBit := {| kShift := 6; kSize := 1 |};
  Map_Bits1_IsUndetectableBit := {| kShift := 4; kSize := 1 |};
  FIRST_JS_RECEIVER_TYPE := 0x11D;
  FIRST_NONSTRING_TYPE := 0x80;
  SYMBOL_TYPE := 0x80;
  ODDBALL_TYPE := 0x83;
  FIRST_JS_ARRAY_BUFFER_VIEW_TYPE := 0x850;
  LAST_JS_ARRAY_BUFFER_VIEW_TYPE := 0x852;
  kStringEncodingMask := 8;
  kTwoByteStringTag := 0;
  String_kMaxOneByteCharCode := 0xFF;
  Name_kEmptyHashField := 3;
  SeqTwoByteString_kHeaderSize := 12;
  HeapNumber_kSize := 12;
  ConsString_kSize := 20;
  FixedArray_kHeaderSize := 8;
  FixedDoubleArray_kHeaderSize := 8;
  JSObject_kHeaderSize := 12;
  kMaxSafeIntegerUint64 := 9007199254740991;
  ForMap := {| offset := 0; machine_type := kTaggedPointer |};
  ForMapBitField := {| offset := 10; machine_type := kUint8 |};
  ForMapInstanceType := {| offset := 8; machine_type := kUint16 |};
  ForBigIntBitfield := {| offset := 4; machine_type := kUint32 |};
  ForBigIntOptionalPadding := {| offset := 8; machine_type := kUint32 |};
  ForBigIntLeastSignificantDigit64 := {| offset := 8; machine_type := kUint64 |};
  ForHeapNumberValue := {| offset := 4; machine_type := kFloat64 |};
  ForNameRawHashField := {| offset := 4; machine_type := kUint32 |};
  ForStringLength := {| offset := 8; machine_type := kUint32 |};
  ForConsStringFirst := {| offset := 12; machine_type := kAnyTagged |};
  ForConsStringSecond := {| offset := 16; machine_type := kAnyTagged |};
  ForFixedArrayLength := {| offset := 4; machine_type := kTaggedSigned |};
  ForJSArrayLength := {| offset := 12; machine_type := kTaggedSigned |};
  ForJSObjectElements := {| offset := 8; machine_type := kTaggedPointer |};
  ForJSObjectPropertiesOrHashKnownPointer := {| offset := 4; machine_type := kTaggedPointer |};
  ForFixedArrayElement := {| header_size := 8; element_type := kAnyTagged |};
  ForFixedDoubleArrayElement := {| header_size := 8; element_type := kFloat64 |}
|}.

Definition roots : Factory := {|
  bigint_map := 0x1001;
  heap_number_map := 0x1101;
  boolean_map := 0x1201;
  string_map := 0x1301;
  cons_string_map := 0x1401;
  cons_one_byte_string_map := 0x1501;
  fixed_array_map := 0x1601;
  fixed_double_array_map := 0x1701;
  true_value := 0x2001;
  false_value := 0x2101;
  the_hole_value := 0x2201;
  empty_fixed_array := 0x2301;
  single_character_string_table := 0x3001
|}.

(** A heap of zero bytes with the allocation pointer at [0x100000]. *)
Definition empty_heap : State :=
  {| memory := fun _ => 0; allocation_top := 0x100000; allocations := [] |}.

(** Writing a value into the heap of a state, for building sample heaps. *)
Definition poke (T : Target) (rep : MemoryRepresentation) (addr v : Z) (s : State) : State :=
  {| memory := store_value T rep addr v (memory s);
     allocation_top := allocation_top s;
     allocations := allocations s |}.

(** ** Reading the heap of a state

    The value a [LoadField] or [LoadElement] yields in state [s]. *)
Definition field_value (T : Target) (s : State) (object : Z) (access : FieldAccess) : Z :=
  load_value T (machine_type access) (address T object 0 (offset access) 0) (memory s).

Definition element_value (T : Target) (s : State) (array : Z) (access : ElementAccess)
    (index : Z) : Z :=
  load_value T (element_type access)
    (address T array index (header_size access) (SizeInBytesLog2 T (element_type access)))
    (memory s).

(** [BitField::decode], and the bit fields a 32-bit word can hold. *)
Definition decode (f : BitField) (v : Z) : Z :=
  Z.shiftr (Z.land (wrap 32 v) (kMask f)) (kShift f).

Definition BitField_fits (f : BitField) : bool :=
  (0 <=? kShift f) && (0 <? kSize f) && (kShift f + kSize f <=? 32).

(** The symbolic reasons of the guards this pass emits. *)
Definition deoptimization_vocabulary : list DeoptimizeReason.t :=
  [ DeoptimizeReason.kLostPrecision; DeoptimizeReason.kLostPrecisionOrNaN;
    DeoptimizeReason.kMinusZero; DeoptimizeReason.kNotAHeapNumber;
    DeoptimizeReason.kNotANumberOrBoolean; DeoptimizeReason.kNotANumberOrOddball;
    DeoptimizeReason.kNotAString; DeoptimizeReason.kNotAnArrayIndex;
    DeoptimizeReason.kNotASmi ].

(** ** The contract of a request

    What the assertions of the handlers ([DCHECK], [UNREACHABLE]) demand of
    the compile-time part of a request: its kinds, representation,
    interpretation and assumptions, and the target. *)
Definition contract (T : Target) (request : Request) : bool :=
  match request with
  | ChangeOrDeopt _ _ _ _ _ => true
  | ObjectIs _ kind _ =>
      match kind with ObjectIsOp.Kind.kBigInt64 => Is64 T | _ => true end
  | ConvertToObject _ kind input_rep input_interpretation _ =>
      match kind, input_rep, input_interpretation with
      | ConvertToObjectOp.Kind.kBigInt, Word64,
        (ConvertToObjectOp.InputInterpretation.kSigned
        | ConvertToObjectOp.InputInterpretation.kUnsigned) => Is64 T
      | ConvertToObjectOp.Kind.kNumber, (Word32 | Word64),
        (ConvertToObjectOp.InputInterpretation.kSigned
        | ConvertToObjectOp.InputInterpretation.kUnsigned) => true
      | ConvertToObjectOp.Kind.kNumber, Float64, _ => true
      | ConvertToObjectOp.Kind.kHeapNumber, Float64,
        ConvertToObjectOp.InputInterpretation.kSigned => true
      | (ConvertToObjectOp.Kind.kSmi | ConvertToObjectOp.Kind.kBoolean), Word32,
        ConvertToObjectOp.InputInterpretation.kSigned => true
      | ConvertToObjectOp.Kind.kString, _,
        (ConvertToObjectOp.InputInterpretation.kCharCode
        | ConvertToObjectOp.InputInterpretation.kCodePoint) => true
      | _, _, _ => false
      end
  | ConvertObjectToPrimitive _ kind input_assumptions =>
      match kind, input_assumptions with
      | (ConvertObjectToPrimitiveOp.Kind.kInt32 | ConvertObjectToPrimitiveOp.Kind.kInt64),
        (ConvertObjectToPrimitiveOp.InputAssumptions.kSmi
        | ConvertObjectToPrimitiveOp.InputAssumptions.kNumberOrOddball) => true
      | ConvertObjectToPrimitiveOp.Kind.kUint32,
        ConvertObjectToPrimitiveOp.InputAssumptions.kNumberOrOddball => true
      | ConvertObjectToPrimitiveOp.Kind.kBit,
        ConvertObjectToPrimitiveOp.InputAssumptions.kObject => true
      | _, _ => false
      end
  | ConvertObjectToPrimitiveOrDeopt _ _ from_kind to_kind _ _ =>
      match to_kind, from_kind with
      | ConvertObjectToPrimitiveOrDeoptOp.PrimitiveKind.kInt32,
        (ConvertObjectToPrimitiveOrDeoptOp.ObjectKind.kSmi
        | ConvertObjectToPrimitiveOrDeoptOp.ObjectKind.kNumber) => true
      | ConvertObjectToPrimitiveOrDeoptOp.PrimitiveKind.kInt64,
        ConvertObjectToPrimitiveOrDeoptOp.ObjectKind.kNumber => true
      | ConvertObjectToPrimitiveOrDeoptOp.PrimitiveKind.kFloat64,
        (ConvertObjectToPrimitiveOrDeoptOp.ObjectKind.kNumber
        | ConvertObjectToPrimitiveOrDeoptOp.ObjectKind.kNumberOrBoolean
        | ConvertObjectToPrimitiveOrDeoptOp.ObjectKind.kNumberOrOddball) => true
      | ConvertObjectToPrimitiveOrDeoptOp.PrimitiveKind.kArrayIndex,
        ConvertObjectToPrimitiveOrDeoptOp.ObjectKind.kNumberOrString => true
      | _, _ => false
      end
  | NewConsString _ _ _ | NewArray _ _ _ | DoubleArrayMinMax _ _
  | LoadFieldByIndex _ _ => true
  end.

(** A request with another value for its first operand. *)
Definition with_input (request : Request) (value : Z) : Request :=
  match request with
  | ChangeOrDeopt _ frame_state kind minus_zero_mode feedback =>
      ChangeOrDeopt value frame_state kind minus_zero_mode feedback
  | ObjectIs _ kind input_assumptions => ObjectIs value kind input_assumptions
  | ConvertToObject _ kind input_rep input_interpretation minus_zero_mode =>
      ConvertToObject value kind input_rep input_interpretation minus_zero_mode
  | ConvertObjectToPrimitive _ kind input_assumptions =>
      ConvertObjectToPrimitive value kind input_assumptions
  | ConvertObjectToPrimitiveOrDeopt _ frame_state from_kind to_kind minus_zero_mode
      feedback =>
      ConvertObjectToPrimitiveOrDeopt value frame_state from_kind to_kind
        minus_zero_mode feedback
  | _ => request
  end.

(** Reducing a request.  The assertions of the handler are checked as it
    emits: a request outside the [contract] stops the compilation, whatever
    the run-time data, and nothing is run; for a request within it the emitted
    subgraph runs. *)
Definition Reduce (T : Target) (L : Layout) (factory_ : Factory) (request : Request)
  : Asm Z :=
  if contract T request then handler T L factory_ request else fun _ => Fatal.

(** The frame state and the feedback a request hands to its deoptimization
    exits, for the requests that have them. *)
Definition resumption (request : Request) : option (Z * Z) :=
  match request with
  | ChangeOrDeopt _ frame_state _ _ feedback
  | ConvertObjectToPrimitiveOrDeopt _ frame_state _ _ _ feedback =>
      Some (frame_state, feedback)
  | _ => None
  end.

(** A computation whose only exits besides returning are deoptimizations with
    a reason among [reasons], and, if [allow_fatal], a failed assertion. *)
Definition exits_by_deoptimization {A} (reasons : list DeoptimizeReason.t)
    (allow_fatal : bool) (c : Asm A) : Prop :=
  forall s,
    match c s with
    | Returned _ _ => True
    | Deoptimized reason _ _ => In reason reasons
    | Fatal => allow_fatal = true
    end.

(** ** Runtime-data mismatches

    What the specification calls a runtime-data mismatch: a value of the run
    that violates what the request was compiled to assume, and the reason the
    specification gives the exit.  The definitions of this part are written
    from the policies of the specification (conversions, guarded unboxing,
    array index), not from the handlers; the theorem on the failure channel
    compares the two. *)

(** Float64 to an integer of [w] bits: "lost precision or NaN" unless the
    truncated integer, widened back to float64, equals the input; then, with
    minus-zero checking, "minus zero" when the truncated integer is 0 and the
    sign bit in the high 32 bits of the input is set. *)
Definition float64_mismatch (T : Target) (w : Z) (mode : CheckForMinusZeroMode)
    (input : Z) : option DeoptimizeReason.t :=
  let truncated := TruncateFloat64ToInt w (overflow_undefined T w) input in
  if negb (truth (Float64Equal (Float64.of_Z (signed w truncated)) input))
  then Some DeoptimizeReason.kLostPrecisionOrNaN
  else
    match mode with
    | kCheckForMinusZero =>
        if (truncated =? 0) && Z.testbit (Float64ExtractHighWord32 input) 31
        then Some DeoptimizeReason.kMinusZero
        else None
    | kDontCheckForMinusZero => None
    end.

(** The conversions between fixed-width representations: an unsigned 32-bit
    value of 2^31 or more, a signed 64-bit value that its low 32 bits read as
    signed do not reproduce, and an unsigned 64-bit value above the largest
    signed 32-bit or 64-bit value, have lost precision. *)
Definition conversion_mismatch (T : Target) (kind : ChangeOrDeoptOp.Kind)
    (mode : CheckForMinusZeroMode) (input : Z) : option DeoptimizeReason.t :=
  match kind with
  | ChangeOrDeoptOp.kUint32ToInt32 =>
      if 2 ^ 31 <=? wrap 32 input then Some DeoptimizeReason.kLostPrecision else None
  | ChangeOrDeoptOp.kInt64ToInt32 =>
      if signed 32 input =? signed 64 input then None
      else Some DeoptimizeReason.kLostPrecision
  | ChangeOrDeoptOp.kUint64ToInt32 =>
      if 2 ^ 31 - 1 <? wrap 64 input then Some DeoptimizeReason.kLostPrecision else None
  | ChangeOrDeoptOp.kUint64ToInt64 =>
      if 2 ^ 63 - 1 <? wrap 64 input then Some DeoptimizeReason.kLostPrecision else None
  | ChangeOrDeoptOp.kFloat64ToInt32 => float64_mismatch T 32 mode input
  | ChangeOrDeoptOp.kFloat64ToInt64 => float64_mismatch T 64 mode input
  end.

(** What an object is: a small integer has the tag bit clear; a heap object
    is told by its map and by the instance type in the map. *)
Definition is_small_integer (object : Z) : bool := Z.even object.

Definition has_map (T : Target) (L : Layout) (s : State) (object map : Z) : bool :=
  truth (TaggedEqual T (field_value T s object (ForMap L)) map).

Definition instance_type_of (T : Target) (L : Layout) (s : State) (object : Z) : Z :=
  field_value T s (field_value T s object (ForMap L)) (ForMapInstanceType L).

(** The object is not of the kind the request assumes; the reason is the one
    the vocabulary has for that kind. *)
Definition assumption_mismatch (T : Target) (L : Layout) (factory_ : Factory)
    (s : State) (object : Z)
    (from_kind : ConvertObjectToPrimitiveOrDeoptOp.ObjectKind.t)
  : option DeoptimizeReason.t :=
  let is_heap_number := has_map T L s object (heap_number_map factory_) in
  if is_small_integer object then None
  else
    match from_kind with
    | ConvertObjectToPrimitiveOrDeoptOp.ObjectKind.kSmi =>
        Some DeoptimizeReason.kNotASmi
    | ConvertObjectToPrimitiveOrDeoptOp.ObjectKind.kNumber =>
        if is_heap_number then None else Some DeoptimizeReason.kNotAHeapNumber
    | ConvertObjectToPrimitiveOrDeoptOp.ObjectKind.kNumberOrBoolean =>
        if is_heap_number || has_map T L s object (boolean_map factory_) then None
        else Some DeoptimizeReason.kNotANumberOrBoolean
    | ConvertObjectToPrimitiveOrDeoptOp.ObjectKind.kNumberOrOddball =>
        if is_heap_number
           || truth (Word32Equal (instance_type_of T L s object) (ODDBALL_TYPE L))
        then None
        else Some DeoptimizeReason.kNotANumberOrOddball
    | ConvertObjectToPrimitiveOrDeoptOp.ObjectKind.kNumberOrString =>
        if is_heap_number
           || truth (Uint32LessThan (instance_type_of T L s object)
                       (FIRST_NONSTRING_TYPE L))
        then None
        else Some DeoptimizeReason.kNotAString
    end.

(** An array index from a boxed float64 or a string: the float64 must round
    trip through the pointer-width integer and, where that integer has 64
    bits, lie strictly between minus and plus the maximum safe integer; the
    answer of the string-to-index function must not be -1. *)
Definition array_index_mismatch (T : Target) (L : Layout) (factory_ : Factory)
    (s : State) (object : Z) : option DeoptimizeReason.t :=
  let value := field_value T s object (ForHeapNumberValue L) in
  let w := if Is64 T then 64 else 32 in
  let index := TruncateFloat64ToInt w (overflow_undefined T w) value in
  if has_map T L s object (heap_number_map factory_)
  then
    if negb (truth (Float64Equal (Float64.of_Z (signed w index)) value))
    then Some DeoptimizeReason.kLostPrecisionOrNaN
    else if Is64 T
            && negb ((signed 64 index <? signed 64 (kMaxSafeIntegerUint64 L))
                     && (signed 64 (- kMaxSafeIntegerUint64 L) <? signed 64 index))
    then Some DeoptimizeReason.kNotAnArrayIndex
    else None
  else
    if signed 32 (string_to_array_index_function T (memory s) object) =? -1
    then Some DeoptimizeReason.kNotAnArrayIndex
    else None.

(** The value of an object of the assumed kind does not convert: a small
    integer always does; a boxed float64 as by the conversions above. *)
Definition unboxed_value_mismatch (T : Target) (L : Layout) (factory_ : Factory)
    (s : State) (object : Z)
    (to_kind : ConvertObjectToPrimitiveOrDeoptOp.PrimitiveKind.t)
    (mode : CheckForMinusZeroMode) : option DeoptimizeReason.t :=
  let value := field_value T s object (ForHeapNumberValue L) in
  if is_small_integer object then None
  else
    match to_kind with
    | ConvertObjectToPrimitiveOrDeoptOp.PrimitiveKind.kInt32 =>
        float64_mismatch T 32 mode value
    | ConvertObjectToPrimitiveOrDeoptOp.PrimitiveKind.kInt64 =>
        float64_mismatch T 64 mode value
    | ConvertObjectToPrimitiveOrDeoptOp.PrimitiveKind.kFloat64 => None
    | ConvertObjectToPrimitiveOrDeoptOp.PrimitiveKind.kArrayIndex =>
        array_index_mismatch T L factory_ s object
    end.

Definition unboxing_mismatch (T : Target) (L : Layout) (factory_ : Factory)
    (s : State) (object : Z)
    (from_kind : ConvertObjectToPrimitiveOrDeoptOp.ObjectKind.t)
    (to_kind : ConvertObjectToPrimitiveOrDeoptOp.PrimitiveKind.t)
    (mode : CheckForMinusZeroMode) : option DeoptimizeReason.t :=
  match assumption_mismatch T L factory_ s object from_kind with
  | Some reason => Some reason
  | None => unboxed_value_mismatch T L factory_ s object to_kind mode
  end.

(** The mismatch, if any, between the data of state [s] and a request.  The
    type tests, the boxing and the builders take any data; the unguarded
    unboxing is requested only where the kind of the object is known, and
    tests nothing. *)
Definition runtime_data_mismatch (T : Target) (L : Layout) (factory_ : Factory)
    (request : Request) (s : State) : option DeoptimizeReason.t :=
  match request with
  | ChangeOrDeopt input _ kind minus_zero_mode _ =>
      conversion_mismatch T kind minus_zero_mode input
  | ConvertObjectToPrimitiveOrDeopt object _ from_kind to_kind minus_zero_mode _ =>
      unboxing_mismatch T L factory_ s object from_kind to_kind minus_zero_mode
  | _ => None
  end.

(** A computation that, run in state [s], takes a deoptimization exit only on
    the mismatch [mismatch], with its reason and the frame state and feedback
    given, and returns only without a mismatch, leaving the heap as it was. *)
Definition guards {A} (mismatch : option DeoptimizeReason.t) (frame_state feedback : Z)
    (c : Asm A) (s : State) : Prop :=
  match c s with
  | Returned _ s' => mismatch = None /\ s' = s
  | Deoptimized reason frame_state' feedback' =>
      mismatch = Some reason /\ frame_state' = frame_state /\ feedback' = feedback
  | Fatal => False
  end.

(** The indices [from], [from + 1], ... a counting loop of [n] turns visits. *)
Fixpoint indices (from : Z) (n : nat) : list Z :=
  match n with
  | O => []
  | S n' => from :: indices (from + 1) n'
  end.


(** Sample heaps for the type tests and the array-index conversion: a symbol
    (not callable, not a receiver) at [0x4001]; a string (instance type 8) at
    [0x4001]; a one-digit negative BigInt of magnitude 2^63 at [0x4001]; a
    heap number holding 42.0 at [0x4001]. *)
Definition symbol_heap : State :=
  poke x64 kUint16 0x500C 0x80 (poke x64 kTaggedPointer 0x4000 0x5001 empty_heap).

Definition string_heap : State :=
  poke x64 kUint16 0x500C 8 (poke x64 kTaggedPointer 0x4000 0x5001 empty_heap).

Definition bigint_min_heap : State :=
  poke x64 kUint64 0x4010 (2 ^ 63)
    (poke x64 kUint32 0x4008 3 (poke x64 kTaggedPointer 0x4000 0x1001 empty_heap)).

Definition heap_number_heap : State :=
  poke x64 kFloat64 0x4008 0x4045000000000000
    (poke x64 kTaggedPointer 0x4000 0x1101 empty_heap).

(** A sample heap holding the JSArray [3.0, -1.0, 7.5] at [0x4001], with its
    elements in a FixedDoubleArray at [0x5001]. *)
Definition double_array_heap : State :=
  poke x64 kFloat64 0x5020 0x401E000000000000
    (poke x64 kFloat64 0x5018 0xBFF0000000000000
       (poke x64 kFloat64 0x5010 0x4008000000000000
          (poke x64 kTaggedPointer 0x4010 0x5001
             (poke x64 kTaggedSigned 0x4018 (3 * 2 ^ 32) empty_heap)))).


(** The width of the integer a float64 conversion produces. *)
Definition float64_to_int_width (kind : ChangeOrDeoptOp.Kind) : Z :=
  match kind with ChangeOrDeoptOp.kFloat64ToInt64 => 64 | _ => 32 end.

(** Loads and stores of a value of layout [rep] that is not sign-extended. *)
Definition unsigned_rep (rep : MemoryRepresentation) : bool :=
  match rep with kInt8 | kInt16 => false | _ => true end.

(** ** Layout conditions

    What the theorems on freshly built objects ask of the constants: Smis fit
    the tagged word, and the fields of an object lie side by side within
    it. *)
Definition tagged_rep (rep : MemoryRepresentation) : bool :=
  match rep with kAnyTagged | kTaggedPointer | kTaggedSigned => true | _ => false end.

Definition MemoryRepresentation_eqb (a b : MemoryRepresentation) : bool :=
  match a, b with
  | kInt8, kInt8 | kUint8, kUint8 | kInt16, kInt16 | kUint16, kUint16
  | kInt32, kInt32 | kUint32, kUint32 | kInt64, kInt64 | kUint64, kUint64
  | kFloat64, kFloat64 | kAnyTagged, kAnyTagged | kTaggedPointer, kTaggedPointer
  | kTaggedSigned, kTaggedSigned => true
  | _, _ => false
  end.

Definition Smi_layout (T : Target) : bool :=
  if SmiValuesAre32Bits T then kTaggedSize T =? 8
  else (4 <=? kTaggedSize T) && (kTaggedSize T <=? 8).

Definition HeapNumber_layout (T : Target) (L : Layout) : bool :=
  (0 <=? kTaggedSize T)
  && tagged_rep (machine_type (ForMap L))
  && MemoryRepresentation_eqb (machine_type (ForHeapNumberValue L)) kFloat64
  && (0 <=? offset (ForMap L))
  && (offset (ForMap L) + kTaggedSize T <=? offset (ForHeapNumberValue L))
  && (offset (ForHeapNumberValue L) + 8 <=? HeapNumber_kSize L).

(** The BigInt header: map, bit field, optional padding, then the digits; the
    sign in bit 0 of the bit field and the length from bit 1 on, as in
    [src/objects/bigint.h]. *)
Definition BigInt_layout (T : Target) (L : Layout) : bool :=
  (0 <=? kTaggedSize T)
  && tagged_rep (machine_type (ForMap L))
  && MemoryRepresentation_eqb (machine_type (ForBigIntBitfield L)) kUint32
  && MemoryRepresentation_eqb (machine_type (ForBigIntLeastSignificantDigit64 L)) kUint64
  && (0 <=? offset (ForMap L))
  && (offset (ForMap L) + kTaggedSize T <=? offset (ForBigIntBitfield L))
  && (offset (ForBigIntBitfield L) + 4 <=? offset (ForBigIntOptionalPadding L))
  && (offset (ForBigIntOptionalPadding L)
      + (if BigInt_HasOptionalPadding L
         then SizeInBytes T (machine_type (ForBigIntOptionalPadding L)) else 0)
      <=? BigInt_kHeaderSize L)
  && (BigInt_kHeaderSize L <=? offset (ForBigIntLeastSignificantDigit64 L))
  && (offset (ForBigIntLeastSignificantDigit64 L) + 8
      <=? BigInt_kHeaderSize L + BigInt_kDigitSize L)
  && (kShift (BigInt_SignBits L) =? 0) && (kSize (BigInt_SignBits L) =? 1)
  && (kShift (BigInt_LengthBits L) =? 1)
  && (1 <=? kSize (BigInt_LengthBits L)) && (kSize (BigInt_LengthBits L) <=? 31).


(** A sequential two-byte string of two code units: map, hash and length in
    the header, the code units behind it, and a last word of the object that
    the padding store covers up to the end. *)
Definition SeqTwoByteString_layout (T : Target) (L : Layout) : bool :=
  (0 <=? kTaggedSize T)
  && tagged_rep (machine_type (ForMap L))
  && MemoryRepresentation_eqb (machine_type (ForNameRawHashField L)) kUint32
  && MemoryRepresentation_eqb (machine_type (ForStringLength L)) kUint32
  && (0 <=? offset (ForMap L))
  && (offset (ForMap L) + kTaggedSize T <=? offset (ForNameRawHashField L))
  && (offset (ForNameRawHashField L) + 4 <=? offset (ForStringLength L))
  && (offset (ForStringLength L) + 4 <=? SeqTwoByteString_kHeaderSize L)
  && (SeqTwoByteString_kHeaderSize L + 4 <=? SeqTwoByteString_SizeFor T L 2)
  && (SeqTwoByteString_SizeFor T L 2 - kObjectAlignment T
      <=? SeqTwoByteString_kHeaderSize L + 4)
  && (0 <=? SeqTwoByteString_SizeFor T L 2 - kObjectAlignment T)
  && (kObjectAlignment T <=? kTaggedSize T).

(** Decoding a surrogate pair: the formula of the specification, and the
    inverse of the encoding of [ReduceConvertToObject]. *)
Definition specified_decode (low high : Z) : Z :=
  Z.lor (high - 0xDC00) (Z.shiftl (low - (0xD800 - Z.shiftr 0x10000 10)) 10) + 0x10000.

Definition surrogate_decode (low high : Z) : Z :=
  Z.lor (high - 0xDC00) (Z.shiftl (low - (0xD800 - Z.shiftr 0x10000 10)) 10).


(** Room for [size] more bytes at the allocation pointer. *)
Definition heap_has_room (T : Target) (s : State) (size : Z) : Prop :=
  0 <= allocation_top s /\ allocation_top s + size < 2 ^ WordPtrBits T.

(** * Properties *)

(** ** Words and floats *)

Example of_bits_7_5 :
  Float64.of_bits 0x401E000000000000 = S754_finite false 8444249301319680 (-50).
Proof. reflexivity. Qed.

Example of_Z_3000000000 : Float64.of_Z 3000000000 = 0x41E65A0BC0000000.
Proof. reflexivity. Qed.

Example of_Z_rounds_to_even : Float64.of_Z (2 ^ 53 + 1) = Float64.of_Z (2 ^ 53).
Proof. reflexivity. Qed.

Example truncate_minus_half :
  Float64.truncate (Float64.of_bits 0xBFE0000000000000) = Some 0.
Proof. reflexivity. Qed.

(** On the sample target an overflowing truncation, and that of a NaN, leave
    the pattern of the width truncated to. *)
Example truncation_overflow_x64 :
  TruncateFloat64ToInt32OverflowUndefined x64 (Float64.of_Z (2 ^ 31)) = 0x80000000
  /\ TruncateFloat64ToInt32OverflowUndefined x64 0x7FF8000000000000 = 0x80000000
  /\ TruncateFloat64ToInt64OverflowUndefined x64 (Float64.of_Z (2 ^ 63))
     = 0x8000000000000000.
Proof. repeat split; reflexivity. Qed.

(** The sample configurations meet the layout conditions. *)
Example sample_layouts :
  Forall (fun sample : Target * Layout =>
            let (T, L) := sample in
            Smi_layout T && HeapNumber_layout T L && BigInt_layout T L
            && SeqTwoByteString_layout T L = true)
    [(x64, layout64); (big_endian64, layout64); (x64_compressed, layout_compressed)].
Proof. repeat constructor. Qed.

Lemma truth_bit_true b : truth (bit b) = true <-> b = true.
Proof. rewrite bit_truth. tauto. Qed.

Lemma Equal_truth w a b : truth (Equal w a b) = (wrap w a =? wrap w b).
Proof. unfold Equal. apply bit_truth. Qed.

Lemma IntLessThan_truth w a b : truth (IntLessThan w a b) = (signed w a <? signed w b).
Proof. unfold IntLessThan. apply bit_truth. Qed.

Lemma UintLessThan_truth w a b : truth (UintLessThan w a b) = (wrap w a <? wrap w b).
Proof. unfold UintLessThan. apply bit_truth. Qed.

Lemma UintLessThanOrEqual_truth w a b :
  truth (UintLessThanOrEqual w a b) = (wrap w a <=? wrap w b).
Proof. unfold UintLessThanOrEqual. apply bit_truth. Qed.

Lemma signed_small w x : 0 < w -> 0 <= x < 2 ^ (w - 1) -> signed w x = x.
Proof.
  intros Hw Hx. unfold signed.
  assert (H2 : 2 ^ w = 2 * 2 ^ (w - 1)).
  { replace w with (Z.succ (w - 1)) at 1 by lia. apply Z.pow_succ_r. lia. }
  rewrite wrap_small by lia.
  destruct (x <? 2 ^ (w - 1)) eqn:E; [reflexivity | apply Z.ltb_ge in E; lia].
Qed.

Lemma signed_negative w x :
  0 < w -> 0 <= x < 2 ^ w -> (signed w x < 0 <-> 2 ^ (w - 1) <= x).
Proof.
  intros Hw Hx. unfold signed. rewrite wrap_small by lia.
  destruct (x <? 2 ^ (w - 1)) eqn:E.
  - apply Z.ltb_lt in E. lia.
  - apply Z.ltb_ge in E. lia.
Qed.

Lemma TruncateFloat64ToInt_range w undefined x :
  0 <= w -> 0 <= TruncateFloat64ToInt w undefined x < 2 ^ w.
Proof.
  intros Hw. unfold TruncateFloat64ToInt.
  destruct (Float64.truncate (Float64.of_bits x)) as [v|];
    [destruct (_ && _)|]; apply wrap_range; exact Hw.
Qed.

Lemma Float64ExtractHighWord32_range x : 0 <= Float64ExtractHighWord32 x < 2 ^ 32.
Proof.
  unfold Float64ExtractHighWord32.
  pose proof (wrap_range 64 x ltac:(lia)) as H.
  change (2 ^ 64) with (2 ^ 32 * 2 ^ 32) in H.
  split.
  - apply Z.div_pos; lia.
  - apply Z.div_lt_upper_bound; lia.
Qed.

(** The high word is negative as an [int32] exactly when bit 63 of the
    pattern, the sign of the float, is set. *)
Lemma high_word_negative x :
  truth (Int32LessThan (Float64ExtractHighWord32 x) 0) = true <->
  Z.testbit (Float64ExtractHighWord32 x) 31 = true.
Proof.
  unfold Int32LessThan. rewrite IntLessThan_truth.
  pose proof (Float64ExtractHighWord32_range x) as H.
  set (h := Float64ExtractHighWord32 x) in *.
  rewrite Z.ltb_lt. change (signed 32 0) with 0.
  rewrite (signed_negative 32 h) by lia.
  rewrite Z.testbit_true by lia.
  change (2 ^ (32 - 1)) with 2147483648. change (2 ^ 31) with 2147483648.
  change (2 ^ 32) with 4294967296 in H.
  split; intros H1.
  - assert (h / 2147483648 = 1) as ->
      by (symmetry; apply Z.div_unique with (h - 2147483648); lia).
    reflexivity.
  - destruct (Z_lt_le_dec h 2147483648) as [Hlt|]; [|assumption].
    rewrite Z.div_small in H1 by lia. discriminate.
Qed.

Lemma of_bits_wrap x : Float64.of_bits (wrap 64 x) = Float64.of_bits x.
Proof. unfold Float64.of_bits. rewrite wrap_wrap by lia. reflexivity. Qed.

(** Only the two zeros compare equal to [+0.0], and of the two only [-0.0]
    has bit 63 set. *)
Lemma equal_zero_negative x :
  SFeqb (Float64.of_bits Float64.plus_zero) (Float64.of_bits x) = true ->
  2 ^ 63 <= wrap 64 x ->
  wrap 64 x = Float64.minus_zero.
Proof.
  unfold Float64.of_bits, Float64.minus_zero.
  pose proof (wrap_range 64 x ltac:(lia)) as Hb.
  set (b := wrap 64 x) in *.
  change (wrap 64 Float64.plus_zero) with 0. cbn [Z.leb Z.div Z.modulo].
  change (2 ^ 64) with 18446744073709551616 in Hb.
  change (2 ^ 63) with 9223372036854775808.
  change (2 ^ 52) with 4503599627370496.
  change (2 ^ 11) with 2048.
  intros H Hs.
  destruct ((b / 4503599627370496) mod 2048 =? 0) eqn:He.
  - destruct (b mod 4503599627370496 =? 0) eqn:Hm.
    + apply Z.eqb_eq in He, Hm.
      clear H. revert He Hm.
      Z.div_mod_to_equations. lia.
    + destruct (9223372036854775808 <=? b); discriminate H.
  - destruct ((b / 4503599627370496) mod 2048 =? 2047);
      [destruct (b mod 4503599627370496 =? 0)|];
      destruct (9223372036854775808 <=? b); discriminate H.
Qed.

(** ** Float64 to integer conversions and minus zero *)

Lemma ReduceChangeOrDeopt_float64 T input frame_state kind mode feedback s :
  In kind [ChangeOrDeoptOp.kFloat64ToInt32; ChangeOrDeoptOp.kFloat64ToInt64] ->
  let w := float64_to_int_width kind in
  let truncated := TruncateFloat64ToInt w (overflow_undefined T w) input in
  ReduceChangeOrDeopt T input frame_state kind mode feedback s =
  if negb (truth (Float64Equal (Float64.of_Z (signed w truncated)) input))
  then Deoptimized DeoptimizeReason.kLostPrecisionOrNaN frame_state feedback
  else
    match mode with
    | kCheckForMinusZero =>
        if (truncated =? 0) && Z.testbit (Float64ExtractHighWord32 input) 31
        then Deoptimized DeoptimizeReason.kMinusZero frame_state feedback
        else Returned truncated s
    | kDontCheckForMinusZero => Returned truncated s
    end.
Proof.
  intros Hk w truncated.
  assert (Hw : w = 32 \/ w = 64) by (destruct Hk as [<-|[<-|[]]]; cbn; auto).
  assert (Hr : 0 <= truncated < 2 ^ w)
    by (apply TruncateFloat64ToInt_range; lia).
  assert (Hz : (wrap w truncated =? wrap w 0) = (truncated =? 0)).
  { rewrite wrap_small by lia. destruct Hw as [-> | ->]; reflexivity. }
  pose proof (high_word_negative input) as Hh.
  destruct (Z.testbit (Float64ExtractHighWord32 input) 31);
    destruct (truth (Int32LessThan (Float64ExtractHighWord32 input) 0)) eqn:Hneg;
    try (destruct Hh as [Hh1 Hh2]; (discriminate (Hh1 eq_refl) || discriminate (Hh2 eq_refl)));
    destruct Hk as [<-|[<-|[]]]; subst w truncated; cbn [float64_to_int_width] in *;
    unfold ReduceChangeOrDeopt, bind, ret, DeoptimizeIfNot, DeoptimizeIf, IF,
      TruncateFloat64ToInt32OverflowUndefined, TruncateFloat64ToInt64OverflowUndefined,
      ChangeInt32ToFloat64, ChangeInt64ToFloat64, Word32Equal, Word64Equal;
    rewrite ?Equal_truth, ?Hz;
    destruct (truth (Float64Equal _ input)); cbn [negb];
    destruct mode; try reflexivity;
    destruct (_ =? 0); cbn [andb]; rewrite ?Hneg; reflexivity.
Qed.

Lemma sign_bit_high_word x :
  Z.testbit (Float64ExtractHighWord32 x) 31 = true <-> 2 ^ 63 <= wrap 64 x.
Proof.
  rewrite <- high_word_negative.
  unfold Int32LessThan. rewrite IntLessThan_truth, Z.ltb_lt.
  pose proof (Float64ExtractHighWord32_range x) as Hh.
  change (signed 32 0) with 0.
  rewrite (signed_negative 32) by lia.
  unfold Float64ExtractHighWord32 in *.
  pose proof (wrap_range 64 x ltac:(lia)) as Hb.
  change (2 ^ (32 - 1)) with 2147483648.
  change (2 ^ 63) with 9223372036854775808.
  change (2 ^ 32) with 4294967296 in *.
  Z.div_mod_to_equations. lia.
Qed.

Lemma float64_of_minus_zero_pattern w undefined x :
  w = 32 \/ w = 64 ->
  wrap 64 x = Float64.minus_zero ->
  TruncateFloat64ToInt w undefined x = 0
  /\ truth (Float64Equal (Float64.of_Z (signed w 0)) x) = true
  /\ Z.testbit (Float64ExtractHighWord32 x) 31 = true.
Proof.
  intros Hw Hx. unfold TruncateFloat64ToInt, Float64Equal, Float64ExtractHighWord32.
  rewrite <- (of_bits_wrap x), Hx.
  destruct Hw as [-> | ->]; repeat split; reflexivity.
Qed.

(** C2 (as amended).  For the float64-to-int32 and float64-to-int64
    conversions: with minus-zero checking enabled the input -0.0 deoptimizes
    with reason "minus zero"; the input +0.0 is converted to 0 without
    deoptimizing under either mode; and the minus-zero deoptimization fires
    exactly when checking is enabled, the lost-precision guard in front of it
    has passed (the truncated result widened back equals the input), the
    truncated result is 0 and the sign bit of the high word of the input is
    set -- that is, exactly for the input -0.0. *)
Theorem minus_zero_deopt_iff_guard_passed_and_negative_zero
    (T : Target) (kind : ChangeOrDeoptOp.Kind) (frame_state feedback : Z) (s : State) :
  In kind [ChangeOrDeoptOp.kFloat64ToInt32; ChangeOrDeoptOp.kFloat64ToInt64] ->
  let w := float64_to_int_width kind in
  let truncated x := TruncateFloat64ToInt w (overflow_undefined T w) x in
  let minus_zero_exit := Deoptimized DeoptimizeReason.kMinusZero frame_state feedback in
  ReduceChangeOrDeopt T Float64.minus_zero frame_state kind kCheckForMinusZero feedback s
    = minus_zero_exit
  /\ (forall mode,
        ReduceChangeOrDeopt T Float64.plus_zero frame_state kind mode feedback s
        = Returned 0 s)
  /\ (forall input mode,
        ReduceChangeOrDeopt T input frame_state kind mode feedback s = minus_zero_exit
        <-> mode = kCheckForMinusZero
            /\ truth (Float64Equal (Float64.of_Z (signed w (truncated input))) input) = true
            /\ truncated input = 0
            /\ Z.testbit (Float64ExtractHighWord32 input) 31 = true)
  /\ (forall input mode,
        ReduceChangeOrDeopt T input frame_state kind mode feedback s = minus_zero_exit
        <-> mode = kCheckForMinusZero /\ wrap 64 input = Float64.minus_zero).
Proof.
  intros Hk w truncated minus_zero_exit.
  assert (Hw : w = 32 \/ w = 64) by (destruct Hk as [<-|[<-|[]]]; cbn; auto).
  assert (Hguard : forall input mode,
             ReduceChangeOrDeopt T input frame_state kind mode feedback s = minus_zero_exit
             <-> mode = kCheckForMinusZero
                 /\ truth (Float64Equal (Float64.of_Z (signed w (truncated input))) input)
                    = true
                 /\ truncated input = 0
                 /\ Z.testbit (Float64ExtractHighWord32 input) 31 = true).
  { intros input mode. rewrite (ReduceChangeOrDeopt_float64 T input) by exact Hk.
    fold w. fold (truncated input). subst minus_zero_exit.
    destruct (truth (Float64Equal _ input)); cbn [negb].
    - destruct mode.
      + destruct (truncated input =? 0) eqn:Hz;
          destruct (Z.testbit (Float64ExtractHighWord32 input) 31) eqn:Hs; cbn [andb].
        * apply Z.eqb_eq in Hz. tauto.
        * split; [discriminate | intros (_ & _ & _ & H); discriminate H].
        * apply Z.eqb_neq in Hz. split; [discriminate | tauto].
        * apply Z.eqb_neq in Hz. split; [discriminate | tauto].
      + split; [discriminate | intros (H & _); discriminate H].
    - split; [discriminate | intros (_ & H & _); discriminate H]. }
  assert (Hzero : forall input mode,
             ReduceChangeOrDeopt T input frame_state kind mode feedback s = minus_zero_exit
             <-> mode = kCheckForMinusZero /\ wrap 64 input = Float64.minus_zero).
  { intros input mode. rewrite Hguard. split.
    - intros (Hm & Heq & Ht & Hs). split; [exact Hm|].
      apply equal_zero_negative.
      + rewrite Ht in Heq. unfold Float64Equal in Heq. rewrite bit_truth in Heq.
        destruct Hw as [Hw | Hw]; rewrite Hw in Heq; exact Heq.
      + apply sign_bit_high_word, Hs.
    - intros (Hm & Hx). split; [exact Hm|].
      destruct (float64_of_minus_zero_pattern w (overflow_undefined T w) input Hw Hx)
        as (Ht & Heq & Hs).
      fold (truncated input) in Ht. rewrite Ht. auto. }
  split; [| split; [| split; [exact Hguard | exact Hzero]]].
  - apply Hzero. split; reflexivity.
  - intros mode. rewrite (ReduceChangeOrDeopt_float64 T Float64.plus_zero) by exact Hk.
    destruct Hk as [<-|[<-|[]]]; destruct mode; reflexivity.
Qed.

Lemma minus_zero_deopt_iff_guard_passed_and_negative_zero_witness :
  ReduceChangeOrDeopt x64 Float64.minus_zero 7 ChangeOrDeoptOp.kFloat64ToInt32
    kCheckForMinusZero 9 empty_heap
  = Deoptimized DeoptimizeReason.kMinusZero 7 9.
Proof.
  exact (proj1 (minus_zero_deopt_iff_guard_passed_and_negative_zero x64
                  ChangeOrDeoptOp.kFloat64ToInt32 7 9 empty_heap
                  (or_introl eq_refl))).
Defined.

(** C2, counterexample to the claim as stated.  For the input -0.5 with
    minus-zero checking enabled, the truncated result is 0 and the sign bit of
    the high word is set, yet the exit taken is the "lost precision or NaN"
    one of the first guard, not "minus zero". *)
Lemma minus_zero_deopt_not_for_minus_half :
  TruncateFloat64ToInt32OverflowUndefined x64 0xBFE0000000000000 = 0
  /\ Z.testbit (Float64ExtractHighWord32 0xBFE0000000000000) 31 = true
  /\ ReduceChangeOrDeopt x64 0xBFE0000000000000 7 ChangeOrDeoptOp.kFloat64ToInt32
       kCheckForMinusZero 9 empty_heap
     = Deoptimized DeoptimizeReason.kLostPrecisionOrNaN 7 9
  /\ ReduceChangeOrDeopt x64 0xBFE0000000000000 7 ChangeOrDeoptOp.kFloat64ToInt32
       kCheckForMinusZero 9 empty_heap
     <> Deoptimized DeoptimizeReason.kMinusZero 7 9.
Proof.
  repeat split; try reflexivity.
  vm_compute. discriminate.
Qed.

(** ** Running the memory operations *)

Lemma LoadField_run T s object access :
  LoadField T object access s = Returned (field_value T s object access) s.
Proof. reflexivity. Qed.

Lemma LoadMapField_run T L s object :
  LoadMapField T L object s = Returned (field_value T s object (ForMap L)) s.
Proof. reflexivity. Qed.

Lemma LoadElement_run T s array access index :
  LoadElement T array access index s = Returned (element_value T s array access index) s.
Proof. reflexivity. Qed.

Lemma land_low_16 x : Word32BitwiseAnd x 0xFFFF = x mod 2 ^ 16.
Proof.
  unfold Word32BitwiseAnd, BitwiseAnd, wrap.
  change (65535 mod 2 ^ 32) with (Z.ones 16).
  rewrite Z.land_ones by lia.
  change (2 ^ 32) with (2 ^ 16 * 2 ^ 16).
  rewrite Z.rem_mul_r by lia.
  rewrite (Z.mul_comm (2 ^ 16) ((x / 2 ^ 16) mod 2 ^ 16)), Z.mod_add by lia.
  apply Z.mod_mod. lia.
Qed.

(** ** Strings from char codes *)

(** C10.  Under the char-code interpretation string boxing depends only on
    the low 16 bits of the input word: inputs congruent modulo 2^16 are
    lowered to the same result in every state, and an input whose low 16 bits
    are at most the maximum one-byte char code yields the entry of the
    single-character string table at that index, leaving the heap and the
    allocation log untouched. *)
Theorem char_code_string_depends_on_low_16_bits
    (T : Target) (L : Layout) (factory_ : Factory)
    (input_rep : RegisterRepresentation) (mode : CheckForMinusZeroMode) (s : State) :
  let box input :=
    ReduceConvertToObject T L factory_ input ConvertToObjectOp.Kind.kString input_rep
      ConvertToObjectOp.InputInterpretation.kCharCode mode s in
  (forall a b, a mod 2 ^ 16 = b mod 2 ^ 16 -> box a = box b)
  /\ (forall input,
        input mod 2 ^ 16 <= wrap 32 (String_kMaxOneByteCharCode L) ->
        box input =
        Returned
          (element_value T s (single_character_string_table factory_)
             (ForFixedArrayElement L) (input mod 2 ^ 16))
          s).
Proof.
  intros box. subst box. cbv beta.
  unfold ReduceConvertToObject. cbn [InputInterpretation_eqb].
  split.
  - intros a b Hab. rewrite !land_low_16, Hab. reflexivity.
  - intros input Hle. rewrite land_low_16.
    assert (Hr : 0 <= input mod 2 ^ 16 < 2 ^ 16) by (apply Z.mod_pos_bound; lia).
    unfold IF, Uint32LessThanOrEqual. rewrite UintLessThanOrEqual_truth.
    rewrite (wrap_small 32 (input mod 2 ^ 16))
      by (change (2 ^ 32) with (2 ^ 16 * 2 ^ 16); lia).
    apply Z.leb_le in Hle. rewrite Hle.
    unfold bind, ret, ChangeUint32ToUintPtr.
    rewrite LoadElement_run.
    rewrite (wrap_small 32 (input mod 2 ^ 16))
      by (change (2 ^ 32) with (2 ^ 16 * 2 ^ 16); lia).
    reflexivity.
Qed.

Lemma char_code_string_depends_on_low_16_bits_witness :
  0x10041 mod 2 ^ 16 = 0x41 mod 2 ^ 16
  /\ ReduceConvertToObject x64 layout64 roots 0x10041 ConvertToObjectOp.Kind.kString
       Word32 ConvertToObjectOp.InputInterpretation.kCharCode kDontCheckForMinusZero
       empty_heap
     = ReduceConvertToObject x64 layout64 roots 0x41 ConvertToObjectOp.Kind.kString
         Word32 ConvertToObjectOp.InputInterpretation.kCharCode kDontCheckForMinusZero
         empty_heap.
Proof.
  split; [reflexivity|].
  apply (proj1 (char_code_string_depends_on_low_16_bits x64 layout64 roots Word32
                  kDontCheckForMinusZero empty_heap)).
  reflexivity.
Defined.

(** ** Type tests on heap objects *)

Lemma kMask_single_bit f : kSize f = 1 -> 0 <= kShift f -> kMask f = 2 ^ kShift f.
Proof.
  intros Hs Hk. unfold kMask. rewrite Hs. change (2 ^ 1 - 1) with 1.
  rewrite Z.shiftl_1_l. reflexivity.
Qed.

Lemma land_pow2 x n :
  0 <= n -> Z.land x (2 ^ n) = if Z.testbit x n then 2 ^ n else 0.
Proof.
  intros Hn. apply Z.bits_inj'. intros k Hk.
  rewrite Z.land_spec, Z.pow2_bits_eqb by lia.
  destruct (Z.eqb_spec n k) as [->|Hne].
  - destruct (Z.testbit x k) eqn:E.
    + rewrite Z.pow2_bits_true by lia. reflexivity.
    + rewrite Z.bits_0. reflexivity.
  - rewrite andb_false_r.
    destruct (Z.testbit x n).
    + rewrite Z.pow2_bits_false by lia. reflexivity.
    + rewrite Z.bits_0. reflexivity.
Qed.

Lemma testbit_wrap w x n : 0 <= n < w -> Z.testbit (wrap w x) n = Z.testbit x n.
Proof. intros H. unfold wrap. apply Z.mod_pow2_bits_low. lia. Qed.

(** Masking a word with a one-bit field leaves the mask or zero, according
    to the bit. *)
Lemma single_bit_test f bitfield :
  kSize f = 1 -> 0 <= kShift f < 32 ->
  truth (Word32Equal (kMask f) (Word32BitwiseAnd bitfield (kMask f)))
    = Z.testbit bitfield (kShift f)
  /\ truth (Word32Equal 0 (Word32BitwiseAnd bitfield (kMask f)))
     = negb (Z.testbit bitfield (kShift f)).
Proof.
  intros Hs Hk. unfold Word32Equal, Word32BitwiseAnd, BitwiseAnd.
  rewrite !Equal_truth, (kMask_single_bit f Hs) by lia.
  assert (Hp : 0 < 2 ^ kShift f < 2 ^ 32).
  { split; [apply Z.pow_pos_nonneg; lia | apply Z.pow_lt_mono_r; lia]. }
  rewrite (wrap_small 32 (2 ^ kShift f)) by lia.
  rewrite land_pow2 by lia. rewrite testbit_wrap by lia.
  change (wrap 32 0) with 0.
  destruct (Z.testbit bitfield (kShift f)).
  - rewrite (wrap_small 32 (2 ^ kShift f)) by lia.
    rewrite Z.eqb_refl. split; [reflexivity|].
    destruct (Z.eqb_spec 0 (2 ^ kShift f)); [lia | reflexivity].
  - change (wrap 32 0) with 0. split; [|reflexivity].
    destruct (Z.eqb_spec (2 ^ kShift f) 0); [lia | reflexivity].
Qed.

(** C3.  For every heap object (under each input assumption): the
    "receiver" test is 1 iff the instance type of its map is at least
    FIRST_JS_RECEIVER_TYPE (as unsigned 32-bit words); the "callable" test is
    the callable bit of the map's bit field; and the "non-callable" test is 1
    exactly when the callable bit is clear and the instance type lies in the
    receiver range, that is [non_callable = (not callable) && receiver].  It
    is not the negation of "callable": in the sample heap of the last
    conjunct an object that is not a receiver tests 0 for both. *)
Theorem non_callable_is_not_callable_and_receiver
    (T : Target) (L : Layout) (factory_ : Factory)
    (input : Z) (input_assumptions : ObjectIsOp.InputAssumptions.t) (s : State) :
  truth (IsSmi input) = false ->
  kSize (Map_Bits1_IsCallableBit L) = 1 ->
  0 <= kShift (Map_Bits1_IsCallableBit L) < 32 ->
  let map := field_value T s input (ForMap L) in
  let instance_type := field_value T s map (ForMapInstanceType L) in
  let bitfield := field_value T s map (ForMapBitField L) in
  let is_receiver := wrap 32 (FIRST_JS_RECEIVER_TYPE L) <=? wrap 32 instance_type in
  let is_callable := Z.testbit bitfield (kShift (Map_Bits1_IsCallableBit L)) in
  let test kind := ReduceObjectIs T L factory_ input kind input_assumptions s in
  test ObjectIsOp.Kind.kReceiver = Returned (bit is_receiver) s
  /\ test ObjectIsOp.Kind.kCallable = Returned (bit is_callable) s
  /\ test ObjectIsOp.Kind.kNonCallable = Returned (bit (negb is_callable && is_receiver)) s
  /\ exists object heap,
       truth (IsSmi object) = false
       /\ ReduceObjectIs x64 layout64 roots object ObjectIsOp.Kind.kCallable
            ObjectIsOp.InputAssumptions.kNone heap = Returned 0 heap
       /\ ReduceObjectIs x64 layout64 roots object ObjectIsOp.Kind.kNonCallable
            ObjectIsOp.InputAssumptions.kNone heap = Returned 0 heap.
Proof.
  intros Hsmi Hsize Hshift map instance_type bitfield is_receiver is_callable test.
  destruct (single_bit_test (Map_Bits1_IsCallableBit L) bitfield Hsize Hshift)
    as [Hset Hclear].
  fold is_callable in Hset, Hclear.
  assert (Hrec : truth (Uint32LessThanOrEqual (FIRST_JS_RECEIVER_TYPE L) instance_type)
                 = is_receiver).
  { unfold Uint32LessThanOrEqual. apply UintLessThanOrEqual_truth. }
  assert (Hguard : forall (k : Asm Z),
             when (NeedsHeapObjectCheck input_assumptions)
               (GOTO_IF (IsSmi input) (ret 0)) k s = k s).
  { intros k. unfold when, GOTO_IF. rewrite Hsmi.
    destruct (NeedsHeapObjectCheck input_assumptions); reflexivity. }
  split; [| split; [| split]].
  - subst test. cbv beta. unfold ReduceObjectIs. rewrite Hguard.
    unfold bind, ret. rewrite LoadMapField_run, !LoadField_run.
    fold map. fold instance_type.
    unfold Uint32LessThanOrEqual, UintLessThanOrEqual. reflexivity.
  - subst test. cbv beta. unfold ReduceObjectIs. rewrite Hguard.
    unfold bind, ret. rewrite LoadMapField_run, !LoadField_run.
    fold map. fold bitfield.
    unfold Word32Equal, Equal in *. rewrite bit_truth in Hset.
    rewrite Hset. reflexivity.
  - subst test. cbv beta. unfold ReduceObjectIs. rewrite Hguard.
    unfold bind, ret. rewrite LoadMapField_run, !LoadField_run.
    fold map. fold bitfield. unfold GOTO_IF_NOT. rewrite Hclear.
    destruct is_callable; cbn [negb andb].
    + reflexivity.
    + rewrite LoadField_run. fold instance_type.
      unfold Uint32LessThanOrEqual, UintLessThanOrEqual. reflexivity.
  - exists 0x4001. exists symbol_heap. repeat split.
Qed.

Lemma non_callable_is_not_callable_and_receiver_witness :
  ReduceObjectIs x64 layout64 roots 0x4001 ObjectIsOp.Kind.kNonCallable
    ObjectIsOp.InputAssumptions.kNone symbol_heap
  = Returned 0 symbol_heap.
Proof.
  refine (proj1 (proj2 (proj2
    (non_callable_is_not_callable_and_receiver x64 layout64 roots 0x4001
       ObjectIsOp.InputAssumptions.kNone symbol_heap _ _ _)))).
  - reflexivity.
  - reflexivity.
  - simpl. lia.
Defined.

Lemma wrap_land_l w a m : 0 <= w -> wrap w (Z.land (wrap w a) m) = Z.land (wrap w a) m.
Proof.
  intros Hw. unfold wrap. apply Z.bits_inj'. intros n Hn.
  destruct (Z_lt_le_dec n w).
  - rewrite Z.mod_pow2_bits_low by lia. reflexivity.
  - rewrite Z.mod_pow2_bits_high by lia.
    rewrite Z.land_spec, Z.mod_pow2_bits_high by lia. reflexivity.
Qed.

Lemma kMask_range f : BitField_fits f = true -> 0 <= kMask f < 2 ^ 32.
Proof.
  unfold BitField_fits, kMask. intros H.
  apply andb_prop in H as [H H3]. apply andb_prop in H as [H1 H2].
  apply Z.leb_le in H1, H3. apply Z.ltb_lt in H2.
  rewrite Z.shiftl_mul_pow2 by lia.
  assert (0 < 2 ^ kSize f) by (apply Z.pow_pos_nonneg; lia).
  assert (0 < 2 ^ kShift f) by (apply Z.pow_pos_nonneg; lia).
  assert (2 ^ kSize f * 2 ^ kShift f <= 2 ^ 32).
  { rewrite <- Z.pow_add_r by lia. apply Z.pow_le_mono_r; lia. }
  nia.
Qed.

(** A masked field, shifted down and up again, is itself. *)
Lemma masked_low_bits_clear x m n :
  0 <= n -> Z.shiftl (Z.shiftr (Z.land x (Z.shiftl m n)) n) n = Z.land x (Z.shiftl m n).
Proof.
  intros Hn. apply Z.bits_inj'. intros k Hk.
  destruct (Z_lt_le_dec k n).
  - rewrite Z.shiftl_spec_low by lia.
    rewrite Z.land_spec, (Z.shiftl_spec_low m) by lia.
    rewrite andb_false_r. reflexivity.
  - rewrite Z.shiftl_spec by lia. rewrite Z.shiftr_spec by lia.
    replace (k - n + n) with k by lia. reflexivity.
Qed.

(** The length test of the BigInt64 check reads the length field. *)
Lemma length_field_is_one f bitfield :
  BitField_fits f = true ->
  truth (Word32Equal (Word32BitwiseAnd bitfield (kMask f)) (Z.shiftl 1 (kShift f)))
  = (decode f bitfield =? 1).
Proof.
  intros Hf. pose proof (kMask_range f Hf) as Hm.
  unfold BitField_fits in Hf.
  apply andb_prop in Hf as [Hf H3]. apply andb_prop in Hf as [H1 H2].
  apply Z.leb_le in H1, H3. apply Z.ltb_lt in H2.
  unfold Word32Equal, Word32BitwiseAnd, BitwiseAnd, decode.
  rewrite Equal_truth. rewrite (wrap_small 32 (kMask f)) by lia.
  rewrite wrap_land_l by lia.
  rewrite Z.shiftl_1_l.
  assert (Hp : 0 < 2 ^ kShift f < 2 ^ 32).
  { split; [apply Z.pow_pos_nonneg; lia | apply Z.pow_lt_mono_r; lia]. }
  rewrite (wrap_small 32 (2 ^ kShift f)) by lia.
  set (x := Z.land (wrap 32 bitfield) (kMask f)).
  assert (Hx : Z.shiftl (Z.shiftr x (kShift f)) (kShift f) = x).
  { subst x. unfold kMask. apply masked_low_bits_clear. lia. }
  destruct (Z.eqb_spec x (2 ^ kShift f)) as [E|E];
    destruct (Z.eqb_spec (Z.shiftr x (kShift f)) 1) as [E'|E']; try reflexivity.
  - exfalso. apply E'. rewrite E. rewrite <- Z.shiftl_1_l.
    apply Z.shiftr_shiftl_l with (n := kShift f) (m := kShift f) (a := 1) in H1.
    rewrite H1, Z.sub_diag. reflexivity.
  - exfalso. apply E. rewrite <- Hx, E'. apply Z.shiftl_1_l.
Qed.

Lemma sign_field_is_set f bitfield :
  kSize f = 1 -> 0 <= kShift f < 32 ->
  truth (Word32Equal (Word32BitwiseAnd bitfield (kMask f)) (kMask f))
  = Z.testbit bitfield (kShift f).
Proof.
  intros Hs Hk.
  destruct (single_bit_test f bitfield Hs Hk) as [H _].
  rewrite <- H. unfold Word32Equal. rewrite !Equal_truth. apply Z.eqb_sym.
Qed.

(** C4.  The "fits in 64 bits" test on a BigInt (the object is known to be
    one, or is a heap object whose map is the BigInt map): the result is 1 if
    the packed bit field is zero; otherwise it is 1 exactly if the length
    field is 1 and either the stored digit is at most the signed 64-bit
    maximum, or the sign bit is set and the digit is exactly 2^63; and 0 in
    all other cases.  In particular a negative one-digit value of magnitude
    2^63 tests 1. *)
Theorem bigint_fits_in_64_bits
    (T : Target) (L : Layout) (factory_ : Factory)
    (input : Z) (input_assumptions : ObjectIsOp.InputAssumptions.t) (s : State) :
  Is64 T = true ->
  (NeedsHeapObjectCheck input_assumptions = true -> truth (IsSmi input) = false) ->
  (input_assumptions <> ObjectIsOp.InputAssumptions.kBigInt ->
   truth (TaggedEqual T (field_value T s input (ForMap L)) (bigint_map factory_)) = true) ->
  BitField_fits (BigInt_LengthBits L) = true ->
  kSize (BigInt_SignBits L) = 1 ->
  0 <= kShift (BigInt_SignBits L) < 32 ->
  let bitfield := field_value T s input (ForBigIntBitfield L) in
  let digit := wrap 64 (field_value T s input (ForBigIntLeastSignificantDigit64 L)) in
  let length := decode (BigInt_LengthBits L) bitfield in
  let negative := Z.testbit bitfield (kShift (BigInt_SignBits L)) in
  let fits :=
    (wrap 32 bitfield =? 0)
    || ((length =? 1) && ((digit <=? 2 ^ 63 - 1) || (negative && (digit =? 2 ^ 63)))) in
  let test :=
    ReduceObjectIs T L factory_ input ObjectIsOp.Kind.kBigInt64 input_assumptions s in
  test = Returned (bit fits) s
  /\ (length = 1 -> negative = true -> digit = 2 ^ 63 -> test = Returned 1 s).
Proof.
  intros H64 Hsmi Hmap Hlen Hsize Hshift bitfield digit length negative fits test.
  assert (Htest : test = Returned (bit fits) s).
  { subst test. unfold ReduceObjectIs. cbn [ObjectIsOp_Kind_is_BigInt64 implb negb].
    rewrite H64. unfold bind at 1. cbn [DCHECK].
    assert (Hguard : forall k : Asm Z,
      when (negb (ObjectIsOp_InputAssumptions_is_BigInt input_assumptions))
        (fun next =>
           when (NeedsHeapObjectCheck input_assumptions) (GOTO_IF (IsSmi input) (ret 0))
             (bind (LoadMapField T L input)
                (fun map =>
                   GOTO_IF_NOT (TaggedEqual T map (bigint_map factory_)) (ret 0) next)))
        k s = k s).
    { intros k.
      destruct input_assumptions;
        cbn [ObjectIsOp_InputAssumptions_is_BigInt negb when NeedsHeapObjectCheck] in *.
      - unfold GOTO_IF. rewrite (Hsmi eq_refl). unfold bind.
        rewrite LoadMapField_run. unfold GOTO_IF_NOT. rewrite Hmap by discriminate.
        reflexivity.
      - unfold bind.
        rewrite LoadMapField_run. unfold GOTO_IF_NOT. rewrite Hmap by discriminate.
        reflexivity.
      - reflexivity. }
    rewrite Hguard. unfold bind, ret. rewrite LoadField_run. fold bitfield.
    unfold GOTO_IF at 1. unfold Word32Equal at 1. rewrite Equal_truth.
    change (wrap 32 0) with 0.
    subst fits. destruct (wrap 32 bitfield =? 0); cbn [orb]; [reflexivity|].
    unfold GOTO_IF_NOT at 1. rewrite length_field_is_one by exact Hlen.
    fold length. destruct (length =? 1); cbn [andb]; [|reflexivity].
    rewrite LoadField_run.
    unfold GOTO_IF at 1. unfold Uint64LessThanOrEqual.
    rewrite UintLessThanOrEqual_truth. fold digit.
    change (wrap 64 int64_max) with (2 ^ 63 - 1).
    destruct (digit <=? 2 ^ 63 - 1); cbn [orb]; [reflexivity|].
    unfold GOTO_IF_NOT. rewrite sign_field_is_set by assumption. fold negative.
    destruct negative; cbn [andb]; [|reflexivity].
    unfold GOTO_IF. unfold Word64Equal. rewrite Equal_truth. fold digit.
    change (wrap 64 int64_min) with (2 ^ 63).
    destruct (digit =? 2 ^ 63); reflexivity. }
  split; [exact Htest|].
  intros Hl Hn Hd. rewrite Htest. subst fits. rewrite Hl, Hn, Hd.
  rewrite orb_true_r. reflexivity.
Qed.

Lemma bigint_fits_in_64_bits_witness :
  ReduceObjectIs x64 layout64 roots 0x4001 ObjectIsOp.Kind.kBigInt64
    ObjectIsOp.InputAssumptions.kHeapObject bigint_min_heap
  = Returned 1 bigint_min_heap.
Proof.
  refine (proj2
    (bigint_fits_in_64_bits x64 layout64 roots 0x4001
       ObjectIsOp.InputAssumptions.kHeapObject bigint_min_heap _ _ _ _ _ _) _ _ _).
  - reflexivity.
  - discriminate.
  - reflexivity.
  - reflexivity.
  - reflexivity.
  - simpl. lia.
  - reflexivity.
  - reflexivity.
  - reflexivity.
Defined.

(** ** Unboxing an array index *)

Lemma signed_in_range w x :
  0 < w -> - 2 ^ (w - 1) <= x < 2 ^ (w - 1) -> signed w x = x.
Proof.
  intros Hw Hx.
  assert (H2 : 2 ^ w = 2 * 2 ^ (w - 1)).
  { replace w with (Z.succ (w - 1)) at 1 by lia. apply Z.pow_succ_r. lia. }
  destruct (Z_lt_le_dec x 0).
  - unfold signed, wrap.
    replace (x mod 2 ^ w) with (x + 2 ^ w)
      by (apply Z.mod_unique with (-1); lia).
    destruct (x + 2 ^ w <? 2 ^ (w - 1)) eqn:E; [apply Z.ltb_lt in E; lia | lia].
  - apply signed_small; lia.
Qed.

Lemma ObjectIsSmi_run T L factory_ object s :
  ObjectIsSmi T L factory_ object s = Returned (IsSmi object) s.
Proof. reflexivity. Qed.

(** C8.  Array-index unboxing of a float-boxed number on a 64-bit target:
    the input is truncated to a 64-bit integer; the lowering deoptimizes with
    "lost precision or NaN" unless widening the truncated integer back to
    float64 equals the input; past that guard it deoptimizes with "not an
    array index" unless the truncated integer lies strictly between minus and
    plus the maximum safe integer; and when neither guard fires the truncated
    integer is the result. *)
Theorem array_index_of_heap_number
    (T : Target) (L : Layout) (factory_ : Factory) (object frame_state : Z)
    (minus_zero_mode : CheckForMinusZeroMode) (feedback : Z) (s : State) :
  Is64 T = true ->
  truth (IsSmi object) = false ->
  truth (TaggedEqual T (field_value T s object (ForMap L)) (heap_number_map factory_))
    = true ->
  0 <= kMaxSafeIntegerUint64 L < 2 ^ 63 ->
  let value := field_value T s object (ForHeapNumberValue L) in
  let i64 := TruncateFloat64ToInt64OverflowUndefined T value in
  let exact := truth (Float64Equal (ChangeInt64ToFloat64 i64) value) in
  let bounded :=
    (signed 64 i64 <? kMaxSafeIntegerUint64 L)
    && (- kMaxSafeIntegerUint64 L <? signed 64 i64) in
  ReduceConvertObjectToPrimitiveOrDeopt T L factory_ object frame_state
    ConvertObjectToPrimitiveOrDeoptOp.ObjectKind.kNumberOrString
    ConvertObjectToPrimitiveOrDeoptOp.PrimitiveKind.kArrayIndex minus_zero_mode feedback s
  = if negb exact
    then Deoptimized DeoptimizeReason.kLostPrecisionOrNaN frame_state feedback
    else if negb bounded
    then Deoptimized DeoptimizeReason.kNotAnArrayIndex frame_state feedback
    else Returned i64 s.
Proof.
  intros H64 Hsmi Hmap Hmax value i64 exact bounded.
  unfold ReduceConvertObjectToPrimitiveOrDeopt.
  unfold bind at 1. cbn [DCHECK].
  unfold bind at 1. rewrite ObjectIsSmi_run.
  unfold IF at 1. rewrite Hsmi.
  unfold bind at 1. rewrite LoadMapField_run.
  unfold IF at 1. rewrite Hmap.
  unfold bind at 1. rewrite LoadField_run. fold value.
  rewrite H64. fold i64.
  unfold bind, DeoptimizeIfNot, ret. fold exact.
  destruct exact; cbn [negb]; [|reflexivity].
  unfold IntPtrLessThan. rewrite !IntLessThan_truth.
  unfold WordPtrBits. rewrite H64.
  rewrite (signed_in_range 64 (kMaxSafeIntegerUint64 L)) by (cbn; lia).
  rewrite (signed_in_range 64 (- kMaxSafeIntegerUint64 L)) by (cbn; lia).
  subst bounded.
  destruct (signed 64 i64 <? kMaxSafeIntegerUint64 L); cbn [andb negb]; [|reflexivity].
  destruct (- kMaxSafeIntegerUint64 L <? signed 64 i64); reflexivity.
Qed.

Lemma array_index_of_heap_number_witness :
  ReduceConvertObjectToPrimitiveOrDeopt x64 layout64 roots 0x4001 7
    ConvertObjectToPrimitiveOrDeoptOp.ObjectKind.kNumberOrString
    ConvertObjectToPrimitiveOrDeoptOp.PrimitiveKind.kArrayIndex kDontCheckForMinusZero 9
    heap_number_heap
  = Returned 42 heap_number_heap.
Proof.
  refine (array_index_of_heap_number x64 layout64 roots 0x4001 7
            kDontCheckForMinusZero 9 heap_number_heap _ _ _ _).
  - reflexivity.
  - reflexivity.
  - reflexivity.
  - simpl. lia.
Defined.

(** ** The failure channel *)

Section Exits.

Context {A : Type} (reasons : list DeoptimizeReason.t) (allow : bool).

Lemma exits_ret (a : A) : exits_by_deoptimization reasons allow (ret a).
Proof. intros s. exact I. Qed.

Lemma exits_UNREACHABLE :
  allow = true -> exits_by_deoptimization reasons allow (@UNREACHABLE A).
Proof. intros H s. exact H. Qed.

Lemma exits_GOTO_IF c (label next : Asm A) :
  exits_by_deoptimization reasons allow label ->
  exits_by_deoptimization reasons allow next ->
  exits_by_deoptimization reasons allow (GOTO_IF c label next).
Proof. intros Hl Hn s. unfold GOTO_IF. destruct (truth c); [apply Hl | apply Hn]. Qed.

Lemma exits_GOTO_IF_NOT c (label next : Asm A) :
  exits_by_deoptimization reasons allow label ->
  exits_by_deoptimization reasons allow next ->
  exits_by_deoptimization reasons allow (GOTO_IF_NOT c label next).
Proof. intros Hl Hn s. unfold GOTO_IF_NOT. destruct (truth c); [apply Hn | apply Hl]. Qed.

Lemma exits_IF c (then_ else_ : Asm A) :
  exits_by_deoptimization reasons allow then_ ->
  exits_by_deoptimization reasons allow else_ ->
  exits_by_deoptimization reasons allow (IF c then_ else_).
Proof. intros Ht He s. unfold IF. destruct (truth c); [apply Ht | apply He]. Qed.

Lemma exits_IF_NOT c (then_ else_ : Asm A) :
  exits_by_deoptimization reasons allow then_ ->
  exits_by_deoptimization reasons allow else_ ->
  exits_by_deoptimization reasons allow (IF_NOT c then_ else_).
Proof. intros Ht He s. unfold IF_NOT. destruct (truth c); [apply He | apply Ht]. Qed.

Lemma exits_when (b : bool) (g : Asm A -> Asm A) (next : Asm A) :
  (exits_by_deoptimization reasons allow next ->
   exits_by_deoptimization reasons allow (g next)) ->
  exits_by_deoptimization reasons allow next ->
  exits_by_deoptimization reasons allow (when b g next).
Proof. intros Hg Hn. unfold when. destruct b; auto. Qed.

End Exits.

Lemma exits_bind {A B} reasons allow (c : Asm A) (k : A -> Asm B) :
  exits_by_deoptimization reasons allow c ->
  (forall a, exits_by_deoptimization reasons allow (k a)) ->
  exits_by_deoptimization reasons allow (bind c k).
Proof.
  intros Hc Hk s. unfold bind. specialize (Hc s).
  destruct (c s) as [a s'| |]; [apply Hk | exact Hc | exact Hc].
Qed.

Lemma exits_DCHECK reasons allow (b : bool) :
  b = true \/ allow = true -> exits_by_deoptimization reasons allow (DCHECK b).
Proof.
  intros H s. unfold DCHECK. destruct b; [exact I|].
  destruct H as [H|H]; [discriminate H | exact H].
Qed.

Lemma exits_DeoptimizeIf reasons allow c frame_state reason feedback :
  In reason reasons ->
  exits_by_deoptimization reasons allow (DeoptimizeIf c frame_state reason feedback).
Proof. intros H s. unfold DeoptimizeIf. destruct (truth c); [exact H | exact I]. Qed.

Lemma exits_DeoptimizeIfNot reasons allow c frame_state reason feedback :
  In reason reasons ->
  exits_by_deoptimization reasons allow (DeoptimizeIfNot c frame_state reason feedback).
Proof. intros H s. unfold DeoptimizeIfNot. destruct (truth c); [exact I | exact H]. Qed.

Lemma exits_Load reasons allow T base index rep offset element_size_log2 :
  exits_by_deoptimization reasons allow (Load T base index rep offset element_size_log2).
Proof. intros s. exact I. Qed.

Lemma exits_Store reasons allow T base value rep offset :
  exits_by_deoptimization reasons allow (Store T base value rep offset).
Proof. intros s. exact I. Qed.

Lemma exits_StoreElement reasons allow T array access index value :
  exits_by_deoptimization reasons allow (StoreElement T array access index value).
Proof. intros s. exact I. Qed.

Lemma exits_Allocate reasons allow T size type :
  exits_by_deoptimization reasons allow (Allocate T size type).
Proof. intros s. exact I. Qed.

Lemma exits_CallStringToArrayIndex reasons allow T object :
  exits_by_deoptimization reasons allow (CallStringToArrayIndex T object).
Proof. intros s. exact I. Qed.

Lemma exits_weaken {A} reasons (c : Asm A) :
  exits_by_deoptimization reasons false c ->
  forall allow, exits_by_deoptimization reasons allow c.
Proof.
  intros H allow s. specialize (H s).
  destruct (c s); [exact I | exact H | discriminate H].
Qed.

(** A computation with no deoptimization exit and no failed assertion
    returns. *)
Lemma exits_nowhere {A} (c : Asm A) :
  exits_by_deoptimization [] false c -> forall s, exists a s', c s = Returned a s'.
Proof.
  intros H s. specialize (H s).
  destruct (c s) as [a s'| |]; [eauto | destruct H | discriminate H].
Qed.

Ltac in_vocabulary := unfold deoptimization_vocabulary; simpl; tauto.

(** One step through the structure of an emitted subgraph. *)
Ltac exits_step :=
  lazymatch goal with
  | |- exits_by_deoptimization _ _ (ret _) => apply exits_ret
  | |- exits_by_deoptimization _ _ (bind _ _) => apply exits_bind; [| intros ?]
  | |- exits_by_deoptimization _ _ (GOTO_IF _ _ _) => apply exits_GOTO_IF
  | |- exits_by_deoptimization _ _ (GOTO_IF_NOT _ _ _) => apply exits_GOTO_IF_NOT
  | |- exits_by_deoptimization _ _ (IF _ _ _) => apply exits_IF
  | |- exits_by_deoptimization _ _ (IF_NOT _ _ _) => apply exits_IF_NOT
  | |- exits_by_deoptimization _ _ (when _ _ _) => apply exits_when; [intros ?|]
  | |- exits_by_deoptimization _ _ (DCHECK _) =>
      apply exits_DCHECK; solve [left; reflexivity | right; reflexivity]
  | |- exits_by_deoptimization _ _ UNREACHABLE => apply exits_UNREACHABLE; reflexivity
  | |- exits_by_deoptimization _ _ (DeoptimizeIf _ _ _ _) =>
      apply exits_DeoptimizeIf; in_vocabulary
  | |- exits_by_deoptimization _ _ (DeoptimizeIfNot _ _ _ _) =>
      apply exits_DeoptimizeIfNot; in_vocabulary
  | |- exits_by_deoptimization _ _ (Load _ _ _ _ _ _) => apply exits_Load
  | |- exits_by_deoptimization _ _ (LoadField _ _ _) => apply exits_Load
  | |- exits_by_deoptimization _ _ (LoadMapField _ _ _) => apply exits_Load
  | |- exits_by_deoptimization _ _ (LoadElement _ _ _ _) => apply exits_Load
  | |- exits_by_deoptimization _ _ (Store _ _ _ _ _) => apply exits_Store
  | |- exits_by_deoptimization _ _ (StoreField _ _ _ _) => apply exits_Store
  | |- exits_by_deoptimization _ _ (StoreElement _ _ _ _ _) => apply exits_StoreElement
  | |- exits_by_deoptimization _ _ (Allocate _ _ _) => apply exits_Allocate
  | |- exits_by_deoptimization _ _ (CallStringToArrayIndex _ _) =>
      apply exits_CallStringToArrayIndex
  | |- exits_by_deoptimization _ _ (if ?b then _ else _) => destruct b
  | |- exits_by_deoptimization _ _ (match ?o with Some _ => _ | None => _ end) =>
      destruct o
  | H : exits_by_deoptimization ?r ?a ?c |- exits_by_deoptimization ?r ?a ?c => exact H
  end.

Ltac exits := cbv zeta; repeat exits_step.

(** The handlers with guards leave through reasons of the vocabulary. *)
Lemma exits_ReduceChangeOrDeopt allow T input frame_state kind mode feedback :
  exits_by_deoptimization deoptimization_vocabulary allow
    (ReduceChangeOrDeopt T input frame_state kind mode feedback).
Proof. destruct kind, mode; unfold ReduceChangeOrDeopt; exits. Qed.

Lemma exits_ObjectIsSmi reasons allow T L factory_ object :
  exits_by_deoptimization reasons allow (ObjectIsSmi T L factory_ object).
Proof. intros s. exact I. Qed.

Lemma exits_ReduceConvertObjectToPrimitiveOrDeopt T L factory_ object frame_state
    from_kind to_kind mode feedback :
  exits_by_deoptimization deoptimization_vocabulary
    (negb (contract T (ConvertObjectToPrimitiveOrDeopt object frame_state from_kind
                         to_kind mode feedback)))
    (ReduceConvertObjectToPrimitiveOrDeopt T L factory_ object frame_state from_kind
       to_kind mode feedback).
Proof.
  unfold ReduceConvertObjectToPrimitiveOrDeopt, ConvertHeapObjectToFloat64OrDeopt,
    ChangeFloat64ToInt32OrDeopt, ChangeFloat64ToInt64OrDeopt.
  destruct to_kind, from_kind; cbn [contract negb ObjectKind_is_Number];
    cbv zeta;
    repeat (apply exits_ObjectIsSmi || apply exits_ReduceChangeOrDeopt || exits_step).
Qed.

(** The other handlers have no deoptimization exit at all. *)
Lemma exits_ReduceObjectIs reasons T L factory_ input kind input_assumptions :
  exits_by_deoptimization reasons
    (negb (contract T (ObjectIs input kind input_assumptions)))
    (ReduceObjectIs T L factory_ input kind input_assumptions).
Proof.
  destruct kind, input_assumptions; cbn [contract];
    destruct (Is64 T) eqn:H64; cbn [negb];
    unfold ReduceObjectIs;
    cbn [ObjectIsOp_Kind_is_BigInt64 ObjectIsOp_InputAssumptions_is_BigInt
         NeedsHeapObjectCheck negb implb];
    rewrite ?H64; exits.
Qed.

Lemma exits_ReduceConvertToObject reasons T L factory_ input kind input_rep
    input_interpretation mode :
  exits_by_deoptimization reasons
    (negb (contract T (ConvertToObject input kind input_rep input_interpretation mode)))
    (ReduceConvertToObject T L factory_ input kind input_rep input_interpretation mode).
Proof.
  unfold ReduceConvertToObject, AllocateBigInt, AllocateHeapNumberWithValue,
    SmiTagOrOverflow, SmiValuesAre31Bits.
  destruct kind, input_rep, input_interpretation, mode; cbn [contract];
    destruct (Is64 T) eqn:H64; destruct (SmiValuesAre32Bits T) eqn:Hsmi;
    cbn [negb valid Bool.eqb RegisterRepresentation_eqb InputInterpretation_eqb];
    exits.
Qed.

Lemma exits_ConvertFloat64ToNumber reasons allow T L factory_ input mode :
  exits_by_deoptimization reasons allow (ConvertFloat64ToNumber T L factory_ input mode).
Proof.
  apply exits_weaken.
  apply (exits_ReduceConvertToObject reasons T L factory_ input
           ConvertToObjectOp.Kind.kNumber Float64
           ConvertToObjectOp.InputInterpretation.kSigned mode).
Qed.

Lemma exits_ReduceConvertObjectToPrimitive reasons T L factory_ object kind
    input_assumptions :
  exits_by_deoptimization reasons
    (negb (contract T (ConvertObjectToPrimitive object kind input_assumptions)))
    (ReduceConvertObjectToPrimitive T L factory_ object kind input_assumptions).
Proof.
  unfold ReduceConvertObjectToPrimitive.
  destruct kind, input_assumptions; cbn [contract negb];
    cbv zeta; repeat (apply exits_ObjectIsSmi || exits_step).
Qed.

Lemma exits_ReduceNewConsString reasons allow T L factory_ length first second :
  exits_by_deoptimization reasons allow
    (ReduceNewConsString T L factory_ length first second).
Proof. unfold ReduceNewConsString. exits. Qed.

Lemma exits_ReduceNewArray_loop reasons allow T length array access the_hole_value done
    index :
  (forall result, exits_by_deoptimization reasons allow (done result)) ->
  exits_by_deoptimization reasons allow
    (ReduceNewArray_loop T length array access the_hole_value done index).
Proof.
  intros Hdone.
  funelim (ReduceNewArray_loop T length array access the_hole_value done index).
  - apply exits_bind; [apply exits_StoreElement | intros u].
    intros s. exact (H u s reasons allow Hdone s).
  - apply Hdone.
Qed.

Lemma exits_ReduceNewArray reasons allow T L factory_ length kind allocation_type :
  exits_by_deoptimization reasons allow
    (ReduceNewArray T L factory_ length kind allocation_type).
Proof.
  unfold ReduceNewArray. cbv zeta.
  apply exits_GOTO_IF; [apply exits_ret|].
  apply exits_bind; [destruct kind; exits | intros [[[size_log2 array_map] access] hole]].
  repeat ((apply exits_ReduceNewArray_loop; [intros ?; apply exits_ret]) || exits_step).
Qed.

Lemma exits_ReduceDoubleArrayMinMax_loop reasons allow T L is_max elements array_length
    done index accumulator :
  (forall result, exits_by_deoptimization reasons allow (done result)) ->
  exits_by_deoptimization reasons allow
    (ReduceDoubleArrayMinMax_loop T L is_max elements array_length done index accumulator).
Proof.
  intros Hdone.
  funelim (ReduceDoubleArrayMinMax_loop T L is_max elements array_length done index
             accumulator).
  - apply exits_bind; [apply exits_Load | intros element].
    intros s. exact (H element s reasons allow Hdone s).
  - apply Hdone.
Qed.

Lemma exits_ReduceDoubleArrayMinMax reasons allow T L factory_ array kind :
  exits_by_deoptimization reasons allow (ReduceDoubleArrayMinMax T L factory_ array kind).
Proof.
  unfold ReduceDoubleArrayMinMax. cbv zeta.
  repeat ((apply exits_ReduceDoubleArrayMinMax_loop;
             [intros ?; apply exits_ConvertFloat64ToNumber])
          || exits_step).
Qed.

Lemma exits_ReduceLoadFieldByIndex reasons allow T L factory_ object field_index :
  exits_by_deoptimization reasons allow
    (ReduceLoadFieldByIndex T L factory_ object field_index).
Proof.
  unfold ReduceLoadFieldByIndex, AllocateHeapNumberWithValue. cbv zeta.
  repeat (apply exits_ObjectIsSmi || exits_step).
Qed.

(** *** The guards against the mismatches of the specification *)

Lemma signed_congr w x y : wrap w x = wrap w y -> signed w x = signed w y.
Proof. unfold signed. intros ->. reflexivity. Qed.

Lemma signed_wrap w x : 0 <= w -> signed w (wrap w x) = signed w x.
Proof. intros Hw. apply signed_congr. apply wrap_wrap. assumption. Qed.

Lemma wrap_signed w x : 0 < w -> wrap w (signed w x) = wrap w x.
Proof.
  intros Hw. unfold signed. destruct (_ <? _).
  - apply wrap_wrap. lia.
  - unfold wrap. rewrite <- (Z.mod_add _ 1) by (apply Z.pow_nonzero; lia).
    replace (x mod 2 ^ w - 2 ^ w + 1 * 2 ^ w) with (x mod 2 ^ w) by lia.
    apply Z.mod_mod. apply Z.pow_nonzero; lia.
Qed.

Lemma signed_range w x : 0 < w -> - 2 ^ (w - 1) <= signed w x < 2 ^ (w - 1).
Proof.
  intros Hw. unfold signed.
  pose proof (wrap_range w x ltac:(lia)) as Hr.
  assert (H2 : 2 ^ w = 2 * 2 ^ (w - 1)).
  { replace w with (Z.succ (w - 1)) at 1 by lia. apply Z.pow_succ_r. lia. }
  destruct (Z.ltb_spec (wrap w x) (2 ^ (w - 1))); lia.
Qed.

Lemma IsSmi_truth input : truth (IsSmi input) = Z.even input.
Proof.
  unfold IsSmi, Word32Equal, Word32BitwiseAnd, BitwiseAnd, kSmiTagMask, kSmiTag, kSmiTagSize.
  rewrite Equal_truth. rewrite wrap_wrap by lia.
  change (wrap 32 (2 ^ 1 - 1)) with (Z.ones 1). change (wrap 32 0) with 0.
  rewrite Z.land_ones by lia. change (2 ^ 1) with 2.
  rewrite <- Z.bit0_mod, testbit_wrap by lia.
  rewrite Z.bit0_odd, <- Z.negb_even.
  destruct (Z.even input); reflexivity.
Qed.

(** A 64-bit word is the sign extension of its low half exactly when the low
    half, read as an int32, is the word read as an int64. *)
Lemma sign_extension_reproduces input :
  truth (Word64Equal (ChangeInt32ToInt64 (wrap 32 input)) input)
  = (signed 32 input =? signed 64 input).
Proof.
  unfold Word64Equal, ChangeInt32ToInt64. rewrite Equal_truth.
  rewrite wrap_wrap by lia. rewrite signed_wrap by lia.
  pose proof (signed_range 32 input ltac:(lia)) as H32.
  pose proof (signed_range 64 input ltac:(lia)) as H64.
  change (2 ^ (32 - 1)) with 2147483648 in H32.
  change (2 ^ (64 - 1)) with 9223372036854775808 in H64.
  destruct (Z.eqb_spec (signed 32 input) (signed 64 input)) as [E|E].
  - rewrite E, wrap_signed by lia. apply Z.eqb_refl.
  - apply Z.eqb_neq. intros H. apply E.
    apply signed_congr in H.
    rewrite (signed_in_range 64 (signed 32 input)) in H by (cbn; lia).
    exact H.
Qed.

Lemma negative_as_int32 input :
  truth (Int32LessThan input 0) = (2 ^ 31 <=? wrap 32 input).
Proof.
  unfold Int32LessThan. rewrite IntLessThan_truth.
  change (signed 32 0) with 0.
  pose proof (wrap_range 32 input ltac:(lia)) as Hr.
  pose proof (signed_negative 32 (wrap 32 input) ltac:(lia) Hr) as Hn.
  rewrite signed_wrap in Hn by lia. change (2 ^ (32 - 1)) with (2 ^ 31) in Hn.
  destruct (Z.ltb_spec (signed 32 input) 0), (Z.leb_spec (2 ^ 31) (wrap 32 input));
    try reflexivity; lia.
Qed.

Lemma at_most_as_uint64 input bound :
  0 <= bound < 2 ^ 64 ->
  truth (Uint64LessThanOrEqual input bound) = negb (bound <? wrap 64 input).
Proof.
  intros Hb. unfold Uint64LessThanOrEqual. rewrite UintLessThanOrEqual_truth.
  rewrite (wrap_small 64 bound) by exact Hb.
  destruct (Z.leb_spec (wrap 64 input) bound), (Z.ltb_spec bound (wrap 64 input));
    try reflexivity; lia.
Qed.

Lemma minus_one_as_pointer w v :
  32 <= w -> - 2 ^ 31 <= v < 2 ^ 31 ->
  (wrap w (wrap w v) =? wrap w (-1)) = (v =? -1).
Proof.
  intros Hw Hv. rewrite wrap_wrap by lia.
  assert (Hp : 2 ^ 32 <= 2 ^ w) by (apply Z.pow_le_mono_r; lia).
  change (2 ^ 32) with 4294967296 in Hp. change (2 ^ 31) with 2147483648 in Hv.
  assert (Hm1 : wrap w (-1) = 2 ^ w - 1).
  { unfold wrap. symmetry. apply Z.mod_unique with (-1); lia. }
  rewrite Hm1.
  destruct (Z.eqb_spec v (-1)) as [->|Hne].
  - rewrite Hm1. apply Z.eqb_refl.
  - apply Z.eqb_neq. intros H.
    destruct (Z_lt_le_dec v 0).
    + assert (Hv' : wrap w v = v + 2 ^ w)
        by (unfold wrap; symmetry; apply Z.mod_unique with (-1); lia).
      lia.
    + rewrite wrap_small in H by lia. lia.
Qed.

Ltac guarded := repeat split; reflexivity.

Lemma ReduceChangeOrDeopt_float64_guards T input frame_state kind mode feedback s w :
  In kind [ChangeOrDeoptOp.kFloat64ToInt32; ChangeOrDeoptOp.kFloat64ToInt64] ->
  w = float64_to_int_width kind ->
  guards (float64_mismatch T w mode input) frame_state feedback
    (ReduceChangeOrDeopt T input frame_state kind mode feedback) s.
Proof.
  intros Hk ->. unfold guards, float64_mismatch.
  rewrite (ReduceChangeOrDeopt_float64 T input frame_state kind mode feedback s Hk).
  cbv zeta.
  destruct (negb _); [guarded|].
  destruct mode; [destruct (_ && _)|]; guarded.
Qed.

Lemma ReduceChangeOrDeopt_guards T input frame_state kind mode feedback s :
  guards (conversion_mismatch T kind mode input) frame_state feedback
    (ReduceChangeOrDeopt T input frame_state kind mode feedback) s.
Proof.
  destruct kind.
  - unfold guards, conversion_mismatch, ReduceChangeOrDeopt, bind, ret, DeoptimizeIf.
    rewrite negative_as_int32. destruct (_ <=? _); guarded.
  - unfold guards, conversion_mismatch, ReduceChangeOrDeopt, bind, ret, DeoptimizeIfNot.
    cbv zeta. rewrite sign_extension_reproduces. destruct (_ =? _); guarded.
  - unfold guards, conversion_mismatch, ReduceChangeOrDeopt, bind, ret, DeoptimizeIfNot.
    rewrite at_most_as_uint64 by (unfold kMaxInt; lia).
    unfold kMaxInt. destruct (_ <? _); cbn [negb]; guarded.
  - unfold guards, conversion_mismatch, ReduceChangeOrDeopt, bind, ret, DeoptimizeIfNot.
    rewrite at_most_as_uint64 by (unfold int64_max; lia).
    unfold int64_max. destruct (_ <? _); cbn [negb]; guarded.
  - exact (ReduceChangeOrDeopt_float64_guards T input frame_state
             ChangeOrDeoptOp.kFloat64ToInt32 mode feedback s 32 (or_introl eq_refl)
             eq_refl).
  - exact (ReduceChangeOrDeopt_float64_guards T input frame_state
             ChangeOrDeoptOp.kFloat64ToInt64 mode feedback s 64
             (or_intror (or_introl eq_refl)) eq_refl).
Qed.

Section Unboxing.

Variables (T : Target) (L : Layout) (factory_ : Factory).
Variables (object frame_state feedback : Z) (mode : CheckForMinusZeroMode) (s : State).

Lemma unboxing_Smi_to_Int32 :
  guards
    (unboxing_mismatch T L factory_ s object
       ConvertObjectToPrimitiveOrDeoptOp.ObjectKind.kSmi
       ConvertObjectToPrimitiveOrDeoptOp.PrimitiveKind.kInt32 mode)
    frame_state feedback
    (ReduceConvertObjectToPrimitiveOrDeopt T L factory_ object frame_state
       ConvertObjectToPrimitiveOrDeoptOp.ObjectKind.kSmi
       ConvertObjectToPrimitiveOrDeoptOp.PrimitiveKind.kInt32 mode feedback) s.
Proof.
  unfold guards, unboxing_mismatch, assumption_mismatch,
    unboxed_value_mismatch, is_small_integer, ReduceConvertObjectToPrimitiveOrDeopt.
  cbv zeta. unfold bind at 1. rewrite ObjectIsSmi_run.
  unfold bind, DeoptimizeIfNot, ret. rewrite IsSmi_truth.
  destruct (Z.even object); guarded.
Qed.

(** A boxed float64 to an integer: the tests of the tag and of the map, the
    load of the payload, and the conversion [convert] of it. *)
Lemma unboxing_Number (convert : Z -> Asm Z) (small : Z)
    (mismatch : option DeoptimizeReason.t) :
  guards mismatch frame_state feedback
    (convert (field_value T s object (ForHeapNumberValue L))) s ->
  guards
    (if Z.even object then None
     else if truth (TaggedEqual T (field_value T s object (ForMap L))
                      (heap_number_map factory_))
          then mismatch
          else Some DeoptimizeReason.kNotAHeapNumber)
    frame_state feedback
    (DCHECK true ;;
     is_smi <- ObjectIsSmi T L factory_ object ;;
     IF is_smi
       (ret small)
       (map <- LoadMapField T L object ;;
        DeoptimizeIfNot (TaggedEqual T map (heap_number_map factory_)) frame_state
          DeoptimizeReason.kNotAHeapNumber feedback ;;
        heap_number_value <- LoadField T object (ForHeapNumberValue L) ;;
        result <- convert heap_number_value ;;
        ret result)) s.
Proof.
  intros H. unfold guards in *.
  unfold bind at 1. cbn [DCHECK].
  unfold bind at 1. rewrite ObjectIsSmi_run.
  unfold IF at 1. rewrite IsSmi_truth.
  destruct (Z.even object); [unfold ret; guarded|].
  unfold bind at 1. rewrite LoadMapField_run.
  unfold bind at 1. unfold DeoptimizeIfNot at 1.
  destruct (truth (TaggedEqual T _ _)); [|guarded].
  unfold bind at 1. rewrite LoadField_run.
  unfold bind, ret.
  destruct (convert _ s); exact H.
Qed.

Lemma unboxing_Number_mismatch to_kind w :
  to_kind = ConvertObjectToPrimitiveOrDeoptOp.PrimitiveKind.kInt32 /\ w = 32
  \/ to_kind = ConvertObjectToPrimitiveOrDeoptOp.PrimitiveKind.kInt64 /\ w = 64 ->
  unboxing_mismatch T L factory_ s object
    ConvertObjectToPrimitiveOrDeoptOp.ObjectKind.kNumber to_kind mode
  = if Z.even object then None
    else if truth (TaggedEqual T (field_value T s object (ForMap L))
                     (heap_number_map factory_))
         then float64_mismatch T w mode (field_value T s object (ForHeapNumberValue L))
         else Some DeoptimizeReason.kNotAHeapNumber.
Proof.
  intros [[-> ->] | [-> ->]];
    unfold unboxing_mismatch, assumption_mismatch, unboxed_value_mismatch,
      is_small_integer, has_map;
    (destruct (Z.even object); [reflexivity|]);
    destruct (truth (TaggedEqual T _ _)); reflexivity.
Qed.

Lemma unboxing_Number_to_Int32 :
  guards
    (unboxing_mismatch T L factory_ s object
       ConvertObjectToPrimitiveOrDeoptOp.ObjectKind.kNumber
       ConvertObjectToPrimitiveOrDeoptOp.PrimitiveKind.kInt32 mode)
    frame_state feedback
    (ReduceConvertObjectToPrimitiveOrDeopt T L factory_ object frame_state
       ConvertObjectToPrimitiveOrDeoptOp.ObjectKind.kNumber
       ConvertObjectToPrimitiveOrDeoptOp.PrimitiveKind.kInt32 mode feedback) s.
Proof.
  rewrite (unboxing_Number_mismatch _ 32) by (left; split; reflexivity).
  apply (unboxing_Number
           (fun value => ChangeFloat64ToInt32OrDeopt T value frame_state mode feedback)).
  exact (ReduceChangeOrDeopt_float64_guards T _ frame_state
           ChangeOrDeoptOp.kFloat64ToInt32 mode feedback s 32 (or_introl eq_refl)
           eq_refl).
Qed.

Lemma unboxing_Number_to_Int64 :
  guards
    (unboxing_mismatch T L factory_ s object
       ConvertObjectToPrimitiveOrDeoptOp.ObjectKind.kNumber
       ConvertObjectToPrimitiveOrDeoptOp.PrimitiveKind.kInt64 mode)
    frame_state feedback
    (ReduceConvertObjectToPrimitiveOrDeopt T L factory_ object frame_state
       ConvertObjectToPrimitiveOrDeoptOp.ObjectKind.kNumber
       ConvertObjectToPrimitiveOrDeoptOp.PrimitiveKind.kInt64 mode feedback) s.
Proof.
  rewrite (unboxing_Number_mismatch _ 64) by (right; split; reflexivity).
  apply (unboxing_Number
           (fun value => ChangeFloat64ToInt64OrDeopt T value frame_state mode feedback)).
  exact (ReduceChangeOrDeopt_float64_guards T _ frame_state
           ChangeOrDeoptOp.kFloat64ToInt64 mode feedback s 64
           (or_intror (or_introl eq_refl)) eq_refl).
Qed.

Lemma unboxing_to_Float64 from_kind :
  In from_kind [ConvertObjectToPrimitiveOrDeoptOp.ObjectKind.kNumber;
                ConvertObjectToPrimitiveOrDeoptOp.ObjectKind.kNumberOrBoolean;
                ConvertObjectToPrimitiveOrDeoptOp.ObjectKind.kNumberOrOddball] ->
  guards
    (unboxing_mismatch T L factory_ s object from_kind
       ConvertObjectToPrimitiveOrDeoptOp.PrimitiveKind.kFloat64 mode)
    frame_state feedback
    (ReduceConvertObjectToPrimitiveOrDeopt T L factory_ object frame_state from_kind
       ConvertObjectToPrimitiveOrDeoptOp.PrimitiveKind.kFloat64 mode feedback) s.
Proof.
  intros Hk.
  unfold guards, unboxing_mismatch, assumption_mismatch,
    unboxed_value_mismatch, is_small_integer, has_map, instance_type_of,
    ReduceConvertObjectToPrimitiveOrDeopt.
  cbv zeta.
  unfold bind at 1. rewrite ObjectIsSmi_run.
  unfold IF at 1. rewrite IsSmi_truth.
  destruct (Z.even object); [unfold ret; guarded|].
  unfold ConvertHeapObjectToFloat64OrDeopt.
  unfold bind at 1. unfold bind at 1. unfold bind at 1. rewrite LoadMapField_run.
  destruct Hk as [<-|[<-|[<-|[]]]].
  - unfold DeoptimizeIfNot.
    destruct (truth (TaggedEqual T _ _)); [|guarded].
    rewrite LoadField_run. unfold ret. guarded.
  - unfold IF_NOT.
    destruct (truth (TaggedEqual T _ (heap_number_map factory_))); cbn [orb].
    + unfold ret at 1. rewrite LoadField_run. unfold ret. guarded.
    + unfold DeoptimizeIfNot.
      destruct (truth (TaggedEqual T _ _)); [|guarded].
      rewrite LoadField_run. unfold ret. guarded.
  - unfold IF_NOT.
    destruct (truth (TaggedEqual T _ (heap_number_map factory_))); cbn [orb].
    + unfold ret at 1. rewrite LoadField_run. unfold ret. guarded.
    + unfold bind at 1. rewrite LoadField_run. unfold DeoptimizeIfNot.
      destruct (truth (Word32Equal _ _)); [|guarded].
      rewrite LoadField_run. unfold ret. guarded.
Qed.

Lemma unboxing_to_ArrayIndex :
  guards
    (unboxing_mismatch T L factory_ s object
       ConvertObjectToPrimitiveOrDeoptOp.ObjectKind.kNumberOrString
       ConvertObjectToPrimitiveOrDeoptOp.PrimitiveKind.kArrayIndex mode)
    frame_state feedback
    (ReduceConvertObjectToPrimitiveOrDeopt T L factory_ object frame_state
       ConvertObjectToPrimitiveOrDeoptOp.ObjectKind.kNumberOrString
       ConvertObjectToPrimitiveOrDeoptOp.PrimitiveKind.kArrayIndex mode feedback) s.
Proof.
  unfold guards, unboxing_mismatch, assumption_mismatch,
    unboxed_value_mismatch, array_index_mismatch, is_small_integer, has_map,
    instance_type_of, ReduceConvertObjectToPrimitiveOrDeopt.
  cbv zeta.
  unfold bind at 1. cbn [DCHECK].
  unfold bind at 1. rewrite ObjectIsSmi_run.
  unfold IF at 1. rewrite IsSmi_truth.
  destruct (Z.even object); [unfold ret; guarded|].
  unfold bind at 1. rewrite LoadMapField_run.
  unfold IF at 1.
  destruct (truth (TaggedEqual T _ (heap_number_map factory_))); cbn [orb].
  - unfold bind at 1. rewrite LoadField_run.
    destruct (Is64 T) eqn:H64; cbn [andb].
    + unfold bind, DeoptimizeIfNot, ret,
        TruncateFloat64ToInt64OverflowUndefined, ChangeInt64ToFloat64.
      destruct (truth (Float64Equal _ _)); cbn [negb]; [|guarded].
      unfold IntPtrLessThan. rewrite !IntLessThan_truth.
      unfold WordPtrBits. rewrite H64.
      destruct (_ <? _); cbn [andb negb]; [|guarded].
      destruct (_ <? _); cbn [negb]; guarded.
    + unfold bind, DeoptimizeIfNot, ret,
        TruncateFloat64ToInt32OverflowUndefined, ChangeInt32ToFloat64.
      destruct (truth (Float64Equal _ _)); cbn [negb]; guarded.
  - unfold bind at 1. rewrite LoadField_run.
    unfold bind at 1. unfold DeoptimizeIfNot at 1.
    destruct (truth (Uint32LessThan _ _)); [|guarded].
    unfold bind at 1. unfold CallStringToArrayIndex at 1.
    unfold DeoptimizeIf, ret, WordPtrEqual, ChangeInt32ToIntPtr.
    rewrite Equal_truth, signed_wrap by lia.
    rewrite minus_one_as_pointer.
    + destruct (_ =? -1); guarded.
    + unfold WordPtrBits. destruct (Is64 T); lia.
    + pose proof (signed_range 32 (string_to_array_index_function T (memory s) object)
                    ltac:(lia)) as H.
      change (2 ^ (32 - 1)) with (2 ^ 31) in H. exact H.
Qed.

Lemma ReduceConvertObjectToPrimitiveOrDeopt_guards from_kind to_kind :
  contract T (ConvertObjectToPrimitiveOrDeopt object frame_state from_kind to_kind mode
                feedback) = true ->
  guards (unboxing_mismatch T L factory_ s object from_kind to_kind mode)
    frame_state feedback
    (ReduceConvertObjectToPrimitiveOrDeopt T L factory_ object frame_state from_kind
       to_kind mode feedback) s.
Proof.
  destruct to_kind, from_kind; cbn [contract]; intros Hc; try discriminate Hc;
    first [ exact unboxing_Smi_to_Int32
          | exact unboxing_Number_to_Int32
          | exact unboxing_Number_to_Int64
          | exact unboxing_to_ArrayIndex
          | apply unboxing_to_Float64; simpl; tauto ].
Qed.

End Unboxing.

(** A request within the contract whose handler has no guard returns. *)
Lemma unguarded_handler_returns T L factory_ request s :
  contract T request = true ->
  resumption request = None ->
  exists a s', handler T L factory_ request s = Returned a s'.
Proof.
  intros Hc Hr. apply exits_nowhere.
  destruct request; try discriminate Hr; unfold handler.
  - pose proof (exits_ReduceObjectIs [] T L factory_ input kind input_assumptions) as H.
    rewrite Hc in H. exact H.
  - pose proof (exits_ReduceConvertToObject [] T L factory_ input kind input_rep
                  input_interpretation minus_zero_mode) as H.
    rewrite Hc in H. exact H.
  - pose proof (exits_ReduceConvertObjectToPrimitive [] T L factory_ object kind
                  input_assumptions) as H.
    rewrite Hc in H. exact H.
  - apply exits_ReduceNewConsString.
  - apply exits_ReduceNewArray.
  - apply exits_ReduceDoubleArrayMinMax.
  - apply exits_ReduceLoadFieldByIndex.
Qed.

(** The exits of the handlers carry reasons of the vocabulary. *)
Lemma handler_exits_by_deoptimization T L factory_ request :
  exits_by_deoptimization deoptimization_vocabulary (negb (contract T request))
    (handler T L factory_ request).
Proof.
  destruct request; unfold handler.
  - apply exits_ReduceChangeOrDeopt.
  - apply exits_ReduceObjectIs.
  - apply exits_ReduceConvertToObject.
  - apply exits_ReduceConvertObjectToPrimitive.
  - apply exits_ReduceConvertObjectToPrimitiveOrDeopt.
  - apply exits_ReduceNewConsString.
  - apply exits_ReduceNewArray.
  - apply exits_ReduceDoubleArrayMinMax.
  - apply exits_ReduceLoadFieldByIndex.
Qed.

(** The handler of a request within the contract takes a deoptimization exit
    only on a runtime-data mismatch, with the reason of the mismatch and the
    frame state and feedback of the request, and returns only without one. *)
Lemma handler_guards T L factory_ request s :
  contract T request = true ->
  match handler T L factory_ request s with
  | Returned _ _ => runtime_data_mismatch T L factory_ request s = None
  | Deoptimized reason frame_state feedback =>
      runtime_data_mismatch T L factory_ request s = Some reason
      /\ resumption request = Some (frame_state, feedback)
  | Fatal => False
  end.
Proof.
  intros Hc.
  assert (Hreturns :
            resumption request = None ->
            runtime_data_mismatch T L factory_ request s = None ->
            match handler T L factory_ request s with
            | Returned _ _ => runtime_data_mismatch T L factory_ request s = None
            | Deoptimized reason frame_state feedback =>
                runtime_data_mismatch T L factory_ request s = Some reason
                /\ resumption request = Some (frame_state, feedback)
            | Fatal => False
            end).
  { intros Hr Hm.
    destruct (unguarded_handler_returns T L factory_ request s Hc Hr) as (a & s' & ->).
    exact Hm. }
  destruct request; try (apply Hreturns; reflexivity).
  - pose proof (ReduceChangeOrDeopt_guards T input frame_state kind minus_zero_mode
                  feedback s) as H.
    unfold guards in H. unfold handler, runtime_data_mismatch, resumption.
    destruct (ReduceChangeOrDeopt T input frame_state kind minus_zero_mode feedback s)
      as [a s'|reason frame_state' feedback'|].
    + apply H.
    + destruct H as (H & -> & ->). split; [exact H | reflexivity].
    + exact H.
  - pose proof (ReduceConvertObjectToPrimitiveOrDeopt_guards T L factory_ object
                  frame_state feedback minus_zero_mode s from_kind to_kind Hc) as H.
    unfold guards in H. unfold handler, runtime_data_mismatch, resumption.
    destruct (ReduceConvertObjectToPrimitiveOrDeopt T L factory_ object frame_state
                from_kind to_kind minus_zero_mode feedback s)
      as [a s'|reason frame_state' feedback'|].
    + apply H.
    + destruct H as (H & -> & ->). split; [exact H | reflexivity].
    + exact H.
Qed.

(** The contract asks no more than the assertions do: the handler of a
    request outside it has an assertion that fails, on the path that the
    input 1 (a heap object, and not zero) takes, in every state. *)
Lemma assertion_outside_the_contract T L factory_ request :
  contract T request = false ->
  contract T (with_input request 1) = false
  /\ forall s, handler T L factory_ (with_input request 1) s = Fatal.
Proof.
  intros Hc. split; [destruct request; exact Hc|]. intros s.
  destruct request; cbn [contract] in Hc; try discriminate Hc;
    cbn [with_input handler].
  - destruct kind; try discriminate Hc; destruct input_assumptions;
      unfold ReduceObjectIs;
      cbn [ObjectIsOp_Kind_is_BigInt64 ObjectIsOp_InputAssumptions_is_BigInt implb];
      rewrite Hc; reflexivity.
  - destruct kind, input_rep, input_interpretation; try discriminate Hc;
      unfold ReduceConvertToObject; rewrite ?Hc; try reflexivity;
      unfold AllocateBigInt;
      destruct (Is64 T); try discriminate Hc;
      destruct (BigInt_HasOptionalPadding L); reflexivity.
  - destruct kind, input_assumptions; try discriminate Hc; reflexivity.
  - destruct to_kind, from_kind; try discriminate Hc; reflexivity.
Qed.

(** The unboxing to float64 of an object assumed to be a Smi: the assertion
    on the kind stands behind the test of the tag, on the path of a heap
    object, and stops the request whatever the object is, a Smi too. *)
Example assertions_are_checked_while_emitting :
  let request :=
    ConvertObjectToPrimitiveOrDeopt (5 * 2 ^ 32) 7
      ConvertObjectToPrimitiveOrDeoptOp.ObjectKind.kSmi
      ConvertObjectToPrimitiveOrDeoptOp.PrimitiveKind.kFloat64
      kDontCheckForMinusZero 9 in
  truth (IsSmi (5 * 2 ^ 32)) = true
  /\ contract x64 request = false
  /\ Reduce x64 layout64 roots request empty_heap = Fatal.
Proof. repeat split; reflexivity. Qed.

(** Values that do not convert leave through the exit; none is returned: an
    unsigned 2^31 as int32, a float64 beyond int32, and a string for which
    the string-to-index function answers -1. *)
Example mismatches_deoptimize :
  Reduce x64 layout64 roots
    (ChangeOrDeopt (2 ^ 31) 7 ChangeOrDeoptOp.kUint32ToInt32 kDontCheckForMinusZero 9)
    empty_heap
  = Deoptimized DeoptimizeReason.kLostPrecision 7 9
  /\ Reduce x64 layout64 roots
       (ChangeOrDeopt (Float64.of_Z (2 ^ 31)) 7 ChangeOrDeoptOp.kFloat64ToInt32
          kDontCheckForMinusZero 9)
       empty_heap
     = Deoptimized DeoptimizeReason.kLostPrecisionOrNaN 7 9
  /\ Reduce x64 layout64 roots
       (ConvertObjectToPrimitiveOrDeopt 0x4001 7
          ConvertObjectToPrimitiveOrDeoptOp.ObjectKind.kNumberOrString
          ConvertObjectToPrimitiveOrDeoptOp.PrimitiveKind.kArrayIndex
          kDontCheckForMinusZero 9)
       string_heap
     = Deoptimized DeoptimizeReason.kNotAnArrayIndex 7 9.
Proof. repeat split; vm_compute; reflexivity. Qed.

(** C1.  For every handler and every input, reducing the request and running
    the emitted subgraph comes to one of three outcomes.  It returns a value
    only if the request meets the compile-time contract of its handler and the
    data of the run show no mismatch: a runtime-data mismatch is never
    returned as a value.  It leaves through a deoptimization exit only on a
    runtime-data mismatch, with the reason of that mismatch, which is one of
    the fixed vocabulary (lost precision, lost precision or NaN, minus zero,
    not a heap number, not a number or boolean, not a number or oddball, not a
    string, not an array index, not a Smi), and with the frame state and the
    feedback of the request.  The only other outcome, a failed assertion,
    occurs for no request that meets the contract, whatever the run-time
    data: so a request within the contract deoptimizes exactly when its data
    show a mismatch. *)
Theorem deoptimization_is_the_only_failure_channel
    (T : Target) (L : Layout) (factory_ : Factory) (request : Request) (s : State) :
  match Reduce T L factory_ request s with
  | Returned _ _ =>
      contract T request = true
      /\ runtime_data_mismatch T L factory_ request s = None
  | Deoptimized reason frame_state feedback =>
      contract T request = true
      /\ runtime_data_mismatch T L factory_ request s = Some reason
      /\ In reason deoptimization_vocabulary
      /\ resumption request = Some (frame_state, feedback)
  | Fatal => contract T request = false
  end.
Proof.
  unfold Reduce.
  destruct (contract T request) eqn:Hc; [|reflexivity].
  pose proof (handler_guards T L factory_ request s Hc) as Hg.
  pose proof (handler_exits_by_deoptimization T L factory_ request s) as He.
  destruct (handler T L factory_ request s) as [a s'|reason frame_state feedback|].
  - split; [reflexivity | exact Hg].
  - destruct Hg as [Hm Hr]. repeat split; assumption.
  - destruct Hg.
Qed.

(** ** Loads after stores *)

Lemma byte_index_involutive be size k :
  Memory.byte_index be size (Memory.byte_index be size k) = k.
Proof. unfold Memory.byte_index. destruct be; lia. Qed.

Lemma byte_index_range be size k :
  0 <= k < size -> 0 <= Memory.byte_index be size k < size.
Proof. unfold Memory.byte_index. destruct be; lia. Qed.

(** A byte of a stored value. *)
Lemma store_byte be size addr v m k :
  0 <= k < size ->
  Memory.store be size addr v m (addr + Memory.byte_index be size k)
  = (v / 256 ^ k) mod 256.
Proof.
  intros Hk. pose proof (byte_index_range be size k Hk) as Hi.
  unfold Memory.store.
  destruct (Z.leb_spec addr (addr + Memory.byte_index be size k)); [|lia].
  destruct (Z.ltb_spec (addr + Memory.byte_index be size k) (addr + size)); [|lia].
  cbn [andb].
  replace (addr + Memory.byte_index be size k - addr)
    with (Memory.byte_index be size k) by lia.
  rewrite byte_index_involutive. reflexivity.
Qed.

Lemma store_outside be size addr v m a :
  a < addr \/ addr + size <= a -> Memory.store be size addr v m a = m a.
Proof.
  intros H. unfold Memory.store.
  destruct (Z.leb_spec addr a); destruct (Z.ltb_spec a (addr + size));
    cbn [andb]; try reflexivity; lia.
Qed.

Lemma load_digits_store_same be size addr v m n k :
  0 <= k -> k + Z.of_nat n <= size ->
  Memory.load_digits (Memory.store be size addr v m) be size addr n k
  = (v / 256 ^ k) mod 256 ^ Z.of_nat n.
Proof.
  revert k. induction n as [|n IH]; intros k Hk Hn.
  - cbn [Memory.load_digits]. change (256 ^ Z.of_nat 0) with 1.
    rewrite Z.mod_1_r. reflexivity.
  - cbn [Memory.load_digits].
    rewrite store_byte by lia. rewrite Z.mod_mod by lia.
    rewrite IH by lia.
    rewrite Nat2Z.inj_succ, Z.pow_succ_r by lia.
    rewrite (Z.rem_mul_r (v / 256 ^ k) 256 (256 ^ Z.of_nat n)) by lia.
    rewrite Z.div_div by lia.
    rewrite Z.pow_add_r by lia. change (256 ^ 1) with 256.
    reflexivity.
Qed.

Lemma load_store_same be size addr v m :
  0 <= size ->
  Memory.load be size addr (Memory.store be size addr v m) = v mod 256 ^ size.
Proof.
  intros Hs. unfold Memory.load.
  rewrite load_digits_store_same by lia.
  rewrite Z2Nat.id by lia. rewrite Z.pow_0_r, Z.div_1_r. reflexivity.
Qed.

Lemma load_digits_store_other be size addr v m be' size' addr' n k :
  0 <= k -> k + Z.of_nat n <= size' ->
  addr' + size' <= addr \/ addr + size <= addr' ->
  Memory.load_digits (Memory.store be size addr v m) be' size' addr' n k
  = Memory.load_digits m be' size' addr' n k.
Proof.
  revert k. induction n as [|n IH]; intros k Hk Hn Hd.
  - reflexivity.
  - cbn [Memory.load_digits].
    pose proof (byte_index_range be' size' k ltac:(lia)) as Hi.
    rewrite store_outside by lia.
    rewrite IH by lia. reflexivity.
Qed.

Lemma load_store_other be size addr v m be' size' addr' :
  0 <= size' ->
  addr' + size' <= addr \/ addr + size <= addr' ->
  Memory.load be' size' addr' (Memory.store be size addr v m)
  = Memory.load be' size' addr' m.
Proof.
  intros Hs Hd. unfold Memory.load.
  apply load_digits_store_other; lia.
Qed.

Lemma pow_256 n : 0 <= n -> 256 ^ n = 2 ^ (8 * n).
Proof. intros Hn. rewrite Z.pow_mul_r by lia. reflexivity. Qed.

Lemma SizeInBytes_nonneg T rep : 0 <= kTaggedSize T -> 0 <= SizeInBytes T rep.
Proof. intros H. destruct rep; cbn; lia. Qed.

Lemma load_value_store_value_same T rep addr v m :
  0 <= kTaggedSize T -> unsigned_rep rep = true ->
  load_value T rep addr (store_value T rep addr v m) = wrap (8 * SizeInBytes T rep) v.
Proof.
  intros Ht Hu. pose proof (SizeInBytes_nonneg T rep Ht) as Hs.
  unfold load_value, store_value. rewrite load_store_same by exact Hs.
  rewrite pow_256 by exact Hs.
  fold (wrap (8 * SizeInBytes T rep) (wrap (8 * SizeInBytes T rep) v)).
  rewrite wrap_wrap by lia.
  destruct rep; try reflexivity; discriminate Hu.
Qed.

Lemma load_value_store_value_other T rep addr v m rep' addr' :
  0 <= kTaggedSize T ->
  addr' + SizeInBytes T rep' <= addr \/ addr + SizeInBytes T rep <= addr' ->
  load_value T rep' addr' (store_value T rep addr v m) = load_value T rep' addr' m.
Proof.
  intros Ht Hd. pose proof (SizeInBytes_nonneg T rep' Ht) as Hs.
  unfold load_value, store_value. rewrite load_store_other by assumption.
  reflexivity.
Qed.

(** ** Exact integer to float64 conversion *)

Lemma digits2_pos_bounds p :
  2 ^ (Zpos (digits2_pos p) - 1) <= Zpos p < 2 ^ Zpos (digits2_pos p).
Proof.
  induction p as [p IH | p IH |]; cbn [digits2_pos].
  - rewrite Pos2Z.inj_succ. replace (Z.succ (Zpos (digits2_pos p)) - 1) with (Z.succ (Zpos (digits2_pos p) - 1)) by lia.
    rewrite !Z.pow_succ_r by lia. lia.
  - rewrite Pos2Z.inj_succ. replace (Z.succ (Zpos (digits2_pos p)) - 1) with (Z.succ (Zpos (digits2_pos p) - 1)) by lia.
    rewrite !Z.pow_succ_r by lia. lia.
  - cbn. lia.
Qed.

Lemma iter_xO_mul p k : Zpos (Pos.iter xO p k) = Zpos p * 2 ^ Zpos k.
Proof.
  induction k as [|k IH] using Pos.peano_ind.
  - cbn. lia.
  - rewrite Pos.iter_succ, Pos2Z.inj_xO, IH, Pos2Z.inj_succ, Z.pow_succ_r by lia. lia.
Qed.

Lemma digits2_pos_iter_xO p k :
  digits2_pos (Pos.iter xO p k) = (digits2_pos p + k)%positive.
Proof.
  induction k as [|k IH] using Pos.peano_ind.
  - cbn. lia.
  - rewrite Pos.iter_succ. cbn [digits2_pos]. rewrite IH. lia.
Qed.

Lemma binary_normalize_small p :
  Zpos (digits2_pos p) < 53 ->
  let k := Z.to_pos (53 - Zpos (digits2_pos p)) in
  binary_normalize 53 1024 (Zpos p) 0 false
  = S754_finite false (Pos.iter xO p k) (- Zpos k).
Proof.
  intros Hd k.
  assert (Hk : Zpos k = 53 - Zpos (digits2_pos p)) by (subst k; rewrite Z2Pos.id; lia).
  unfold binary_normalize, binary_round, shl_align, fexp, emin.
  replace (Z.max (Z.pos (digits2_pos p) + 0 - 53) (3 - 1024 - 53) - 0) with (Zneg k) by lia.
  replace (Z.max (Z.pos (digits2_pos p) + 0 - 53) (3 - 1024 - 53)) with (- Zpos k) by lia.
  unfold binary_round_aux, shr_fexp, fexp, emin. cbn [Zdigits2 shr_record_of_loc].
  rewrite digits2_pos_iter_xO.
  replace (Z.max (Z.pos (digits2_pos p + k) + - Z.pos k - 53) (3 - 1024 - 53) - - Z.pos k) with 0 by lia.
  cbn [shr shr_m loc_of_shr_record round_nearest_even Zdigits2].
  rewrite digits2_pos_iter_xO.
  replace (Z.max (Z.pos (digits2_pos p + k) + - Z.pos k - 53) (3 - 1024 - 53) - - Z.pos k) with 0 by lia.
  cbn [shr shr_m].
  destruct (Z.leb_spec (- Z.pos k) (1024 - 53)); [reflexivity | lia].
Qed.

Lemma of_bits_to_bits_normal m e :
  2 ^ 52 <= Zpos m < 2 ^ 53 -> -1075 < e < 972 ->
  Float64.of_bits (Float64.to_bits (S754_finite false m e)) = S754_finite false m e.
Proof.
  intros Hm He. unfold Float64.to_bits, Float64.sign_bit.
  destruct (Z.ltb_spec (Zpos m) (2 ^ 52)); [lia|].
  set (b := 0 + (e + 1075) * 2 ^ 52 + (Z.pos m - 2 ^ 52)).
  change (2 ^ 52) with 4503599627370496 in *.
  change (2 ^ 53) with 9007199254740992 in *.
  assert (Hq : b / 4503599627370496 = e + 1075)
    by (symmetry; apply Z.div_unique with (Zpos m - 4503599627370496); subst b; lia).
  assert (Hr : b mod 4503599627370496 = Zpos m - 4503599627370496)
    by (symmetry; apply Z.mod_unique with (e + 1075); subst b; lia).
  assert (Hb : 0 <= b < 2 ^ 63)
    by (change (2 ^ 63) with 9223372036854775808; subst b; lia).
  unfold Float64.of_bits.
  rewrite (wrap_small 64 b) by (change (2 ^ 64) with (2 * 2 ^ 63); lia).
  change (2 ^ 52) with 4503599627370496.
  rewrite Hq, Hr.
  change (2 ^ 11) with 2048.
  rewrite (Z.mod_small (e + 1075) 2048) by lia.
  destruct (Z.leb_spec (2 ^ 63) b); [lia|].
  destruct (Z.eqb_spec (e + 1075) 0); [lia|].
  destruct (Z.eqb_spec (e + 1075) 2047); [lia|].
  f_equal; [|lia].
  replace (Z.pos m - 4503599627370496 + 4503599627370496) with (Zpos m) by lia.
  reflexivity.
Qed.

(** A positive integer below 2^52 is normalized without rounding. *)
Lemma of_Z_normal x :
  0 < x < 2 ^ 52 ->
  exists m k,
    Float64.of_Z x = Float64.to_bits (S754_finite false m (- Zpos k))
    /\ 2 ^ 52 <= Zpos m < 2 ^ 53
    /\ Zpos k < 53
    /\ Zpos m = x * 2 ^ Zpos k.
Proof.
  intros Hx. destruct x as [|p|p]; [lia | | lia].
  pose proof (digits2_pos_bounds p) as Hd.
  assert (Hlt : Zpos (digits2_pos p) < 53).
  { destruct (Z_lt_le_dec (Zpos (digits2_pos p)) 53) as [|Hge]; [assumption|].
    assert (2 ^ 52 <= 2 ^ (Zpos (digits2_pos p) - 1)) by (apply Z.pow_le_mono_r; lia).
    lia. }
  unfold Float64.of_Z, Float64.prec, Float64.emax.
  rewrite (binary_normalize_small p Hlt). cbv zeta.
  set (k := Z.to_pos (53 - Zpos (digits2_pos p))).
  assert (Hk : Zpos k = 53 - Zpos (digits2_pos p)) by (subst k; rewrite Z2Pos.id; lia).
  assert (Hm : Zpos (Pos.iter xO p k) = Zpos p * 2 ^ Zpos k) by apply iter_xO_mul.
  assert (Hpow : 2 ^ (Zpos (digits2_pos p) - 1) * 2 ^ Zpos k = 2 ^ 52).
  { rewrite <- Z.pow_add_r by lia. f_equal. lia. }
  assert (Hpow' : 2 ^ Zpos (digits2_pos p) * 2 ^ Zpos k = 2 ^ 53).
  { rewrite <- Z.pow_add_r by lia. f_equal. lia. }
  assert (H2k : 0 < 2 ^ Zpos k) by (apply Z.pow_pos_nonneg; lia).
  exists (Pos.iter xO p k), k.
  split; [reflexivity|]. split; [split; nia|]. split; [lia | exact Hm].
Qed.

(** Integers below 2^52 convert to float64 without rounding. *)
Lemma of_Z_exact x :
  0 <= x < 2 ^ 52 ->
  Float64.integer_value (Float64.of_bits (Float64.of_Z x)) = Some x.
Proof.
  intros Hx. destruct (Z.eq_dec x 0) as [->|Hne]; [reflexivity|].
  destruct (of_Z_normal x ltac:(lia)) as (m & k & -> & Hm & Hk & Hv).
  rewrite of_bits_to_bits_normal by lia.
  unfold Float64.integer_value.
  destruct (Z.leb_spec 0 (- Zpos k)); [lia|].
  rewrite Z.opp_involutive, Hv.
  assert (H2k : 0 < 2 ^ Zpos k) by (apply Z.pow_pos_nonneg; lia).
  rewrite Z.mod_mul by lia. rewrite Z.eqb_refl.
  rewrite Z.div_mul by lia.
  destruct (Z.ltb_spec x 0); [lia | reflexivity].
Qed.

Lemma of_Z_pattern_range x : 0 <= x < 2 ^ 52 -> 0 <= Float64.of_Z x < 2 ^ 64.
Proof.
  intros Hx. destruct (Z.eq_dec x 0) as [->|Hne]; [cbn; lia|].
  destruct (of_Z_normal x ltac:(lia)) as (m & k & -> & Hm & Hk & Hv).
  unfold Float64.to_bits, Float64.sign_bit.
  destruct (Z.ltb_spec (Zpos m) (2 ^ 52)); [lia|].
  change (2 ^ 52) with 4503599627370496 in *.
  change (2 ^ 53) with 9007199254740992 in *.
  change (2 ^ 64) with 18446744073709551616. lia.
Qed.

(** ** Boxing numbers *)

Lemma WordPtrBits_cases T : WordPtrBits T = 32 \/ WordPtrBits T = 64.
Proof. unfold WordPtrBits. destruct (Is64 T); auto. Qed.

Lemma signed_zero w : 0 < w -> signed w 0 = 0.
Proof. intros Hw. apply signed_small; [lia|]. split; [lia|]. apply Z.pow_pos_nonneg; lia. Qed.

Lemma address_field T base off :
  0 <= base - 1 + off < 2 ^ WordPtrBits T ->
  address T base 0 off 0 = base - 1 + off.
Proof.
  intros H. unfold address, kHeapObjectTag.
  rewrite signed_zero by (destruct (WordPtrBits_cases T) as [-> | ->]; lia).
  rewrite Z.mul_0_l, Z.add_0_r. apply wrap_small. exact H.
Qed.

Lemma SmiTag_small T input :
  Smi_layout T = true -> 0 <= input <= Smi_kMaxValue T ->
  SmiTag T input = input * 2 ^ (kSmiShiftSize T + kSmiTagSize)
  /\ SmiUntag T (SmiTag T input) = input.
Proof.
  unfold Smi_layout, Smi_kMaxValue, kSmiValueSize, SmiTag, SmiUntag, kSmiShiftSize,
    kSmiTagSize, TaggedBits.
  intros Hl Hi.
  destruct (SmiValuesAre32Bits T).
  - apply Z.eqb_eq in Hl. rewrite Hl.
    change (2 ^ (32 - 1) - 1) with 2147483647 in Hi.
    change (31 + 1) with 32. change (8 * 8) with 64.
    rewrite (signed_small 32 input) by (cbn; lia).
    rewrite Z.shiftl_mul_pow2 by lia.
    change (2 ^ 32) with 4294967296.
    rewrite (wrap_small 64 (input * 4294967296)) by (cbn; lia).
    split; [reflexivity|].
    rewrite (signed_small 64) by (cbn; lia).
    rewrite Z.shiftr_div_pow2 by lia. change (2 ^ 32) with 4294967296.
    rewrite Z.div_mul by lia. apply wrap_small. cbn; lia.
  - apply andb_prop in Hl as [H4 H8]. apply Z.leb_le in H4, H8.
    change (2 ^ (31 - 1) - 1) with 1073741823 in Hi.
    change (0 + 1) with 1.
    rewrite (signed_small 32 input) by (cbn; lia).
    rewrite Z.shiftl_mul_pow2 by lia. change (2 ^ 1) with 2.
    assert (Hp' : 2 ^ (8 * kTaggedSize T) = 2 ^ (8 * kTaggedSize T - 1) * 2).
    { replace (8 * kTaggedSize T) with (Z.succ (8 * kTaggedSize T - 1)) at 1 by lia.
      rewrite Z.pow_succ_r by lia. lia. }
    assert (Hp : 2 ^ 32 <= 2 ^ (8 * kTaggedSize T - 1) * 2).
    { rewrite <- Hp'. apply Z.pow_le_mono_r; lia. }
    change (2 ^ 32) with 4294967296 in Hp.
    rewrite (wrap_small _ (input * 2)) by lia.
    split; [reflexivity|].
    rewrite (signed_small (8 * kTaggedSize T)) by lia.
    rewrite Z.shiftr_div_pow2 by lia. change (2 ^ 1) with 2.
    rewrite Z.div_mul by lia. apply wrap_small. cbn; lia.
Qed.

Lemma tagged_rep_size T rep : tagged_rep rep = true -> SizeInBytes T rep = kTaggedSize T.
Proof. destruct rep; intros H; try discriminate H; reflexivity. Qed.

Lemma tagged_rep_unsigned rep : tagged_rep rep = true -> unsigned_rep rep = true.
Proof. destruct rep; intros H; try discriminate H; reflexivity. Qed.

Lemma MemoryRepresentation_eqb_eq a b : MemoryRepresentation_eqb a b = true -> a = b.
Proof. destruct a, b; intros H; try discriminate H; reflexivity. Qed.

(** What [AllocateHeapNumberWithValue] builds. *)
Lemma AllocateHeapNumberWithValue_run T L factory_ value s :
  HeapNumber_layout T L = true ->
  heap_has_room T s (HeapNumber_kSize L) ->
  exists s',
    AllocateHeapNumberWithValue T L factory_ value s
    = Returned (allocation_top s + kHeapObjectTag) s'
    /\ allocations s' = (allocation_top s, HeapNumber_kSize L) :: allocations s
    /\ field_value T s' (allocation_top s + kHeapObjectTag) (ForMap L)
       = wrap (TaggedBits T) (heap_number_map factory_)
    /\ field_value T s' (allocation_top s + kHeapObjectTag) (ForHeapNumberValue L)
       = wrap 64 value.
Proof.
  unfold HeapNumber_layout, heap_has_room. intros Hl [Htop Hroom].
  repeat (apply andb_prop in Hl as [Hl ?]).
  repeat match goal with
         | H : (_ <=? _) = true |- _ => apply Z.leb_le in H
         | H : MemoryRepresentation_eqb _ _ = true |- _ =>
             apply MemoryRepresentation_eqb_eq in H
         end.
  set (top := allocation_top s) in *.
  assert (Hsize : wrap (WordPtrBits T) (HeapNumber_kSize L) = HeapNumber_kSize L)
    by (apply wrap_small; lia).
  assert (Hbase : wrap (WordPtrBits T) (top + kHeapObjectTag) = top + kHeapObjectTag)
    by (apply wrap_small; unfold kHeapObjectTag; lia).
  unfold AllocateHeapNumberWithValue, bind, Allocate, StoreField, Store, ret.
  fold top. rewrite Hsize, Hbase.
  eexists. split; [reflexivity|]. split; [reflexivity|].
  unfold field_value. cbn [memory].
  rewrite !address_field by (unfold kHeapObjectTag; lia).
  unfold kHeapObjectTag.
  split.
  - rewrite load_value_store_value_other.
    + rewrite load_value_store_value_same
        by (try apply tagged_rep_unsigned; assumption).
      rewrite tagged_rep_size by assumption. reflexivity.
    + assumption.
    + left. rewrite tagged_rep_size by assumption. lia.
  - rewrite load_value_store_value_same.
    + match goal with H : machine_type _ = kFloat64 |- _ => rewrite H end. reflexivity.
    + assumption.
    + match goal with H : machine_type _ = kFloat64 |- _ => rewrite H end. reflexivity.
Qed.

(** C5.  Boxing an unsigned 32-bit input as a number: an input up to the
    Smi maximum yields the Smi tag of the input, and the state, with its
    allocation log, is left as it was; a larger input yields one freshly
    allocated heap number (the only entry added to the allocation log) whose
    map is the heap-number map and whose payload is a float64 denoting
    exactly the input. *)
Theorem uint32_boxed_as_smi_or_heap_number
    (T : Target) (L : Layout) (factory_ : Factory) (input : Z)
    (mode : CheckForMinusZeroMode) (s : State) :
  0 <= input < 2 ^ 32 ->
  Smi_layout T = true ->
  HeapNumber_layout T L = true ->
  heap_has_room T s (HeapNumber_kSize L) ->
  let box :=
    ReduceConvertToObject T L factory_ input ConvertToObjectOp.Kind.kNumber Word32
      ConvertToObjectOp.InputInterpretation.kUnsigned mode s in
  (input <= Smi_kMaxValue T ->
   box = Returned (SmiTag T input) s
   /\ SmiTag T input = input * 2 ^ (kSmiShiftSize T + kSmiTagSize)
   /\ SmiUntag T (SmiTag T input) = input)
  /\ (Smi_kMaxValue T < input ->
      exists s',
        let number := allocation_top s + kHeapObjectTag in
        box = Returned number s'
        /\ allocations s' = (allocation_top s, HeapNumber_kSize L) :: allocations s
        /\ field_value T s' number (ForMap L)
           = wrap (TaggedBits T) (heap_number_map factory_)
        /\ field_value T s' number (ForHeapNumberValue L) = ChangeUint32ToFloat64 input
        /\ Float64.integer_value
             (Float64.of_bits (field_value T s' number (ForHeapNumberValue L)))
           = Some input).
Proof.
  intros Hin Hsmi Hlayout Hroom box.
  assert (Hmax : 0 <= Smi_kMaxValue T < 2 ^ 32).
  { unfold Smi_kMaxValue, kSmiValueSize. destruct (SmiValuesAre32Bits T); cbn; lia. }
  assert (Hcmp : truth (Uint32LessThanOrEqual input (Smi_kMaxValue T))
                 = (input <=? Smi_kMaxValue T)).
  { unfold Uint32LessThanOrEqual. rewrite UintLessThanOrEqual_truth.
    rewrite !wrap_small by assumption. reflexivity. }
  subst box. unfold ReduceConvertToObject. cbv zeta. unfold GOTO_IF. rewrite Hcmp.
  split.
  - intros Hle. apply Z.leb_le in Hle. rewrite Hle.
    split; [reflexivity|]. apply SmiTag_small; [assumption | lia].
  - intros Hgt. apply Z.leb_gt in Hgt. rewrite Hgt.
    destruct (AllocateHeapNumberWithValue_run T L factory_ (ChangeUint32ToFloat64 input) s
                Hlayout Hroom) as (s' & Hrun & Hlog & Hmap & Hvalue).
    exists s'. cbv zeta. unfold bind. rewrite Hrun. unfold ret.
    assert (Hpayload : wrap 64 (ChangeUint32ToFloat64 input) = ChangeUint32ToFloat64 input).
    { unfold ChangeUint32ToFloat64. rewrite (wrap_small 32 input) by assumption.
      apply wrap_small, of_Z_pattern_range.
      change (2 ^ 32) with 4294967296 in Hin.
      change (2 ^ 52) with 4503599627370496. lia. }
    repeat split; try assumption.
    + rewrite Hvalue. exact Hpayload.
    + rewrite Hvalue, of_bits_wrap. unfold ChangeUint32ToFloat64.
      rewrite (wrap_small 32 input) by assumption.
      apply of_Z_exact. change (2 ^ 32) with 4294967296 in Hin.
      change (2 ^ 52) with 4503599627370496. lia.
Qed.

Lemma uint32_boxed_as_smi_or_heap_number_witness :
  exists s',
    ReduceConvertToObject x64 layout64 roots 3000000000 ConvertToObjectOp.Kind.kNumber
      Word32 ConvertToObjectOp.InputInterpretation.kUnsigned kDontCheckForMinusZero
      empty_heap
    = Returned 0x100001 s'
    /\ allocations s' = [(0x100000, 16)]
    /\ field_value x64 s' 0x100001 (ForMap layout64) = 0x1101
    /\ field_value x64 s' 0x100001 (ForHeapNumberValue layout64) = 0x41E65A0BC0000000
    /\ Float64.integer_value
         (Float64.of_bits (field_value x64 s' 0x100001 (ForHeapNumberValue layout64)))
       = Some 3000000000.
Proof.
  refine (proj2 (uint32_boxed_as_smi_or_heap_number x64 layout64 roots 3000000000
                   kDontCheckForMinusZero empty_heap _ _ _ _) _).
  - lia.
  - reflexivity.
  - reflexivity.
  - unfold heap_has_room. simpl. lia.
  - reflexivity.
Defined.

Example uint32_five_is_tagged_inline :
  ReduceConvertToObject x64 layout64 roots 5 ConvertToObjectOp.Kind.kNumber Word32
    ConvertToObjectOp.InputInterpretation.kUnsigned kDontCheckForMinusZero empty_heap
  = Returned (5 * 2 ^ 32) empty_heap
  /\ ReduceConvertToObject x64_compressed layout_compressed roots 5
       ConvertToObjectOp.Kind.kNumber Word32
       ConvertToObjectOp.InputInterpretation.kUnsigned kDontCheckForMinusZero empty_heap
     = Returned 10 empty_heap.
Proof. split; reflexivity. Qed.

(** ** Boxing BigInts *)

Ltac layout_facts H :=
  repeat (apply andb_prop in H as [H ?]);
  repeat match goal with
         | H : (_ <=? _) = true |- _ => apply Z.leb_le in H
         | H : (_ =? _) = true |- _ => apply Z.eqb_eq in H
         | H : MemoryRepresentation_eqb _ _ = true |- _ =>
             apply MemoryRepresentation_eqb_eq in H
         end.

(** What [AllocateBigInt] builds, for the canonical zero ([n = 0], nothing
    passed) and for one digit ([n = 1]). *)
Lemma AllocateBigInt_run T L factory_ bitfield digit s :
  Is64 T = true ->
  BigInt_layout T L = true ->
  valid bitfield = valid digit ->
  let n := if valid digit then 1 else 0 in
  heap_has_room T s (BigInt_SizeFor L n) ->
  exists s',
    let bigint := allocation_top s + kHeapObjectTag in
    AllocateBigInt T L factory_ bitfield digit s = Returned bigint s'
    /\ allocations s' = (allocation_top s, BigInt_SizeFor L n) :: allocations s
    /\ allocation_top s' = allocation_top s + BigInt_SizeFor L n
    /\ field_value T s' bigint (ForMap L) = wrap (TaggedBits T) (bigint_map factory_)
    /\ field_value T s' bigint (ForBigIntBitfield L)
       = wrap 32 (match bitfield with Some b => b | None => 0 end)
    /\ (forall d, digit = Some d ->
        field_value T s' bigint (ForBigIntLeastSignificantDigit64 L) = wrap 64 d).
Proof.
  intros H64 Hl Hvalid n [Htop Hroom]. cbv zeta.
  assert (Hzero : update (BigInt_SignBits L) (encode (BigInt_LengthBits L) 0) 0 = 0).
  { unfold update, encode. rewrite !Z.shiftl_0_l. change (wrap 32 0) with 0.
    rewrite Z.land_0_l. reflexivity. }
  layout_facts Hl.
  set (top := allocation_top s) in *.
  assert (Hn : 0 <= n <= 1) by (subst n; destruct (valid digit); lia).
  assert (Hps : 0 <= SizeInBytes T (machine_type (ForBigIntOptionalPadding L)))
    by (apply SizeInBytes_nonneg; assumption).
  assert (Hsz : 4 <= BigInt_kHeaderSize L <= BigInt_SizeFor L n).
  { unfold BigInt_SizeFor.
    assert (4 <= BigInt_kHeaderSize L).
    { match goal with
      | H : _ + (if BigInt_HasOptionalPadding L then _ else _) <= _ |- _ => revert H
      end.
      destruct (BigInt_HasOptionalPadding L); lia. }
    assert (0 <= BigInt_kDigitSize L) by lia.
    assert (0 <= n * BigInt_kDigitSize L) by (apply Z.mul_nonneg_nonneg; lia).
    lia. }
  assert (Hsize : wrap (WordPtrBits T) (BigInt_SizeFor L n) = BigInt_SizeFor L n)
    by (apply wrap_small; lia).
  assert (Hbase : wrap (WordPtrBits T) (top + kHeapObjectTag) = top + kHeapObjectTag)
    by (apply wrap_small; unfold kHeapObjectTag; lia).
  unfold AllocateBigInt.
  unfold bind at 1. unfold DCHECK at 1. rewrite H64.
  unfold bind at 1. unfold DCHECK at 1. rewrite Hvalid, Bool.eqb_reflx.
  cbv zeta. rewrite Hzero.
  unfold bind at 1. unfold Allocate. fold top. fold n. rewrite Hsize, Hbase.
  destruct digit as [d|], bitfield as [b|]; try discriminate Hvalid;
    destruct (BigInt_HasOptionalPadding L) eqn:Hpad;
    unfold bind, StoreField, Store, ret;
    (eexists; split; [reflexivity|]; split; [reflexivity|]; split; [reflexivity|]);
    unfold field_value; cbn [memory];
    cbn [valid] in n; subst n; unfold BigInt_SizeFor in *;
    rewrite !address_field by (unfold kHeapObjectTag; lia);
    unfold kHeapObjectTag;
    repeat match goal with
           | H : machine_type _ = _ |- _ => rewrite H in *
           end;
    (split; [| split; [| intros d' Hd'; try discriminate Hd'; injection Hd' as <-]]);
    repeat (rewrite load_value_store_value_other
              by (try assumption; cbn [SizeInBytes];
                  rewrite ?tagged_rep_size by assumption; lia));
    rewrite load_value_store_value_same
      by first [assumption | reflexivity | apply tagged_rep_unsigned; assumption];
    rewrite ?tagged_rep_size by assumption; reflexivity.
Qed.

Lemma lxor_ones_complement n u :
  0 <= n -> 0 <= u < 2 ^ n -> Z.lxor u (Z.ones n) = Z.ones n - u.
Proof.
  intros Hn Hu.
  assert (Hdisj : Z.land u (Z.lxor u (Z.ones n)) = 0).
  { apply Z.bits_inj'. intros k Hk. rewrite Z.land_spec, Z.lxor_spec, Z.bits_0.
    destruct (Z_lt_le_dec k n).
    - rewrite Z.ones_spec_low by lia. destruct (Z.testbit u k); reflexivity.
    - assert (Z.testbit u k = false) as ->; [|reflexivity].
      destruct (Z.eq_dec u 0) as [->|Hne]; [apply Z.bits_0|].
      apply Z.bits_above_log2; [lia|].
      assert (Z.log2 u < n) by (apply Z.log2_lt_pow2; lia). lia. }
  pose proof (Z.add_nocarry_lxor _ _ Hdisj) as Hadd.
  rewrite <- Z.lxor_assoc, Z.lxor_nilpotent, Z.lxor_0_l in Hadd. lia.
Qed.

(** The branch-free absolute value of [ReduceConvertToObject]. *)
Lemma branchless_absolute_value input :
  let sign_mask := Word64ShiftRightArithmetic input 63 in
  Word64Sub (Word64BitwiseXor input sign_mask) sign_mask = Z.abs (signed 64 input).
Proof.
  cbv zeta.
  unfold Word64Sub, Sub, Word64BitwiseXor, BitwiseXor, Word64ShiftRightArithmetic,
    ShiftRightArithmetic, signed.
  pose proof (wrap_range 64 input ltac:(lia)) as Hu.
  set (u := wrap 64 input) in *.
  change (wrap 32 63 mod 64) with 63. change (2 ^ (64 - 1)) with (2 ^ 63).
  change (2 ^ 64) with 18446744073709551616 in *.
  change (2 ^ 63) with 9223372036854775808 in *.
  rewrite Z.shiftr_div_pow2 by lia. change (2 ^ 63) with 9223372036854775808.
  destruct (Z.ltb_spec u 9223372036854775808).
  - rewrite (Z.div_small u) by lia.
    rewrite !(wrap_small 64 0) by (cbn; lia).
    rewrite Z.lxor_0_r.
    rewrite !(wrap_small 64 u) by (change (2 ^ 64) with 18446744073709551616; lia).
    rewrite Z.sub_0_r.
    rewrite !(wrap_small 64 u) by (change (2 ^ 64) with 18446744073709551616; lia).
    lia.
  - assert ((u - 18446744073709551616) / 9223372036854775808 = -1) as ->.
    { symmetry. apply Z.div_unique with (u - 9223372036854775808); lia. }
    change (wrap 64 (-1)) with (Z.ones 64).
    rewrite !(wrap_small 64 (Z.ones 64)) by (cbn; lia).
    rewrite lxor_ones_complement
      by (change (2 ^ 64) with 18446744073709551616; lia).
    change (Z.ones 64) with 18446744073709551615.
    rewrite (wrap_small 64 (18446744073709551615 - u))
      by (change (2 ^ 64) with 18446744073709551616; lia).
    unfold wrap. change (2 ^ 64) with 18446744073709551616.
    replace (18446744073709551615 - u - 18446744073709551615) with (- u) by lia.
    rewrite Z.abs_neq by lia.
    symmetry. apply Z.mod_unique with (-1); lia.
Qed.

Lemma sign_shifted_down input :
  Word64ShiftRightLogical input 63 = bit (signed 64 input <? 0).
Proof.
  unfold Word64ShiftRightLogical, ShiftRightLogical, signed.
  pose proof (wrap_range 64 input ltac:(lia)) as Hu.
  set (u := wrap 64 input) in *.
  change (wrap 32 63 mod 64) with 63. change (2 ^ (64 - 1)) with (2 ^ 63).
  rewrite Z.shiftr_div_pow2 by lia.
  change (2 ^ 64) with 18446744073709551616 in *.
  change (2 ^ 63) with 9223372036854775808 in *.
  destruct (Z.ltb_spec u 9223372036854775808).
  - rewrite Z.div_small by lia. destruct (Z.ltb_spec u 0); [lia | reflexivity].
  - destruct (Z.ltb_spec (u - 18446744073709551616) 0); [|lia].
    symmetry. apply Z.div_unique with (u - 9223372036854775808); cbn [bit]; lia.
Qed.

Lemma length_mask_odd size : 1 <= size -> (2 ^ size - 1) mod 2 = 1.
Proof.
  intros Hs. replace size with (Z.succ (size - 1)) by lia.
  rewrite Z.pow_succ_r by lia.
  assert (0 < 2 ^ (size - 1)) by (apply Z.pow_pos_nonneg; lia).
  symmetry. apply Z.mod_unique with (2 ^ (size - 1) - 1); lia.
Qed.

Lemma land_1_l x : Z.land 1 x = x mod 2.
Proof. rewrite Z.land_comm. apply (Z.land_ones x 1). lia. Qed.

(** The bit field packed for a one-digit BigInt: length 1, and the sign in
    bit 0. *)
Lemma one_digit_bitfield L (sign : bool) :
  kShift (BigInt_LengthBits L) = 1 ->
  1 <= kSize (BigInt_LengthBits L) ->
  let bitfield := Word32BitwiseOr (encode (BigInt_LengthBits L) 1) (bit sign) in
  wrap 32 bitfield = bitfield
  /\ decode (BigInt_LengthBits L) bitfield = 1
  /\ Z.testbit bitfield 0 = sign.
Proof.
  intros Hshift Hsize. cbv zeta.
  unfold Word32BitwiseOr, BitwiseOr, encode, decode, kMask. rewrite Hshift.
  change (wrap 32 (Z.shiftl 1 1)) with 2. change (wrap 32 2) with 2.
  set (m := 2 ^ kSize (BigInt_LengthBits L) - 1).
  assert (Hodd : m mod 2 = 1) by (apply length_mask_odd; lia).
  assert (Hland1 : Z.land 1 (Z.shiftl m 1) = 0).
  { rewrite land_1_l. rewrite Z.shiftl_mul_pow2 by lia. apply Z.mod_mul. lia. }
  assert (Hland2 : Z.land 2 (Z.shiftl m 1) = 2).
  { replace (Z.land 2 (Z.shiftl m 1)) with (Z.shiftl (Z.land 1 m) 1)
      by (rewrite Z.shiftl_land; reflexivity).
    rewrite land_1_l, Hodd. reflexivity. }
  destruct sign; cbn [bit].
  - replace (wrap 32 1) with 1 by reflexivity.
    replace (wrap 32 (Z.lor 2 1)) with (Z.lor 2 1) by reflexivity.
    rewrite Z.land_lor_distr_l, Hland1, Hland2.
    repeat split.
  - replace (wrap 32 0) with 0 by reflexivity.
    replace (Z.lor 2 0) with 2 by reflexivity.
    replace (wrap 32 2) with 2 by reflexivity.
    rewrite Hland2. repeat split.
Qed.

(** C6 (as amended).  Boxing a 64-bit word as a BigInt on a 64-bit target.
    Input 0, under either interpretation, yields the canonical zero: a box of
    header size only, with zero bit field and no digit.  A nonzero signed
    input yields a one-digit box whose sign bit is the sign of the input and
    whose digit is its absolute value, computed with wrap-around (2^63 for
    the minimum).  A nonzero unsigned input yields a one-digit box with the
    sign bit clear and the input as its digit. *)
Theorem int64_boxed_as_bigint
    (T : Target) (L : Layout) (factory_ : Factory) (input : Z)
    (input_interpretation : ConvertToObjectOp.InputInterpretation.t)
    (mode : CheckForMinusZeroMode) (s : State) :
  Is64 T = true ->
  In input_interpretation
    [ConvertToObjectOp.InputInterpretation.kSigned;
     ConvertToObjectOp.InputInterpretation.kUnsigned] ->
  BigInt_layout T L = true ->
  heap_has_room T s (BigInt_SizeFor L 0 + BigInt_SizeFor L 1) ->
  let box :=
    ReduceConvertToObject T L factory_ input ConvertToObjectOp.Kind.kBigInt Word64
      input_interpretation mode s in
  let zero := allocation_top s + kHeapObjectTag in
  let bigint := allocation_top s + BigInt_SizeFor L 0 + kHeapObjectTag in
  let signed_input :=
    InputInterpretation_eqb input_interpretation
      ConvertToObjectOp.InputInterpretation.kSigned in
  (wrap 64 input = 0 ->
   exists s',
     box = Returned zero s'
     /\ allocations s' = (allocation_top s, BigInt_kHeaderSize L) :: allocations s
     /\ field_value T s' zero (ForMap L) = wrap (TaggedBits T) (bigint_map factory_)
     /\ field_value T s' zero (ForBigIntBitfield L) = 0)
  /\ (wrap 64 input <> 0 ->
      exists s',
        box = Returned bigint s'
        /\ allocations s'
           = (allocation_top s + BigInt_SizeFor L 0, BigInt_SizeFor L 1)
             :: (allocation_top s, BigInt_SizeFor L 0) :: allocations s
        /\ field_value T s' bigint (ForMap L) = wrap (TaggedBits T) (bigint_map factory_)
        /\ decode (BigInt_LengthBits L) (field_value T s' bigint (ForBigIntBitfield L)) = 1
        /\ Z.testbit (field_value T s' bigint (ForBigIntBitfield L))
             (kShift (BigInt_SignBits L))
           = (signed_input && (signed 64 input <? 0))
        /\ field_value T s' bigint (ForBigIntLeastSignificantDigit64 L)
           = if signed_input then Z.abs (signed 64 input) else wrap 64 input).
Proof.
  intros H64 Hinterp Hlayout [Htop Hroom] box zero bigint signed_input.
  pose proof Hlayout as Hl. unfold BigInt_layout in Hl. layout_facts Hl.
  assert (Hsize0 : BigInt_SizeFor L 0 = BigInt_kHeaderSize L)
    by (unfold BigInt_SizeFor; lia).
  assert (Hsize1 : BigInt_kHeaderSize L <= BigInt_SizeFor L 1)
    by (unfold BigInt_SizeFor; lia).
  assert (Hheader : 4 <= BigInt_kHeaderSize L).
  { pose proof (SizeInBytes_nonneg T (machine_type (ForBigIntOptionalPadding L))
                  ltac:(assumption)).
    match goal with
    | H : _ + (if BigInt_HasOptionalPadding L then _ else _) <= _ |- _ => revert H
    end.
    destruct (BigInt_HasOptionalPadding L); lia. }
  destruct (AllocateBigInt_run T L factory_ None None s H64 Hlayout eq_refl)
    as (s1 & Hrun1 & Hlog1 & Htop1 & Hmap1 & Hbits1 & _).
  { cbn [valid]. split; lia. }
  cbn [valid] in Hrun1, Hlog1, Htop1. cbv zeta in Hrun1, Hmap1, Hbits1.
  subst box.
  split; intros Hinput;
    unfold ReduceConvertToObject;
    (unfold bind at 1; unfold DCHECK at 1; rewrite H64; cbv beta iota);
    (unfold bind at 1; cbn [DCHECK RegisterRepresentation_eqb]; cbv beta iota);
    (cbv zeta; unfold bind at 1; rewrite Hrun1; cbv beta iota);
    unfold GOTO_IF, Word64Equal; rewrite Equal_truth;
    replace (wrap 64 0) with 0 by reflexivity.
  - rewrite Hinput. cbn [Z.eqb]. exists s1. unfold ret.
    rewrite <- Hsize0. repeat split; assumption.
  - apply Z.eqb_neq in Hinput. rewrite Hinput.
    assert (Hroom1 : heap_has_room T s1 (BigInt_SizeFor L 1)).
    { unfold heap_has_room. rewrite Htop1. split; lia. }
    subst signed_input.
    destruct Hinterp as [<-|[<-|[]]]; cbn [InputInterpretation_eqb andb].
    + rewrite (sign_shifted_down input)
        || (replace (63 - kShift (BigInt_SignBits L)) with 63 by lia;
            rewrite (sign_shifted_down input)).
      destruct (AllocateBigInt_run T L factory_
                  (Some (Word32BitwiseOr (encode (BigInt_LengthBits L) 1)
                           (bit (signed 64 input <? 0))))
                  (Some (Word64Sub
                           (Word64BitwiseXor input (Word64ShiftRightArithmetic input 63))
                           (Word64ShiftRightArithmetic input 63)))
                  s1 H64 Hlayout eq_refl Hroom1)
        as (s2 & Hrun2 & Hlog2 & Htop2 & Hmap2 & Hbits2 & Hdigit2).
      cbn [valid] in Hrun2, Hlog2. cbv zeta in Hrun2, Hmap2, Hbits2, Hdigit2.
      rewrite Htop1 in Hrun2, Hlog2, Hmap2, Hbits2, Hdigit2. rewrite Hlog1 in Hlog2.
      destruct (one_digit_bitfield L (signed 64 input <? 0)) as (Hw & Hlen & Hsign);
        [assumption | assumption |].
      cbv zeta in Hw, Hlen, Hsign. rewrite Hw in Hbits2.
      exists s2. unfold bind. rewrite Hrun2. cbv beta iota. unfold ret. subst bigint.
      repeat split; try assumption.
      * rewrite Hbits2. exact Hlen.
      * rewrite Hbits2.
        match goal with H : kShift (BigInt_SignBits L) = 0 |- _ => rewrite H end.
        exact Hsign.
      * rewrite (Hdigit2 _ eq_refl).
        unfold Word64Sub at 1, Sub. rewrite wrap_wrap by lia.
        apply branchless_absolute_value.
    + unfold bind at 1. cbn [DCHECK]. cbv beta iota.
      destruct (AllocateBigInt_run T L factory_
                  (Some (encode (BigInt_LengthBits L) 1)) (Some input)
                  s1 H64 Hlayout eq_refl Hroom1)
        as (s2 & Hrun2 & Hlog2 & Htop2 & Hmap2 & Hbits2 & Hdigit2).
      cbn [valid] in Hrun2, Hlog2. cbv zeta in Hrun2, Hmap2, Hbits2, Hdigit2.
      rewrite Htop1 in Hrun2, Hlog2, Hmap2, Hbits2, Hdigit2. rewrite Hlog1 in Hlog2.
      destruct (one_digit_bitfield L false) as (Hw & Hlen & Hsign);
        [assumption | assumption |].
      cbv zeta in Hw, Hlen, Hsign.
      assert (Hor : Word32BitwiseOr (encode (BigInt_LengthBits L) 1) (bit false)
                    = wrap 32 (encode (BigInt_LengthBits L) 1)).
      { unfold Word32BitwiseOr, BitwiseOr. cbn [bit]. change (wrap 32 0) with 0.
        apply Z.lor_0_r. }
      rewrite Hor in Hw, Hlen, Hsign.
      exists s2. unfold bind. rewrite Hrun2. cbv beta iota. unfold ret. subst bigint.
      repeat split; try assumption.
      * rewrite Hbits2. exact Hlen.
      * rewrite Hbits2.
        match goal with H : kShift (BigInt_SignBits L) = 0 |- _ => rewrite H end.
        exact Hsign.
      * apply (Hdigit2 _ eq_refl).
Qed.
Lemma int64_boxed_as_bigint_witness :
  exists s',
    ReduceConvertToObject x64 layout64 roots (- 2 ^ 63) ConvertToObjectOp.Kind.kBigInt
      Word64 ConvertToObjectOp.InputInterpretation.kSigned kDontCheckForMinusZero
      empty_heap
    = Returned 0x100011 s'
    /\ allocations s' = [(0x100010, 24); (0x100000, 16)]
    /\ field_value x64 s' 0x100011 (ForMap layout64) = 0x1001
    /\ decode (BigInt_LengthBits layout64)
         (field_value x64 s' 0x100011 (ForBigIntBitfield layout64)) = 1
    /\ Z.testbit (field_value x64 s' 0x100011 (ForBigIntBitfield layout64)) 0 = true
    /\ field_value x64 s' 0x100011 (ForBigIntLeastSignificantDigit64 layout64) = 2 ^ 63.
Proof.
  refine (proj2 (int64_boxed_as_bigint x64 layout64 roots (- 2 ^ 63)
                   ConvertToObjectOp.InputInterpretation.kSigned kDontCheckForMinusZero
                   empty_heap _ _ _ _) _).
  - reflexivity.
  - left. reflexivity.
  - reflexivity.
  - unfold heap_has_room. simpl. lia.
  - vm_compute. discriminate.
Defined.

(** C6, counterexample to the claim as stated.  The unsigned input 0 is not
    stored with length 1 and a digit: the zero test comes first, and the box
    returned is the canonical zero, of header size and with length field 0. *)
Lemma bigint_of_unsigned_zero_has_length_zero :
  match
    ReduceConvertToObject x64 layout64 roots 0 ConvertToObjectOp.Kind.kBigInt Word64
      ConvertToObjectOp.InputInterpretation.kUnsigned kDontCheckForMinusZero empty_heap
  with
  | Returned bigint s' =>
      decode (BigInt_LengthBits layout64)
        (field_value x64 s' bigint (ForBigIntBitfield layout64)) = 0
      /\ decode (BigInt_LengthBits layout64)
           (field_value x64 s' bigint (ForBigIntBitfield layout64)) <> 1
      /\ allocations s' = [(0x100000, BigInt_kHeaderSize layout64)]
  | _ => False
  end.
Proof. vm_compute. repeat split. discriminate. Qed.

(** ** Strings from code points *)

Lemma lor_shiftl_add a b n :
  0 <= n -> 0 <= b < 2 ^ n -> Z.lor (Z.shiftl a n) b = a * 2 ^ n + b.
Proof.
  intros Hn Hb.
  assert (Hdisj : Z.land (Z.shiftl a n) b = 0).
  { apply Z.bits_inj'. intros k Hk. rewrite Z.land_spec, Z.bits_0.
    destruct (Z_lt_le_dec k n).
    - rewrite Z.shiftl_spec_low by lia. reflexivity.
    - assert (Z.testbit b k = false) as ->; [|apply andb_false_r].
      destruct (Z.eq_dec b 0) as [->|Hne]; [apply Z.bits_0|].
      apply Z.bits_above_log2; [lia|].
      assert (Z.log2 b < n) by (apply Z.log2_lt_pow2; lia). lia. }
  rewrite <- Z.lxor_lor by exact Hdisj.
  rewrite <- Z.add_nocarry_lxor by exact Hdisj.
  rewrite Z.shiftl_mul_pow2 by lia. reflexivity.
Qed.

(** The two 16-bit halves of a stored 32-bit word, in memory order. *)
Lemma load_halves_of_word be addr v m :
  Memory.load be 2 addr (Memory.store be 4 addr v m)
  = (if be then (v / 2 ^ 16) mod 2 ^ 16 else v mod 2 ^ 16)
  /\ Memory.load be 2 (addr + 2) (Memory.store be 4 addr v m)
     = (if be then v mod 2 ^ 16 else (v / 2 ^ 16) mod 2 ^ 16).
Proof.
  unfold Memory.load. change (Z.to_nat 2) with 2%nat. cbn [Memory.load_digits].
  destruct be; unfold Memory.byte_index;
    replace (addr + (2 - 1 - 0)) with (addr + Memory.byte_index true 4 2) by reflexivity;
    replace (addr + (2 - 1 - (0 + 1))) with (addr + Memory.byte_index true 4 3) by reflexivity;
    replace (addr + 2 + (2 - 1 - 0)) with (addr + Memory.byte_index true 4 0)
      by (unfold Memory.byte_index; lia);
    replace (addr + 2 + (2 - 1 - (0 + 1))) with (addr + Memory.byte_index true 4 1)
      by (unfold Memory.byte_index; lia);
    replace (addr + 0) with (addr + Memory.byte_index false 4 0) by reflexivity;
    replace (addr + (0 + 1)) with (addr + Memory.byte_index false 4 1) by reflexivity;
    replace (addr + 2 + 0) with (addr + Memory.byte_index false 4 2)
      by (unfold Memory.byte_index; lia);
    replace (addr + 2 + (0 + 1)) with (addr + Memory.byte_index false 4 3)
      by (unfold Memory.byte_index; lia);
    rewrite !store_byte by lia;
    change (256 ^ 0) with 1; change (256 ^ 1) with 256;
    change (256 ^ 2) with 65536; change (256 ^ 3) with 16777216;
    change (2 ^ 16) with 65536;
    split; Z.div_mod_to_equations; lia.
Qed.

Lemma store_value_outside T rep addr v m a :
  a < addr \/ addr + SizeInBytes T rep <= a ->
  store_value T rep addr v m a = m a.
Proof. intros H. unfold store_value. apply store_outside. exact H. Qed.

Lemma store_value_zero_inside T rep addr m a :
  addr <= a < addr + SizeInBytes T rep ->
  store_value T rep addr 0 m a = 0.
Proof.
  intros H. unfold store_value, Memory.store.
  destruct (Z.leb_spec addr a); [|lia].
  destruct (Z.ltb_spec a (addr + SizeInBytes T rep)); [|lia].
  cbn [andb]. unfold wrap.
  assert (E : forall x y, (0 mod x / y) mod 256 = 0).
  { intros x y. rewrite (Zmod_0_l x). rewrite (Zdiv_0_l y). reflexivity. }
  apply E.
Qed.

(** The surrogate pair of a code point beyond the basic plane. *)
Lemma surrogate_pair_units cp :
  0x10000 <= cp <= 0x10FFFF ->
  let lead := Word32Add (Word32ShiftRightLogical cp 10) (0xD800 - Z.shiftr 0x10000 10) in
  let trail := Word32Add (Word32BitwiseAnd cp 0x3FF) 0xDC00 in
  lead = Z.shiftr cp 10 + (0xD800 - Z.shiftr 0x10000 10)
  /\ trail = Z.land cp 0x3FF + 0xDC00
  /\ 0xD800 <= lead <= 0xDBFF
  /\ 0xDC00 <= trail <= 0xDFFF
  /\ surrogate_decode lead trail = cp.
Proof.
  intros Hcp. cbv zeta.
  unfold Word32Add, Add, Word32ShiftRightLogical, ShiftRightLogical, Word32BitwiseAnd,
    BitwiseAnd.
  replace (wrap 32 10 mod 32) with 10 by reflexivity.
  replace (wrap 32 1023) with 1023 by reflexivity.
  replace (wrap 32 56320) with 56320 by reflexivity.
  replace (55296 - Z.shiftr 65536 10) with 55232 by reflexivity.
  replace (wrap 32 55232) with 55232 by reflexivity.
  rewrite (wrap_small 32 cp) by (replace (2 ^ 32) with 4294967296 by reflexivity; lia).
  replace 1023 with (Z.ones 10) by reflexivity.
  rewrite Z.land_ones by lia. rewrite Z.shiftr_div_pow2 by lia.
  replace (2 ^ 10) with 1024 by reflexivity.
  assert (Hq : 64 <= cp / 1024 <= 1087) by (Z.div_mod_to_equations; lia).
  assert (Hr : 0 <= cp mod 1024 < 1024) by (apply Z.mod_pos_bound; lia).
  rewrite !(wrap_small 32 (cp / 1024))
    by (replace (2 ^ 32) with 4294967296 by reflexivity; lia).
  rewrite !(wrap_small 32 (cp mod 1024))
    by (replace (2 ^ 32) with 4294967296 by reflexivity; lia).
  rewrite !(wrap_small 32 (cp / 1024 + 55232))
    by (replace (2 ^ 32) with 4294967296 by reflexivity; lia).
  rewrite !(wrap_small 32 (cp mod 1024 + 56320))
    by (replace (2 ^ 32) with 4294967296 by reflexivity; lia).
  repeat split; try lia.
  unfold surrogate_decode.
  replace (55296 - Z.shiftr 65536 10) with 55232 by reflexivity.
  replace (cp mod 1024 + 56320 - 56320) with (cp mod 1024) by lia.
  replace (cp / 1024 + 55232 - 55232) with (cp / 1024) by lia.
  rewrite Z.lor_comm, lor_shiftl_add by (replace (2 ^ 10) with 1024 by reflexivity; lia).
  replace (2 ^ 10) with 1024 by reflexivity.
  Z.div_mod_to_equations. lia.
Qed.

(** The two units packed into one word for the byte order of the target. *)
Lemma packed_pair (big_endian : bool) lead trail :
  0 <= lead < 2 ^ 16 -> 0 <= trail < 2 ^ 16 ->
  let code :=
    if big_endian then Word32BitwiseOr (Word32ShiftLeft lead 16) trail
    else Word32BitwiseOr (Word32ShiftLeft trail 16) lead in
  wrap 32 code = (if big_endian then lead * 2 ^ 16 + trail else trail * 2 ^ 16 + lead).
Proof.
  intros Hl Ht. cbv zeta.
  replace (2 ^ 16) with 65536 in * by reflexivity.
  unfold Word32BitwiseOr, BitwiseOr, Word32ShiftLeft, ShiftLeft.
  replace (wrap 32 16 mod 32) with 16 by reflexivity.
  rewrite !(wrap_small 32 lead) by (replace (2 ^ 32) with 4294967296 by reflexivity; lia).
  rewrite !(wrap_small 32 trail) by (replace (2 ^ 32) with 4294967296 by reflexivity; lia).
  rewrite !Z.shiftl_mul_pow2 by lia. replace (2 ^ 16) with 65536 by reflexivity.
  rewrite !(wrap_small 32 (lead * 65536))
    by (replace (2 ^ 32) with 4294967296 by reflexivity; lia).
  rewrite !(wrap_small 32 (trail * 65536))
    by (replace (2 ^ 32) with 4294967296 by reflexivity; lia).
  pose proof (lor_shiftl_add lead trail 16 ltac:(lia)) as H1.
  pose proof (lor_shiftl_add trail lead 16 ltac:(lia)) as H2.
  rewrite !Z.shiftl_mul_pow2 in H1, H2 by lia.
  replace (2 ^ 16) with 65536 in H1, H2 by reflexivity.
  destruct big_endian.
  - rewrite H1 by lia. apply wrap_small.
    replace (2 ^ 32) with 4294967296 by reflexivity. lia.
  - rewrite H2 by lia. apply wrap_small.
    replace (2 ^ 32) with 4294967296 by reflexivity. lia.
Qed.

(** C7 (as amended).  String boxing of a code point [cp] beyond the basic
    plane (0x10000 <= cp <= 0x10FFFF): the lowering computes
    lead = (cp >> 10) + (0xD800 - (0x10000 >> 10)) and
    trail = (cp & 0x3FF) + 0xDC00, packs them into one 32-bit word in the byte
    order of the target, and stores it behind the header of a freshly
    allocated two-unit string, over the padding word it zeroed first.  In
    memory the first code unit is then the lead and the second the trail on
    either byte order, the bytes behind them up to the end of the object are
    zero, and the pair decoded by
    (high - 0xDC00) | ((low - (0xD800 - (0x10000 >> 10))) << 10), with nothing
    added, is [cp]. *)
Theorem surrogate_pair_round_trips
    (T : Target) (L : Layout) (factory_ : Factory) (cp : Z)
    (input_rep : RegisterRepresentation) (mode : CheckForMinusZeroMode) (s : State) :
  0x10000 <= cp <= 0x10FFFF ->
  SeqTwoByteString_layout T L = true ->
  heap_has_room T s (SeqTwoByteString_SizeFor T L 2) ->
  let lead := Z.shiftr cp 10 + (0xD800 - Z.shiftr 0x10000 10) in
  let trail := Z.land cp 0x3FF + 0xDC00 in
  let code :=
    if V8_TARGET_BIG_ENDIAN T then Z.lor (Z.shiftl lead 16) trail
    else Z.lor (Z.shiftl trail 16) lead in
  let string := allocation_top s + kHeapObjectTag in
  let chars := allocation_top s + SeqTwoByteString_kHeaderSize L in
  exists s',
    ReduceConvertToObject T L factory_ cp ConvertToObjectOp.Kind.kString input_rep
      ConvertToObjectOp.InputInterpretation.kCodePoint mode s
    = Returned string s'
    /\ allocations s' = (allocation_top s, SeqTwoByteString_SizeFor T L 2) :: allocations s
    /\ field_value T s' string (ForMap L) = wrap (TaggedBits T) (string_map factory_)
    /\ field_value T s' string (ForStringLength L) = 2
    /\ load_value T kUint32 chars (memory s') = code
    /\ load_value T kUint16 chars (memory s') = lead
    /\ load_value T kUint16 (chars + 2) (memory s') = trail
    /\ surrogate_decode lead trail = cp
    /\ (forall a,
          chars + 4 <= a < allocation_top s + SeqTwoByteString_SizeFor T L 2 ->
          memory s' a = 0).
Proof.
  intros Hcp Hlayout [Htop Hroom] lead trail code string chars.
  pose proof Hlayout as Hl. unfold SeqTwoByteString_layout in Hl. layout_facts Hl.
  destruct (surrogate_pair_units cp Hcp) as (Hlead & Htrail & Hlr & Htr & Hdecode).
  cbv zeta in Hlead, Htrail, Hlr, Htr, Hdecode.
  fold lead in Hlead. fold trail in Htrail.
  set (lead32 := Word32Add (Word32ShiftRightLogical cp 10) (55296 - Z.shiftr 65536 10)) in *.
  set (trail32 := Word32Add (Word32BitwiseAnd cp 1023) 56320) in *.
  pose proof (packed_pair (V8_TARGET_BIG_ENDIAN T) lead32 trail32) as Hcode.
  cbv zeta in Hcode.
  set (code32 := if V8_TARGET_BIG_ENDIAN T
                 then Word32BitwiseOr (Word32ShiftLeft lead32 16) trail32
                 else Word32BitwiseOr (Word32ShiftLeft trail32 16) lead32) in *.
  assert (Hcode' : wrap 32 code32 = code).
  { rewrite Hcode by (replace (2 ^ 16) with 65536 by reflexivity; lia).
    subst code. rewrite <- Hlead, <- Htrail.
    rewrite !lor_shiftl_add by (replace (2 ^ 16) with 65536 by reflexivity; lia).
    reflexivity. }
  set (top := allocation_top s) in *.
  assert (Hsize : wrap (WordPtrBits T) (SeqTwoByteString_SizeFor T L 2)
                  = SeqTwoByteString_SizeFor T L 2) by (apply wrap_small; lia).
  assert (Hbase : wrap (WordPtrBits T) (top + kHeapObjectTag) = top + kHeapObjectTag)
    by (apply wrap_small; unfold kHeapObjectTag; lia).
  assert (Hfirst : truth (Uint32LessThanOrEqual cp 65535) = false).
  { unfold Uint32LessThanOrEqual. rewrite UintLessThanOrEqual_truth.
    rewrite (wrap_small 32 cp) by (replace (2 ^ 32) with 4294967296 by reflexivity; lia).
    apply Z.leb_gt. replace (wrap 32 65535) with 65535 by reflexivity. lia. }
  unfold ReduceConvertToObject. cbv zeta. cbn [InputInterpretation_eqb].
  unfold bind at 1. cbn [DCHECK]. cbv beta iota.
  unfold GOTO_IF. rewrite Hfirst.
  fold lead32. fold trail32. fold code32.
  unfold bind, Allocate, StoreField, Store, ret. fold top.
  rewrite Hsize, Hbase.
  eexists. split; [reflexivity|]. split; [reflexivity|].
  unfold field_value. cbn [memory]. subst string chars.
  rewrite !address_field by (unfold kHeapObjectTag; lia).
  unfold kHeapObjectTag.
  replace (top + 1 - 1 + SeqTwoByteString_kHeaderSize L)
    with (top + SeqTwoByteString_kHeaderSize L) by lia.
  repeat match goal with
         | H : machine_type _ = _ |- _ => rewrite H in *
         end.
  split; [| split; [| split; [| split; [| split; [| split]]]]].
  - repeat (rewrite load_value_store_value_other
              by (try assumption; cbn [SizeInBytes];
                  rewrite ?tagged_rep_size by assumption; lia)).
    rewrite load_value_store_value_same
      by first [assumption | apply tagged_rep_unsigned; assumption].
    rewrite tagged_rep_size by assumption. reflexivity.
  - repeat (rewrite load_value_store_value_other
              by (try assumption; cbn [SizeInBytes];
                  rewrite ?tagged_rep_size by assumption; lia)).
    rewrite load_value_store_value_same by first [assumption | reflexivity].
    reflexivity.
  - rewrite load_value_store_value_same by first [assumption | reflexivity].
    exact Hcode'.
  - unfold load_value, store_value. cbn [SizeInBytes].
    rewrite (proj1 (load_halves_of_word _ _ _ _)).
    replace (8 * 4) with 32 by reflexivity. rewrite Hcode.
    + replace (2 ^ 16) with 65536 by reflexivity.
      destruct (V8_TARGET_BIG_ENDIAN T); Z.div_mod_to_equations; lia.
    + replace (2 ^ 16) with 65536 by reflexivity. lia.
    + replace (2 ^ 16) with 65536 by reflexivity. lia.
  - unfold load_value, store_value. cbn [SizeInBytes].
    rewrite (proj2 (load_halves_of_word _ _ _ _)).
    replace (8 * 4) with 32 by reflexivity. rewrite Hcode.
    + replace (2 ^ 16) with 65536 by reflexivity.
      destruct (V8_TARGET_BIG_ENDIAN T); Z.div_mod_to_equations; lia.
    + replace (2 ^ 16) with 65536 by reflexivity. lia.
    + replace (2 ^ 16) with 65536 by reflexivity. lia.
  - rewrite <- Hlead, <- Htrail. exact Hdecode.
  - intros a Ha.
    repeat (rewrite store_value_outside
              by (cbn [SizeInBytes]; rewrite ?tagged_rep_size by assumption; lia)).
    apply store_value_zero_inside. cbn [SizeInBytes]. lia.
Qed.

Lemma surrogate_pair_round_trips_witness :
  exists s',
    ReduceConvertToObject x64 layout64 roots 0x1F600 ConvertToObjectOp.Kind.kString Word32
      ConvertToObjectOp.InputInterpretation.kCodePoint kDontCheckForMinusZero empty_heap
    = Returned 0x100001 s'
    /\ allocations s' = [(0x100000, 24)]
    /\ field_value x64 s' 0x100001 (ForMap layout64) = 0x1301
    /\ field_value x64 s' 0x100001 (ForStringLength layout64) = 2
    /\ load_value x64 kUint32 0x100010 (memory s') = 0xDE00D83D
    /\ load_value x64 kUint16 0x100010 (memory s') = 0xD83D
    /\ load_value x64 kUint16 0x100012 (memory s') = 0xDE00
    /\ surrogate_decode 0xD83D 0xDE00 = 0x1F600
    /\ (forall a, 0x100014 <= a < 0x100018 -> memory s' a = 0).
Proof.
  refine (surrogate_pair_round_trips x64 layout64 roots 0x1F600 Word32
            kDontCheckForMinusZero empty_heap _ _ _).
  - lia.
  - reflexivity.
  - unfold heap_has_room. simpl. lia.
Defined.

(** C7, counterexample to the claim as stated.  For the code point 0x1F600
    the two stored units are 0xD83D and 0xDE00 on either byte order, and the
    decoding formula of the claim, which adds 0x10000 once more, yields
    0x2F600. *)
Lemma specified_decode_adds_a_plane :
  match
    ReduceConvertToObject x64 layout64 roots 0x1F600 ConvertToObjectOp.Kind.kString Word32
      ConvertToObjectOp.InputInterpretation.kCodePoint kDontCheckForMinusZero empty_heap,
    ReduceConvertToObject big_endian64 layout64 roots 0x1F600 ConvertToObjectOp.Kind.kString
      Word32 ConvertToObjectOp.InputInterpretation.kCodePoint kDontCheckForMinusZero
      empty_heap
  with
  | Returned string s', Returned string_be s_be =>
      let low := load_value x64 kUint16 (string - 1 + 16) (memory s') in
      let high := load_value x64 kUint16 (string - 1 + 18) (memory s') in
      let low_be := load_value big_endian64 kUint16 (string_be - 1 + 16) (memory s_be) in
      let high_be := load_value big_endian64 kUint16 (string_be - 1 + 18) (memory s_be) in
      (low, high) = (0xD83D, 0xDE00)
      /\ (low_be, high_be) = (0xD83D, 0xDE00)
      /\ specified_decode low high = 0x2F600
      /\ specified_decode low high <> 0x1F600
  | _, _ => False
  end.
Proof. vm_compute. repeat split. discriminate. Qed.

(** ** Array minimum and maximum *)

(** The loop of [ReduceDoubleArrayMinMax] from [index] on folds the elements
    that remain into the accumulator and goes to [done]. *)
Lemma ReduceDoubleArrayMinMax_loop_folds T L is_max elements array_length done index
    accumulator s :
  0 <= index <= wrap (WordPtrBits T) array_length ->
  ReduceDoubleArrayMinMax_loop T L is_max elements array_length done index accumulator s
  = done
      (fold_left (if is_max then Float64Max else Float64Min)
         (map (element_value T s elements (ForFixedDoubleArrayElement L))
            (indices index (Z.to_nat (wrap (WordPtrBits T) array_length - index))))
         accumulator)
      s.
Proof.
  funelim (ReduceDoubleArrayMinMax_loop T L is_max elements array_length done index
             accumulator); intros Hindex.
  - pose proof (WordPtrBits_pos T) as Hw.
    pose proof (wrap_range (WordPtrBits T) array_length ltac:(lia)) as Hl.
    assert (Hi : wrap (WordPtrBits T) index = index) by (apply wrap_small; lia).
    pose proof e as He.
    unfold UintPtrLessThan in He. rewrite UintLessThan_truth, Hi in He.
    apply Z.ltb_lt in He.
    assert (Hnext : WordPtrAdd T index 1 = index + 1).
    { unfold WordPtrAdd, Add. rewrite Hi.
      assert (1 < 2 ^ WordPtrBits T) by (apply Z.pow_gt_1; lia).
      rewrite (wrap_small (WordPtrBits T) 1) by lia.
      apply wrap_small. lia. }
    unfold bind. rewrite LoadElement_run.
    rewrite (H _ s s) by (rewrite Hnext; lia).
    rewrite Hnext.
    replace (Z.to_nat (wrap (WordPtrBits T) array_length - index))
      with (S (Z.to_nat (wrap (WordPtrBits T) array_length - (index + 1)))) by lia.
    cbn [indices map fold_left]. destruct is_max; reflexivity.
  - pose proof (WordPtrBits_pos T) as Hw.
    pose proof (wrap_range (WordPtrBits T) array_length ltac:(lia)) as Hl.
    assert (Hi : wrap (WordPtrBits T) index = index) by (apply wrap_small; lia).
    pose proof e as He.
    unfold UintPtrLessThan in He. rewrite UintLessThan_truth, Hi in He.
    apply Z.ltb_ge in He.
    replace (Z.to_nat (wrap (WordPtrBits T) array_length - index)) with O by lia.
    reflexivity.
Qed.

(** C9.  The array min/max reduction is one forward loop over the elements
    of the double array: the accumulator starts at +infinity for min and at
    -infinity for max, each turn folds the element loaded at the current index
    into it with Float64Min or Float64Max, and the final accumulator is boxed
    by the number path of ConvertToObject with minus-zero checking enabled.
    In particular, max over [3.0, -1.0, 7.5] is a freshly boxed heap number
    holding 7.5. *)
Theorem double_array_min_max_is_a_fold
    (T : Target) (L : Layout) (factory_ : Factory) (array : Z)
    (kind : DoubleArrayMinMaxOp.Kind) (s : State) :
  let length := field_value T s array (ForJSArrayLength L) in
  let array_length := ChangeInt32ToIntPtr T (SmiUntag T length) in
  let elements := field_value T s array (ForJSObjectElements L) in
  let values :=
    map (element_value T s elements (ForFixedDoubleArrayElement L))
      (indices 0 (Z.to_nat (wrap (WordPtrBits T) array_length))) in
  let result :=
    match kind with
    | DoubleArrayMinMaxOp.kMin => fold_left Float64Min values Float64.plus_infinity
    | DoubleArrayMinMaxOp.kMax => fold_left Float64Max values Float64.minus_infinity
    end in
  ReduceDoubleArrayMinMax T L factory_ array kind s
  = ReduceConvertToObject T L factory_ result ConvertToObjectOp.Kind.kNumber Float64
      ConvertToObjectOp.InputInterpretation.kSigned kCheckForMinusZero s
  /\ match
       ReduceDoubleArrayMinMax x64 layout64 roots 0x4001 DoubleArrayMinMaxOp.kMax
         double_array_heap
     with
     | Returned number s' =>
         allocations s' = [(allocation_top double_array_heap, HeapNumber_kSize layout64)]
         /\ field_value x64 s' number (ForMap layout64) = heap_number_map roots
         /\ field_value x64 s' number (ForHeapNumberValue layout64) = 0x401E000000000000
         /\ Float64.of_bits 0x401E000000000000 = S754_finite false (15 * 2 ^ 49) (-50)
     | _ => False
     end.
Proof.
  intros length array_length elements values result.
  split.
  - unfold ReduceDoubleArrayMinMax. cbv zeta.
    unfold bind at 1. rewrite LoadField_run. cbv beta iota. fold length. fold array_length.
    unfold bind at 1. rewrite LoadField_run. cbv beta iota. fold elements.
    pose proof (wrap_range (WordPtrBits T) array_length
                  ltac:(pose proof (WordPtrBits_pos T); lia)) as Hl.
    rewrite ReduceDoubleArrayMinMax_loop_folds by lia.
    rewrite Z.sub_0_r. fold values.
    unfold ConvertFloat64ToNumber. subst result.
    destruct kind; reflexivity.
  - vm_compute. repeat split.
Qed.

(** ** The scenarios of the specification *)

(** Narrowing the signed 64-bit value 4294967296 to 32 bits deoptimizes with
    "lost precision". *)
Example int64_beyond_int32_loses_precision :
  ReduceChangeOrDeopt x64 4294967296 7 ChangeOrDeoptOp.kInt64ToInt32
    kDontCheckForMinusZero 9 empty_heap
  = Deoptimized DeoptimizeReason.kLostPrecision 7 9.
Proof. reflexivity. Qed.

(** String boxing of 'A' answers from the single-character string table and
    allocates nothing; the code point 0x20AC gets a fresh one-unit string. *)
Example one_byte_and_two_byte_code_points :
  ReduceConvertToObject x64 layout64 roots 0x41 ConvertToObjectOp.Kind.kString Word32
    ConvertToObjectOp.InputInterpretation.kCodePoint kDontCheckForMinusZero empty_heap
  = Returned
      (element_value x64 empty_heap (single_character_string_table roots)
         (ForFixedArrayElement layout64) 0x41)
      empty_heap
  /\ match
       ReduceConvertToObject x64 layout64 roots 0x20AC ConvertToObjectOp.Kind.kString
         Word32 ConvertToObjectOp.InputInterpretation.kCodePoint kDontCheckForMinusZero
         empty_heap
     with
     | Returned string s' =>
         allocations s' = [(0x100000, SeqTwoByteString_SizeFor x64 layout64 1)]
         /\ field_value x64 s' string (ForStringLength layout64) = 1
         /\ load_value x64 kUint16 (string - 1 + 16) (memory s') = 0x20AC
     | _ => False
     end.
Proof. split; [reflexivity | vm_compute; repeat split]. Qed.

(** The bound of the array-index conversion is strict: the largest safe
    integer itself is not taken as an index. *)
Example largest_safe_integer_is_not_an_index :
  match
    ReduceConvertObjectToPrimitiveOrDeopt x64 layout64 roots 0x4001 7
      ConvertObjectToPrimitiveOrDeoptOp.ObjectKind.kNumberOrString
      ConvertObjectToPrimitiveOrDeoptOp.PrimitiveKind.kArrayIndex kDontCheckForMinusZero 9
      (poke x64 kFloat64 0x4008 (Float64.of_Z 9007199254740991) heap_number_heap),
    ReduceConvertObjectToPrimitiveOrDeopt x64 layout64 roots 0x4001 7
      ConvertObjectToPrimitiveOrDeoptOp.ObjectKind.kNumberOrString
      ConvertObjectToPrimitiveOrDeoptOp.PrimitiveKind.kArrayIndex kDontCheckForMinusZero 9
      (poke x64 kFloat64 0x4008 (Float64.of_Z 9007199254740990) heap_number_heap)
  with
  | Deoptimized reason _ _, Returned index _ =>
      reason = DeoptimizeReason.kNotAnArrayIndex /\ index = 9007199254740990
  | _, _ => False
  end.
Proof. vm_compute. split; reflexivity. Qed.
